(** * The banded SIMD pair-HMM aligner of Octopus

    A shallow embedding of [src/core/models/pairhmm/simd_pair_hmm.hpp]
    (class [PairHMM<InstructionSetPolicy>]) and the properties of its two
    [align] overloads.

    Layout of the development:
    - [Simd]: the vector backend (the [InstructionSetPolicy]), lanes of
      signed 16-bit scores held as [Z];
    - [PairHMM]: the constants of the class, the score-only [align], the
      alignment-recovering [align] with its back-pointer buffer and its
      backtrace;
    - the theorems. *)

From Stdlib Require Import ZArith Ascii String List Lia Bool.
Import ListNotations.

Local Open Scope Z_scope.

(** ** Scalars *)

(** [ScoreType] is [short]: a conversion to it keeps the low 16 bits, read
    as a two's complement number. *)
Definition wrap16 (z : Z) : Z := (z + 32768) mod 65536 - 32768.

Definition is_int16 (z : Z) : Prop := -32768 <= z <= 32767.

(** [char] is a signed byte on the targets of the SIMD backends; a [char]
    stored into a lane is sign-extended. *)
Definition char_to_int (c : ascii) : Z :=
  let n := Z.of_N (N_of_ascii c) in if n <? 128 then n else n - 256.

(** C arrays read through a pointer and an index. *)
Definition char_at (p : list ascii) (k : Z) : ascii := nth (Z.to_nat k) p zero.
Definition int8_at (p : list Z) (k : Z) : Z := nth (Z.to_nat k) p 0.

(** ** The vector backend *)

Module Simd.

(** A register is the list of its lanes, lane 0 first. *)
Definition VectorType := list Z.

Definition lanewise (f : Z -> Z -> Z) (a b : VectorType) : VectorType :=
  map (fun p => f (fst p) (snd p)) (combine a b).

Definition lane (v : VectorType) (k : nat) : Z := nth k v 0.

(** The register read as one wide unsigned integer (lane 0 in the low
    bits), and back. *)
Fixpoint to_register (v : VectorType) : Z :=
  match v with
  | [] => 0
  | x :: r => x mod 65536 + 65536 * to_register r
  end.

Fixpoint of_register (n : nat) (r : Z) : VectorType :=
  match n with
  | O => []
  | S k => wrap16 r :: of_register k (r / 65536)
  end.

Section Backend.

(** [band_size = sizeof(VectorType) / sizeof(ScoreType)]: 8 lanes for
    the 128-bit backend, 16 for the 256-bit one. *)
Variable band_size : nat.

(** Modelled from the spec: the policy class is not part of the sources;
    [extract] is "lane access", and the spec gives no meaning to a lane
    index outside [0 .. band_size - 1].  The value a backend returns
    there is the parameter [extract_oob]. *)
Variable extract_oob : VectorType -> Z -> Z.

(** Modelled from the spec: [broadcast(x)], lanes <- x. *)
Definition vectorise (x : Z) : VectorType := repeat (wrap16 x) band_size.

(** Modelled from the spec: [load_reverse(ptr)], lanes <- ptr[B-1], ...,
    ptr[0], listed from the high lane down: lane [k] holds [ptr[k]]. *)
Definition vectorise_reverse (ptr : list ascii) : VectorType :=
  map (fun k => char_to_int (char_at ptr (Z.of_nat k))) (seq 0 band_size).

(** Modelled from the spec: [load_reverse_shifted(ptr, s)], as
    [load_reverse] with each lane left-shifted by [s] bits. *)
Definition vectorise_reverse_lshift_ptr (ptr : list Z) (sh : Z) : VectorType :=
  map (fun k => wrap16 (Z.shiftl (int8_at ptr (Z.of_nat k)) sh)) (seq 0 band_size).

(** Modelled from the spec: the scalar form of a gap penalty, "a single
    scalar broadcast across all truth positions". *)
Definition vectorise_reverse_lshift_val (x : Z) (sh : Z) : VectorType :=
  vectorise (Z.shiftl x sh).

(** Modelled from the spec: [zero_with_last(x)], lanes <- 0, 0, ..., x
    in the same listing: [x] is in lane 0. *)
Definition vectorise_zero_set_last (x : Z) : VectorType :=
  match band_size with
  | O => []
  | S k => wrap16 x :: repeat 0 k
  end.

(** Modelled from the spec: [extract(v, i)], lane access. *)
Definition _extract (v : VectorType) (n : Z) : Z :=
  if (0 <=? n) && (n <? Z.of_nat band_size)
  then lane v (Z.to_nat n)
  else wrap16 (extract_oob v n).

(** Modelled from the spec: [insert(v, x, i)], lane access. *)
Fixpoint set_lane (v : VectorType) (k : nat) (x : Z) : VectorType :=
  match v, k with
  | [], _ => []
  | _ :: r, O => x :: r
  | y :: r, S k' => y :: set_lane r k' x
  end.

Definition _insert (v : VectorType) (x : Z) (n : Z) : VectorType :=
  set_lane v (Z.to_nat n) (wrap16 x).

(** Modelled from the spec: [add, and, andnot, or, cmpeq, min, max],
    lane-wise, standard meaning; [cmpeq] returns all-ones on equality,
    zero otherwise; [andnot(a, b)] is [~a & b]. *)
Definition _add : VectorType -> VectorType -> VectorType :=
  lanewise (fun x y => wrap16 (x + y)).
Definition _and : VectorType -> VectorType -> VectorType := lanewise Z.land.
Definition _andnot : VectorType -> VectorType -> VectorType :=
  lanewise (fun x y => Z.land (Z.lnot x) y).
Definition _or : VectorType -> VectorType -> VectorType := lanewise Z.lor.
Definition _cmpeq : VectorType -> VectorType -> VectorType :=
  lanewise (fun x y => if x =? y then -1 else 0).
Definition _min : VectorType -> VectorType -> VectorType := lanewise Z.min.
Definition _max : VectorType -> VectorType -> VectorType := lanewise Z.max.

(** Modelled from the spec: [shift_left_bytes<k>], [shift_right_bytes<k>],
    byte-granularity whole-register shifts, zero-filled. *)
Definition _left_shift (k : Z) (v : VectorType) : VectorType :=
  of_register (length v) (Z.shiftl (to_register v) (8 * k)).
Definition _right_shift (k : Z) (v : VectorType) : VectorType :=
  of_register (length v) (Z.shiftr (to_register v) (8 * k)).

(** Modelled from the spec: [shift_left_bits<k>], a per-lane bit shift. *)
Definition _left_shift_words (k : Z) (v : VectorType) : VectorType :=
  map (fun x => wrap16 (Z.shiftl x k)) v.

End Backend.

End Simd.

(** ** Results of a call *)

(** A call returns, stops at the [assert] of its first line, or leaves the
    defined behaviour of the language (a read or write outside the array a
    pointer was given for, a write through a null pointer).  [OutOfFuel] is
    the answer of a loop model whose iteration budget ran out; the backtrace
    never gives it (theorem [backtrace_terminates]). *)
Inductive outcome (A : Type) : Type :=
| Returned (a : A)
| AssertionFailed
| Undefined
| OutOfFuel.

Arguments Returned {A} a.
Arguments AssertionFailed {A}.
Arguments Undefined {A}.
Arguments OutOfFuel {A}.

Definition bind {A B : Type} (m : outcome A) (k : A -> outcome B) : outcome B :=
  match m with
  | Returned a => k a
  | AssertionFailed => AssertionFailed
  | Undefined => Undefined
  | OutOfFuel => OutOfFuel
  end.

Notation "'let*' x ':=' m 'in' k" := (bind m (fun x => k))
  (at level 10, x name, m at level 100, k at level 200).

(** A read of [p[k]] for an array of [length p] elements. *)
Definition load {A : Type} (p : list A) (k : Z) : outcome A :=
  if (0 <=? k) && (k <? Z.of_nat (length p))
  then match nth_error p (Z.to_nat k) with
       | Some a => Returned a
       | None => Undefined
       end
  else Undefined.

Fixpoint update {A : Type} (p : list A) (k : nat) (a : A) : list A :=
  match p, k with
  | [], _ => []
  | _ :: r, O => a :: r
  | b :: r, S k' => b :: update r k' a
  end.

(** A caller-provided [char*] buffer: null, or an array of known capacity. *)
Definition buffer := option (list ascii).

(** A write [p[k] = c]. *)
Definition store (p : buffer) (k : Z) (c : ascii) : outcome buffer :=
  match p with
  | None => Undefined
  | Some l =>
      if (0 <=? k) && (k <? Z.of_nat (length l))
      then Returned (Some (update l (Z.to_nat k) c))
      else Undefined
  end.

(** The C string a buffer holds: the characters before the first NUL. *)
Fixpoint c_str (l : list ascii) : list ascii :=
  match l with
  | [] => []
  | c :: r => if Ascii.eqb c zero then [] else c :: c_str r
  end.

(** ** The aligner *)

Module PairHMM.

Import Simd.

(** *** Constants of the class *)

Definition score_bytes : Z := 2.
Definition infinity : Z := 30720.      (* 0x7800 *)
Definition trace_bits : Z := 2.
Definition n_score : Z := Z.shiftl 2 trace_bits.
Definition max_n_quality : Z := 64.
Definition bitmask : Z := 32768.       (* 0x8000 *)
Definition match_label : Z := 0.
Definition insert_label : Z := 1.
Definition delete_label : Z := 3.
Definition gap_label : ascii := "-"%char.

(** The two instantiations of [OpenPenalty] and [ExtendPenalty]:
    [const std::int8_t*], one penalty per truth position, or a scalar. *)
Inductive Penalty : Type :=
| PerPosition (source : list Z)
| Uniform (source : Z).

(** The working vectors of the main loop. *)
Record Band : Type := mkBand {
  _m1 : VectorType; _i1 : VectorType; _d1 : VectorType;
  _m2 : VectorType; _i2 : VectorType; _d2 : VectorType;
  _initmask : VectorType; _initmask2 : VectorType;
  _truthwin : VectorType; _targetwin : VectorType;
  _qualitieswin : VectorType;
  _gap_open : VectorType; _gap_extend : VectorType;
  _truthnqual : VectorType
}.

(** What the alignment overload hands back: the returned [int], the
    out-parameter [first_pos] and the two buffers as the call leaves
    them. *)
Record Alignment : Type := mkAlignment {
  score : Z;
  first_pos : Z;
  align1 : buffer;
  align2 : buffer
}.

(** The variables of the backtrace. *)
Record Walk : Type := mkWalk {
  w_s : Z; w_i : Z; w_x : Z; w_y : Z;
  w_alnidx : Z; w_state : Z;
  w_align1 : buffer; w_align2 : buffer
}.

(** How the [while (y > 0)] loop of the backtrace ends. *)
Inductive WalkEnd : Type :=
| Completed (w : Walk)       (* y == 0 *)
| Overflowed (w : Walk)      (* s < 0 || i < 0: return -1 *)
| Faulted                    (* out-of-bounds access or null buffer *)
| Exhausted.                 (* iteration budget of the model ran out *)

Section Aligner.

Variable band_size : nat.
Variable extract_oob : VectorType -> Z -> Z.

Abbreviation vectorise := (Simd.vectorise band_size).
Abbreviation vectorise_reverse := (Simd.vectorise_reverse band_size).
Abbreviation vectorise_zero_set_last := (Simd.vectorise_zero_set_last band_size).
Abbreviation _extract := (Simd._extract band_size extract_oob).

Definition B : Z := Z.of_nat band_size.

Definition _inf : VectorType := vectorise infinity.
Definition _nscore_m_inf : VectorType := vectorise (n_score - infinity).
Definition _n : VectorType := vectorise (char_to_int "N"%char).
Definition _three : VectorType := vectorise 3.

Definition vectorise_reverse_lshift (p : Penalty) (sh : Z) : VectorType :=
  match p with
  | PerPosition source => Simd.vectorise_reverse_lshift_ptr band_size source sh
  | Uniform source => Simd.vectorise_reverse_lshift_val band_size source sh
  end.

(** [update_gap_penalty<shift>]: the pointer overload shifts the window
    and loads [source[gap_idx] << shift] into the top lane; the scalar
    overload has an empty body. *)
Definition update_gap_penalty (shift : Z) (current : VectorType)
           (source : Penalty) (gap_idx : Z) : VectorType :=
  match source with
  | PerPosition p =>
      _insert (_right_shift score_bytes current)
              (Z.shiftl (int8_at p gap_idx) shift) (B - 1)
  | Uniform _ => current
  end.

(** The initial values of the working vectors (both overloads). *)
Definition init_band (truth : list ascii) (gap_open gap_extend : Penalty) : Band :=
  let _truthwin := vectorise_reverse truth in
  {| _m1 := _inf; _i1 := _inf; _d1 := _inf;
     _m2 := _inf; _i2 := _inf; _d2 := _inf;
     _initmask := vectorise_zero_set_last (-1);
     _initmask2 := vectorise_zero_set_last (- bitmask);
     _truthwin := _truthwin;
     _targetwin := _inf;
     _qualitieswin := vectorise (Z.shiftl max_n_quality trace_bits);
     _gap_open := vectorise_reverse_lshift gap_open trace_bits;
     _gap_extend := vectorise_reverse_lshift gap_extend trace_bits;
     _truthnqual := _add (_and (_cmpeq _truthwin _n) _nscore_m_inf) _inf |}.

Section Inputs.

Variables truth target : list ascii.
Variable qualities : list Z.
Variables gap_open gap_extend : Penalty.
Variable nuc_prior : Z.

Definition truth_len : Z := Z.of_nat (length truth).
Definition target_len : Z := Z.of_nat (length target).

Definition shape_ok : bool :=
  (truth_len >? B) && (truth_len =? target_len + 2 * B - 1).

Definition _nuc_prior : VectorType :=
  vectorise (Z.shiftl nuc_prior trace_bits).

(** *** The score-only overload *)

(** One iteration of the [for] loop, lines 107-147. *)
Definition score_step (s : Z) (st : Band * Z) : Band * Z :=
  let '(b, minscore) := st in
  (* truth is current; target needs updating *)
  let targetwin := _left_shift score_bytes (_targetwin b) in
  let qualitieswin := _left_shift score_bytes (_qualitieswin b) in
  let targetwin :=
    if s / 2 <? target_len
    then _insert targetwin (char_to_int (char_at target (s / 2))) 0
    else _insert targetwin (char_to_int "0"%char) 0 in
  let qualitieswin :=
    if s / 2 <? target_len
    then _insert qualitieswin (Z.shiftl (int8_at qualities (s / 2)) trace_bits) 0
    else _insert qualitieswin (Z.shiftl max_n_quality trace_bits) 0 in
  (* S even *)
  let m1 := _or (_initmask2 b) (_andnot (_initmask b) (_m1 b)) in
  let m2 := _or (_initmask2 b) (_andnot (_initmask b) (_m2 b)) in
  let m1 := _min m1 (_min (_i1 b) (_d1 b)) in
  let minscore :=
    if s / 2 >=? target_len
    then Z.min (_extract m1 (Z.max 0 (s / 2 - target_len))) minscore
    else minscore in
  let m1 := _add m1 (_min (_andnot (_cmpeq targetwin (_truthwin b)) qualitieswin)
                          (_truthnqual b)) in
  let d1 := _min (_add (_d2 b) (_gap_extend b))
                 (_add (_min m2 (_i2 b))
                       (_right_shift score_bytes (_gap_open b))) in
  let d1 := _insert (_left_shift score_bytes d1) infinity 0 in
  let i1 := _add (_min (_add (_i2 b) (_gap_extend b)) (_add m2 (_gap_open b)))
                 _nuc_prior in
  (* S odd *)
  (* truth needs updating; target is current *)
  let pos := B + s / 2 in
  let pos_in_range := pos <? truth_len in
  let base := if pos_in_range then char_at truth pos else "N"%char in
  let truthwin := _insert (_right_shift score_bytes (_truthwin b))
                          (char_to_int base) (B - 1) in
  let truthnqual := _insert (_right_shift score_bytes (_truthnqual b))
                            (if Ascii.eqb base "N"%char then n_score else infinity)
                            (B - 1) in
  let gap_idx := if pos_in_range then pos else truth_len - 1 in
  let gap_open_w := update_gap_penalty score_bytes (_gap_open b) gap_open gap_idx in
  let gap_extend_w := update_gap_penalty score_bytes (_gap_extend b) gap_extend gap_idx in
  let initmask := _left_shift score_bytes (_initmask b) in
  let initmask2 := _left_shift score_bytes (_initmask2 b) in
  let m2 := _min m2 (_min (_i2 b) (_d2 b)) in
  let minscore :=
    if s / 2 >=? target_len
    then Z.min (_extract m2 (s / 2 - target_len)) minscore
    else minscore in
  let m2 := _add m2 (_min (_andnot (_cmpeq targetwin truthwin) qualitieswin)
                          truthnqual) in
  let d2 := _min (_add d1 gap_extend_w) (_add (_min m1 i1) gap_open_w) in
  let i2 := _insert (_add (_min (_add (_right_shift score_bytes i1) gap_extend_w)
                                (_add (_right_shift score_bytes m1) gap_open_w))
                          _nuc_prior)
                    infinity (B - 1) in
  (mkBand m1 i1 d1 m2 i2 d2 initmask initmask2 truthwin targetwin
          qualitieswin gap_open_w gap_extend_w truthnqual,
   minscore).

(** [for (int s {0}; s <= 2 * (target_len + band_size); s += 2)]. *)
Fixpoint score_loop (n : nat) (s : Z) (st : Band * Z) : Band * Z :=
  match n with
  | O => st
  | S k => score_loop k (s + 2) (score_step s st)
  end.

Definition iterations : nat := Z.to_nat (target_len + B + 1).

Definition align_score : outcome Z :=
  if shape_ok then
    let '(_, minscore) :=
      score_loop iterations 0 (init_band truth gap_open gap_extend, infinity) in
    Returned (Z.shiftr (minscore + bitmask) trace_bits)
  else AssertionFailed.

(** *** The alignment overload *)

(** The state of its main loop: the working vectors, [minscore],
    [minscoreidx] and the back-pointer buffer. *)
Record Trace : Type := mkTrace {
  t_band : Band;
  t_minscore : Z;
  t_minscoreidx : Z;
  t_backpointers : list VectorType
}.

(** [SmallVector _backpointers(2 * (truth_len + band_size))]:
    value-initialised vectors. *)
Definition new_backpointers : list VectorType :=
  repeat (repeat 0 band_size) (Z.to_nat (2 * (truth_len + B))).

(** The vector written to [_backpointers[s]] from the state vectors. *)
Definition pack_backpointer (m i d : VectorType) : VectorType :=
  _or (_or (_and _three m)
           (_left_shift_words (2 * insert_label) (_and _three i)))
      (_left_shift_words (2 * delete_label) (_and _three d)).

(** The three lines under [// set state labels]. *)
Definition label_m (m : VectorType) : VectorType := _andnot _three m.
Definition label_i (i : VectorType) : VectorType :=
  _or (_andnot _three i) (_right_shift 1 _three).
Definition label_d (d : VectorType) : VectorType := _or (_andnot _three d) _three.

(** One iteration of the [for] loop, lines 182-242. *)
Definition align_step (s : Z) (st : Trace) : Trace :=
  let b := t_band st in
  let minscore := t_minscore st in
  let minscoreidx := t_minscoreidx st in
  let backpointers := t_backpointers st in
  (* truth is current; target needs updating *)
  let targetwin := _left_shift score_bytes (_targetwin b) in
  let qualitieswin := _left_shift score_bytes (_qualitieswin b) in
  let targetwin :=
    if s / 2 <? target_len
    then _insert targetwin (char_to_int (char_at target (s / 2))) 0
    else _insert targetwin (char_to_int "0"%char) 0 in
  let qualitieswin :=
    if s / 2 <? target_len
    then _insert qualitieswin (Z.shiftl (int8_at qualities (s / 2)) trace_bits) 0
    else _insert qualitieswin (Z.shiftl max_n_quality trace_bits) 0 in
  (* S even *)
  let m1 := _or (_initmask2 b) (_andnot (_initmask b) (_m1 b)) in
  let m2 := _or (_initmask2 b) (_andnot (_initmask b) (_m2 b)) in
  let m1 := _min m1 (_min (_i1 b) (_d1 b)) in
  let '(minscore, minscoreidx) :=
    if s / 2 >=? target_len then
      let cur_score := _extract m1 (s / 2 - target_len) in
      if cur_score <? minscore then (cur_score, s) else (minscore, minscoreidx)
    else (minscore, minscoreidx) in
  let m1 := _add m1 (_min (_andnot (_cmpeq targetwin (_truthwin b)) qualitieswin)
                          (_truthnqual b)) in
  let d1 := _min (_add (_d2 b) (_gap_extend b))
                 (_add (_min m2 (_i2 b))
                       (_right_shift score_bytes (_gap_open b))) in
  let d1 := _insert (_left_shift score_bytes d1) infinity 0 in
  let i1 := _add (_min (_add (_i2 b) (_gap_extend b)) (_add m2 (_gap_open b)))
                 _nuc_prior in
  let backpointers := update backpointers (Z.to_nat s) (pack_backpointer m1 i1 d1) in
  (* set state labels *)
  let m1 := label_m m1 in
  let i1 := label_i i1 in
  let d1 := label_d d1 in
  (* S odd *)
  (* truth needs updating; target is current *)
  let pos := B + s / 2 in
  let pos_in_range := pos <? truth_len in
  let base := if pos_in_range then char_at truth pos else "N"%char in
  let truthwin := _insert (_right_shift score_bytes (_truthwin b))
                          (char_to_int base) (B - 1) in
  let truthnqual := _insert (_right_shift score_bytes (_truthnqual b))
                            (if Ascii.eqb base "N"%char then n_score else infinity)
                            (B - 1) in
  let gap_idx := if pos_in_range then pos else truth_len - 1 in
  let gap_open_w := update_gap_penalty trace_bits (_gap_open b) gap_open gap_idx in
  let gap_extend_w := update_gap_penalty trace_bits (_gap_extend b) gap_extend gap_idx in
  let initmask := _left_shift score_bytes (_initmask b) in
  let initmask2 := _left_shift score_bytes (_initmask2 b) in
  let m2 := _min m2 (_min (_i2 b) (_d2 b)) in
  let '(minscore, minscoreidx) :=
    if s / 2 >=? target_len then
      let cur_score := _extract m2 (s / 2 - target_len) in
      if cur_score <? minscore then (cur_score, s + 1) else (minscore, minscoreidx)
    else (minscore, minscoreidx) in
  let m2 := _add m2 (_min (_andnot (_cmpeq targetwin truthwin) qualitieswin)
                          truthnqual) in
  let d2 := _min (_add d1 gap_extend_w) (_add (_min m1 i1) gap_open_w) in
  let i2 := _insert (_add (_min (_add (_right_shift score_bytes i1) gap_extend_w)
                                (_add (_right_shift score_bytes m1) gap_open_w))
                          _nuc_prior)
                    infinity (B - 1) in
  let backpointers := update backpointers (Z.to_nat (s + 1)) (pack_backpointer m2 i2 d2) in
  (* set state labels *)
  let m2 := label_m m2 in
  let i2 := label_i i2 in
  let d2 := label_d d2 in
  mkTrace (mkBand m1 i1 d1 m2 i2 d2 initmask initmask2 truthwin targetwin
                  qualitieswin gap_open_w gap_extend_w truthnqual)
          minscore minscoreidx backpointers.

Fixpoint align_loop (n : nat) (s : Z) (st : Trace) : Trace :=
  match n with
  | O => st
  | S k => align_loop k (s + 2) (align_step s st)
  end.

Definition init_trace : Trace :=
  mkTrace (init_band truth gap_open gap_extend) infinity (-1) new_backpointers.

(** *** The backtrace *)

(** [reinterpret_cast<short*>(_backpointers.data() + s)[i]]: the buffer
    read as one array of 16-bit words, vector after vector, lane 0 first. *)
Definition backpointer_at (backpointers : list VectorType) (s i : Z) : Z :=
  nth (Z.to_nat (s * B + i)) (concat backpointers) 0.

(** The body of [while (y > 0)] once the overflow test has passed. *)
Definition walk_body (backpointers : list VectorType) (w : Walk) : outcome Walk :=
  let new_state :=
    Z.land (Z.shiftr (backpointer_at backpointers (w_s w) (w_i w)) (2 * w_state w)) 3 in
  if w_state w =? match_label then
    let s := w_s w - 2 in
    let x := w_x w - 1 in
    let* c1 := load truth x in
    let* a1 := store (w_align1 w) (w_alnidx w) c1 in
    let y := w_y w - 1 in
    let* c2 := load target y in
    let* a2 := store (w_align2 w) (w_alnidx w) c2 in
    Returned (mkWalk s (w_i w) x y (w_alnidx w + 1) new_state a1 a2)
  else if w_state w =? insert_label then
    let i := w_i w + Z.land (w_s w) 1 in
    let s := w_s w - 1 in
    let* a1 := store (w_align1 w) (w_alnidx w) gap_label in
    let y := w_y w - 1 in
    let* c2 := load target y in
    let* a2 := store (w_align2 w) (w_alnidx w) c2 in
    Returned (mkWalk s i (w_x w) y (w_alnidx w + 1) new_state a1 a2)
  else
    let s := w_s w - 1 in
    let i := w_i w - Z.land s 1 in
    let x := w_x w - 1 in
    let* c1 := load truth x in
    let* a1 := store (w_align1 w) (w_alnidx w) c1 in
    let* a2 := store (w_align2 w) (w_alnidx w) gap_label in
    Returned (mkWalk s i x (w_y w) (w_alnidx w + 1) new_state a1 a2).

(** [while (y > 0) { if (s < 0 || i < 0) return -1; ... }]. *)
Fixpoint backtrace (fuel : nat) (backpointers : list VectorType) (w : Walk) : WalkEnd :=
  match fuel with
  | O => Exhausted
  | S fuel' =>
      if w_y w >? 0 then
        if (w_s w <? 0) || (w_i w <? 0) then Overflowed w
        else match walk_body backpointers w with
             | Returned w' => backtrace fuel' backpointers w'
             | _ => Faulted
             end
      else Completed w
  end.

(** The reversal [for (int j {alnidx - 1}, i = 0; i < j; ++i, j--)] of the
    two buffers, one guarded iteration per unit of [n]. *)
Fixpoint reverse_loop (n : nat) (i j : Z) (a1 a2 : list ascii) : list ascii * list ascii :=
  match n with
  | O => (a1, a2)
  | S k =>
      if i <? j then
        let x := char_at a1 i in
        let y := char_at a2 i in
        let a1 := update a1 (Z.to_nat i) (char_at a1 j) in
        let a2 := update a2 (Z.to_nat i) (char_at a2 j) in
        let a1 := update a1 (Z.to_nat j) x in
        let a2 := update a2 (Z.to_nat j) y in
        reverse_loop k (i + 1) (j - 1) a1 a2
      else (a1, a2)
  end.

(** The iteration budget given to the backtrace: [s] falls at every
    iteration and the loop is left once it is negative, so [s + 1] bodies
    and one last test of the loop condition are all that can run. *)
Definition walk_fuel (s : Z) : nat := S (Z.to_nat (s + 1)).

(** Lines 249-261: the variables of the backtrace as it starts, [s]
    pointing to the dummy match transition. *)
Definition start_walk (st : Trace) (align1 align2 : buffer) : Walk :=
  let s := t_minscoreidx st in
  let i := s / 2 - target_len in
  let y := target_len in
  let x := s - y in
  let alnidx := 0 in
  let state :=
    Z.land (Z.shiftr (backpointer_at (t_backpointers st) s i) (2 * match_label)) 3 in
  let s := s - 2 in
  mkWalk s i x y alnidx state align1 align2.

(** The test of lines 255-256 on [ptr + i], in units of 16-bit words from
    the start of the buffer. *)
Definition ptr_outside (st : Trace) : bool :=
  let s := t_minscoreidx st in
  let i := s / 2 - target_len in
  (s * B + i <? 0) || (s * B + i >=? Z.of_nat (length (t_backpointers st)) * B).

(** Lines 244-300: from the end of the main loop to the return. *)
Definition finish (st : Trace) (align1 align2 : buffer) : outcome Alignment :=
  if t_minscoreidx st <? 0 then
    (* minscore was never updated so we must have overflowed badly *)
    Returned (mkAlignment (-1) (-1) align1 align2)
  else if ptr_outside st then
    Returned (mkAlignment (-1) (-1) align1 align2)
  else
    let w0 := start_walk st align1 align2 in
    match backtrace (walk_fuel (w_s w0)) (t_backpointers st) w0 with
    | Overflowed w => Returned (mkAlignment (-1) (-1) (w_align1 w) (w_align2 w))
    | Faulted => Undefined
    | Exhausted => OutOfFuel
    | Completed w =>
        let* a1 := store (w_align1 w) (w_alnidx w) zero in
        let* a2 := store (w_align2 w) (w_alnidx w) zero in
        match a1, a2 with
        | Some l1, Some l2 =>
            let '(r1, r2) :=
              reverse_loop (Z.to_nat (w_alnidx w)) 0 (w_alnidx w - 1) l1 l2 in
            Returned (mkAlignment (Z.shiftr (t_minscore st + bitmask) trace_bits)
                                  (w_x w) (Some r1) (Some r2))
        | _, _ => Undefined
        end
    end.

Definition align (align1 align2 : buffer) : outcome Alignment :=
  if shape_ok then
    finish (align_loop iterations 0 init_trace) align1 align2
  else AssertionFailed.

End Inputs.

End Aligner.

End PairHMM.

Import Simd PairHMM.

(** ** What a caller observes, and the inputs of the examples *)

(** The alignment strings are the C strings the two buffers hold; a gap is
    the character [gap_label]. *)
Definition is_gap (c : ascii) : bool := Ascii.eqb c gap_label.
Definition strip_gaps (l : list ascii) : list ascii := filter (fun c => negb (is_gap c)) l.
Definition count_gaps (l : list ascii) : Z := Z.of_nat (length (filter is_gap l)).

(** [T[from .. from + len)]. *)
Definition substring (T : list ascii) (from : Z) (len : nat) : list ascii :=
  firstn len (skipn (Z.to_nat from) T).

(** A sequence of bases as the aligner expects it: no NUL (it is a C
    string) and no gap character. *)
Definition bases (l : list ascii) : Prop :=
  Forall (fun c => c <> zero /\ c <> gap_label) l.

(** What [align_helper] of the unit tests reads back from a call: the
    score, [first_pos] and the two C strings. *)
Definition observed (o : outcome Alignment)
  : outcome (Z * Z * option string * option string) :=
  match o with
  | Returned r =>
      Returned (score r, first_pos r,
                option_map (fun l => string_of_list_ascii (c_str l)) (align1 r),
                option_map (fun l => string_of_list_ascii (c_str l)) (align2 r))
  | AssertionFailed => AssertionFailed
  | Undefined => Undefined
  | OutOfFuel => OutOfFuel
  end.

(** The buffers [align_helper] passes: [2 * |T| + 1] NUL characters. *)
Definition fresh_buffer (truth : list ascii) : buffer :=
  Some (repeat zero (2 * length truth + 1)).

(** A backend whose [extract] answers a lane index outside the register
    with lane [k] of the same register. *)
Definition lane_oob (k : nat) : VectorType -> Z -> Z := fun v _ => lane v k.

(** The alignment overload as the unit tests call it on the 128-bit
    backend: per-position gap-open penalties, scalar gap-extend penalty. *)
Definition sse2_align (k : nat) (T Q : string) (q gO : list Z) (gE nP : Z)
  : outcome (Z * Z * option string * option string) :=
  let truth := list_ascii_of_string T in
  observed (align 8 (lane_oob k) truth (list_ascii_of_string Q) q
                  (PerPosition gO) (Uniform gE) nP
                  (fresh_buffer truth) (fresh_buffer truth)).

Definition sse2_align_score (k : nat) (T Q : string) (q gO : list Z) (gE nP : Z)
  : outcome Z :=
  align_score 8 (lane_oob k) (list_ascii_of_string T) (list_ascii_of_string Q) q
              (PerPosition gO) (Uniform gE) nP.

(** Test 3 of [sse2_check_alignments]. *)
Definition test3_gap_open : list Z := repeat 90 7 ++ [70] ++ repeat 90 11.

(** Test 5 of [sse2_check_alignments]. *)
Definition test5_gap_open : list Z := repeat 90 8 ++ [70] ++ repeat 90 21.

(** Test 3 as the alignment overload receives it, and what it hands back
    when the backend answers an out-of-range [extract] with lane 0. *)
Definition test3_truth : list ascii := list_ascii_of_string "ACGTACGAAGCTACGTACG".
Definition test3_target : list ascii := list_ascii_of_string "CGGC".
Definition test3_qualities : list Z := [40; 40; 40; 40].

Abbreviation test3_call :=
  (align 8 (lane_oob 0) test3_truth test3_target test3_qualities
         (PerPosition test3_gap_open) (Uniform 1) 4
         (fresh_buffer test3_truth) (fresh_buffer test3_truth)).

Definition test3_result : Alignment :=
  mkAlignment 71 5
              (Some (list_ascii_of_string "CGAAGC" ++ repeat zero 33))
              (Some (list_ascii_of_string "CG--GC" ++ repeat zero 33)).

(** An input on which the scores saturate: 128 mismatches at quality 127. *)
Definition saturating_truth : list ascii := repeat "C"%char 143.
Definition saturating_target : list ascii := repeat "A"%char 128.

Abbreviation saturating_call k :=
  (align 8 (lane_oob k) saturating_truth saturating_target (repeat 127 128)
         (PerPosition (repeat 127 143)) (Uniform 1) 127
         (fresh_buffer saturating_truth) (fresh_buffer saturating_truth)).

(** ** Global alignments within the band *)

(** The three states of the pair HMM. *)
Inductive State : Type := StM | StI | StD.

Section Alignments.

Variable band_size : nat.
Variables truth target : list ascii.
Variable qualities : list Z.
Variables gap_open gap_extend : Penalty.
Variable nuc_prior : Z.

(** [lead_gap]: whether an alignment may begin with a gap at an even truth
    offset.  The specification lets it ([true]); the recurrence of the code
    does not ([false]). *)
Variable lead_gap : bool.

(** What the band holds at truth position [x] and target position [y]: the
    sequences, and beyond their ends the base 'N', the sentinel '0' of
    quality [max_n_quality] and the penalty of the last truth position. *)
Definition truth_base (x : Z) : ascii :=
  if x <? truth_len truth then char_at truth x else "N"%char.

Definition target_base (y : Z) : ascii :=
  if y <? target_len target then char_at target y else "0"%char.

Definition quality_at (y : Z) : Z :=
  if y <? target_len target then int8_at qualities y else max_n_quality.

Definition penalty_at (p : Penalty) (x : Z) : Z :=
  match p with
  | PerPosition source =>
      int8_at source (if x <? truth_len truth then x else truth_len truth - 1)
  | Uniform source => source
  end.

(** The penalty of aligning target base [y] with truth base [x]: nothing
    when they are equal, else the base quality, capped at 2 ([n_score] in
    score units) when the truth base is 'N'. *)
Definition emission (x y : Z) : Z :=
  if char_to_int (target_base y) =? char_to_int (truth_base x) then 0
  else if char_to_int (truth_base x) =? char_to_int "N"%char
       then Z.min (quality_at y) 2
       else quality_at y.

(** A cell, the numbers [x] of truth bases and [y] of target bases consumed,
    is in the band when [x - y] is one of the [2 * B] offsets of the band. *)
Definition in_band (x y : Z) : Prop :=
  0 <= y /\ 0 <= x - y <= 2 * B band_size - 1.

(** An alignment may begin at any truth offset of the band and at no cost. *)
Definition begins_at (x : Z) : Prop := 0 <= x <= 2 * B band_size - 1.

(** A gap right at the beginning. *)
Definition may_lead_with_gap (x : Z) : Prop := lead_gap = true \/ Z.odd x = true.

(** [aligned st x y c]: some alignment of the first [y] target bases
    against the truth bases from its beginning to [x], all of whose cells are
    in the band, ends in state [st] with total penalty [c].  A match aligns
    two bases; an insertion consumes a target base and costs the gap penalty
    of the truth position before it plus [nuc_prior]; a deletion consumes a
    truth base and costs its gap penalty; a gap opens after a match (a
    deletion also after an insertion) and is extended otherwise. *)
Inductive aligned : State -> Z -> Z -> Z -> Prop :=
| begin_match (x : Z) :
    begins_at x -> in_band (x + 1) 1 ->
    aligned StM (x + 1) 1 (emission x 0)
| begin_insert (x : Z) :
    begins_at x -> may_lead_with_gap x -> in_band x 1 ->
    aligned StI x 1 (penalty_at gap_open (x - 1) + nuc_prior)
| begin_delete (x : Z) :
    begins_at x -> may_lead_with_gap x -> in_band (x + 1) 0 ->
    aligned StD (x + 1) 0 (penalty_at gap_open x)
| match_bases (st : State) (x y c : Z) :
    aligned st x y c -> in_band (x + 1) (y + 1) ->
    aligned StM (x + 1) (y + 1) (c + emission x y)
| insert_open (x y c : Z) :
    aligned StM x y c -> in_band x (y + 1) ->
    aligned StI x (y + 1) (c + penalty_at gap_open (x - 1) + nuc_prior)
| insert_extend (x y c : Z) :
    aligned StI x y c -> in_band x (y + 1) ->
    aligned StI x (y + 1) (c + penalty_at gap_extend (x - 1) + nuc_prior)
| delete_open (st : State) (x y c : Z) :
    aligned st x y c -> st <> StD -> in_band (x + 1) y ->
    aligned StD (x + 1) y (c + penalty_at gap_open x)
| delete_extend (x y c : Z) :
    aligned StD x y c -> in_band (x + 1) y ->
    aligned StD (x + 1) y (c + penalty_at gap_extend x).

(** The total penalties of the global alignments: the whole target is
    consumed, wherever in the truth the alignment ends.  (An empty target is
    aligned at no cost.) *)
Definition alignment_cost (c : Z) : Prop :=
  (target = [] /\ c = 0) \/ exists st x, aligned st x (target_len target) c.

End Alignments.

(** The score a lane at [infinity] reads as. *)
Definition score_ceiling : Z := Z.shiftr (infinity + bitmask) trace_bits.

(** A gap penalty given for [n] truth positions, every value of which is
    between [lo] and [hi]. *)
Definition penalty_within (n : nat) (p : Penalty) (lo hi : Z) : Prop :=
  match p with
  | PerPosition source => length source = n /\ Forall (fun v => lo <= v <= hi) source
  | Uniform source => lo <= source <= hi
  end.

(** * Notions the properties are stated with *)

(** The characters a buffer holds (none for a null pointer). *)
Definition contents (b : buffer) : list ascii :=
  match b with
  | Some l => l
  | None => []
  end.

(** What [_truthnqual] holds in a lane whose truth base is [t]. *)
Definition nqual_of (t : Z) : Z :=
  if t =? char_to_int "N"%char then n_score else infinity.

(** The two vectors have [band_size] lanes each and go together. *)
Definition truthnqual_ok (band_size : nat) (b : Band) : Prop :=
  length (_truthwin b) = band_size /\
  length (_truthnqual b) = band_size /\
  Forall is_int16 (_truthwin b) /\
  forall k, (k < band_size)%nat ->
            lane (_truthnqual b) k = nqual_of (lane (_truthwin b) k).

(** A lane holds a penalty [c] as [4 * c - 32768]: two trace bits below, the
    bias [bitmask] subtracted. *)
Definition enc (c : Z) : Z := 4 * c - bitmask.

(** [tracks v P]: the lane value [v] stands for the least element of the set
    [P] of penalties, as long as that is below [infinity]: no element of [P]
    is below [v] (or below [infinity] when [v] is above it), and a [v] below
    [infinity] is an element of [P]. *)
Definition tracks (v : Z) (P : Z -> Prop) : Prop :=
  (forall c, P c -> Z.min v infinity <= enc c) /\
  (v < infinity -> exists c, P c /\ v = enc c).

Section LoopNotions.

Variable band_size : nat.
Variable extract_oob : VectorType -> Z -> Z.
Variables truth target : list ascii.
Variable qualities : list Z.
Variables gap_open gap_extend : Penalty.
Variable nuc_prior : Z.

Abbreviation Q_len := (target_len target).

(** [minscoreidx] is -1 or the index of a half step of the exit column
    already gone through. *)
Definition idx_ok (s idx : Z) : Prop := idx = -1 \/ (2 * Q_len <= idx < s).

(** The state in which the main loop leaves the alignment overload. *)
Definition main_loop_end : Trace :=
  align_loop band_size extract_oob truth target qualities gap_open gap_extend nuc_prior
             (iterations band_size target) 0 (init_trace band_size truth gap_open gap_extend).

End LoopNotions.

Section WalkNotions.

Variables truth target : list ascii.

(** [x0] is the value of [x] when the backtrace starts. *)
Variable x0 : Z.

(** The characters written so far, in the order of writing, are [E1] (truth
    row) and [E2] (query row); read backwards and without their gaps they are
    the part of the target from [y] on and the part of the truth from [x] to
    [x0]. *)
Definition emitted (w : Walk) (E1 E2 : list ascii) : Prop :=
  w_alnidx w = Z.of_nat (length E1) /\
  length E2 = length E1 /\
  firstn (length E1) (contents (w_align1 w)) = E1 /\
  firstn (length E2) (contents (w_align2 w)) = E2 /\
  Forall (fun c => c <> zero) E1 /\
  Forall (fun c => c <> zero) E2 /\
  0 <= w_y w <= target_len target /\
  0 <= w_x w <= x0 /\
  strip_gaps (rev E2) = skipn (Z.to_nat (w_y w)) target /\
  strip_gaps (rev E1) = firstn (Z.to_nat (x0 - w_x w)) (skipn (Z.to_nat (w_x w)) truth) /\
  count_gaps E2 - count_gaps E1 = (x0 - w_x w) - (target_len target - w_y w).

End WalkNotions.

Section CellNotions.

Variable band_size : nat.
Variables truth target : list ascii.
Variable qualities : list Z.
Variables gap_open gap_extend : Penalty.
Variable nuc_prior : Z.
Variable lead_gap : bool.

Abbreviation path :=
  (aligned band_size truth target qualities gap_open gap_extend nuc_prior lead_gap).

(** The empty alignment at truth offset [x]. *)
Definition at_start (x y c : Z) : Prop := y = 0 /\ begins_at band_size x /\ c = 0.

(** All that ends in the cell [(x, y)]. *)
Definition any_end (x y c : Z) : Prop := at_start x y c \/ exists st, path st x y c.

(** What a gap may be opened after. *)
Definition gap_source (x y c : Z) : Prop :=
  path StM x y c \/ (at_start x y c /\ may_lead_with_gap lead_gap x).

End CellNotions.

Section IterationNotions.

Variable band_size : nat.
Variable extract_oob : VectorType -> Z -> Z.
Variables truth target : list ascii.
Variable qualities : list Z.
Variables gap_open gap_extend : Penalty.
Variable nuc_prior : Z.

Abbreviation W := (B band_size).
Abbreviation T_len := (truth_len truth).
Abbreviation Q_len := (target_len target).
Abbreviation NP := (_nuc_prior band_size nuc_prior).

(** The vectors one iteration of the score-only loop (lines 107-147)
    computes, by name; [t] is [s / 2], and [score_step (2 * t) (b, minscore)]
    is [(band' t b, minscore' t b minscore)]. *)
Definition targetwin' (t : Z) (b : Band) : VectorType :=
  if t <? Q_len
  then _insert (_left_shift score_bytes (_targetwin b)) (char_to_int (char_at target t)) 0
  else _insert (_left_shift score_bytes (_targetwin b)) (char_to_int "0"%char) 0.

Definition qualitieswin' (t : Z) (b : Band) : VectorType :=
  if t <? Q_len
  then _insert (_left_shift score_bytes (_qualitieswin b))
               (Z.shiftl (int8_at qualities t) trace_bits) 0
  else _insert (_left_shift score_bytes (_qualitieswin b))
               (Z.shiftl max_n_quality trace_bits) 0.

Definition m1_patched (b : Band) : VectorType :=
  _or (_initmask2 b) (_andnot (_initmask b) (_m1 b)).

Definition m2_patched (b : Band) : VectorType :=
  _or (_initmask2 b) (_andnot (_initmask b) (_m2 b)).

Definition best1 (b : Band) : VectorType :=
  _min (m1_patched b) (_min (_i1 b) (_d1 b)).

Definition best2 (b : Band) : VectorType :=
  _min (m2_patched b) (_min (_i2 b) (_d2 b)).

Definition m1' (t : Z) (b : Band) : VectorType :=
  _add (best1 b)
       (_min (_andnot (_cmpeq (targetwin' t b) (_truthwin b)) (qualitieswin' t b))
             (_truthnqual b)).

Definition d1_unshifted (b : Band) : VectorType :=
  _min (_add (_d2 b) (_gap_extend b))
       (_add (_min (m2_patched b) (_i2 b)) (_right_shift score_bytes (_gap_open b))).

Definition d1' (b : Band) : VectorType :=
  _insert (_left_shift score_bytes (d1_unshifted b)) infinity 0.

Definition i1' (b : Band) : VectorType :=
  _add (_min (_add (_i2 b) (_gap_extend b)) (_add (m2_patched b) (_gap_open b))) NP.

Definition next_base (t : Z) : ascii :=
  if W + t <? T_len then char_at truth (W + t) else "N"%char.

Definition truthwin' (t : Z) (b : Band) : VectorType :=
  _insert (_right_shift score_bytes (_truthwin b)) (char_to_int (next_base t)) (W - 1).

Definition truthnqual' (t : Z) (b : Band) : VectorType :=
  _insert (_right_shift score_bytes (_truthnqual b))
          (if Ascii.eqb (next_base t) "N"%char then n_score else infinity) (W - 1).

Definition gap_idx (t : Z) : Z := if W + t <? T_len then W + t else T_len - 1.

Definition gap_open' (t : Z) (b : Band) : VectorType :=
  update_gap_penalty band_size score_bytes (_gap_open b) gap_open (gap_idx t).

Definition gap_extend' (t : Z) (b : Band) : VectorType :=
  update_gap_penalty band_size score_bytes (_gap_extend b) gap_extend (gap_idx t).

Definition m2' (t : Z) (b : Band) : VectorType :=
  _add (best2 b)
       (_min (_andnot (_cmpeq (targetwin' t b) (truthwin' t b)) (qualitieswin' t b))
             (truthnqual' t b)).

Definition d2' (t : Z) (b : Band) : VectorType :=
  _min (_add (d1' b) (gap_extend' t b)) (_add (_min (m1' t b) (i1' b)) (gap_open' t b)).

Definition i2' (t : Z) (b : Band) : VectorType :=
  _insert (_add (_min (_add (_right_shift score_bytes (i1' b)) (gap_extend' t b))
                      (_add (_right_shift score_bytes (m1' t b)) (gap_open' t b)))
                NP)
          infinity (W - 1).

Definition band' (t : Z) (b : Band) : Band :=
  mkBand (m1' t b) (i1' b) (d1' b) (m2' t b) (i2' t b) (d2' t b)
         (_left_shift score_bytes (_initmask b)) (_left_shift score_bytes (_initmask2 b))
         (truthwin' t b) (targetwin' t b) (qualitieswin' t b)
         (gap_open' t b) (gap_extend' t b) (truthnqual' t b).

Definition minscore' (t : Z) (b : Band) (minscore : Z) : Z :=
  let after_even :=
    if t >=? Q_len
    then Z.min (_extract band_size extract_oob (best1 b) (Z.max 0 (t - Q_len))) minscore
    else minscore in
  if t >=? Q_len
  then Z.min (_extract band_size extract_oob (best2 b) (t - Q_len)) after_even
  else after_even.

(** The greatest base quality [Qm], the greatest gap-open penalty [Gm] and
    the gap-extension penalty [g]. *)
Variables Qm Gm g : Z.

Abbreviation path := (aligned band_size truth target qualities gap_open gap_extend nuc_prior false).
Abbreviation ends := (any_end band_size truth target qualities gap_open gap_extend nuc_prior false).
Abbreviation gO := (penalty_at truth gap_open).
Abbreviation gE := (penalty_at truth gap_extend).
Abbreviation Em := (Z.max Qm max_n_quality).

(** At the start of iteration [t] (where [s = 2 * t]) the windows hold:
    lane [k] of the truth-side windows is about truth position [t + k],
    lane [k] of the target-side windows about target position [t - 1 - k],
    and the patch mask is set in lane [t]. *)
Record windows_inv (t : Z) (b : Band) : Prop := {
  len_m1 : length (_m1 b) = band_size;
  len_i1 : length (_i1 b) = band_size;
  len_d1 : length (_d1 b) = band_size;
  len_m2 : length (_m2 b) = band_size;
  len_i2 : length (_i2 b) = band_size;
  len_d2 : length (_d2 b) = band_size;
  len_initmask : length (_initmask b) = band_size;
  len_initmask2 : length (_initmask2 b) = band_size;
  len_truthwin : length (_truthwin b) = band_size;
  len_targetwin : length (_targetwin b) = band_size;
  len_qualitieswin : length (_qualitieswin b) = band_size;
  len_gap_open : length (_gap_open b) = band_size;
  len_gap_extend : length (_gap_extend b) = band_size;
  len_truthnqual : length (_truthnqual b) = band_size;
  win_truth : forall k, (k < band_size)%nat ->
    lane (_truthwin b) k = char_to_int (truth_base truth (t + Z.of_nat k));
  win_nqual : forall k, (k < band_size)%nat ->
    lane (_truthnqual b) k = nqual_of (lane (_truthwin b) k);
  win_target16 : forall k, (k < band_size)%nat -> is_int16 (lane (_targetwin b) k);
  win_qual_range : forall k, (k < band_size)%nat ->
    0 <= lane (_qualitieswin b) k <= 4 * Em;
  win_target : forall k, (k < band_size)%nat -> Z.of_nat k < t ->
    lane (_targetwin b) k = char_to_int (target_base target (t - 1 - Z.of_nat k));
  win_qual : forall k, (k < band_size)%nat -> Z.of_nat k < t ->
    lane (_qualitieswin b) k = 4 * quality_at target qualities (t - 1 - Z.of_nat k);
  win_open : forall k, (k < band_size)%nat ->
    lane (_gap_open b) k = 4 * gO (t + Z.of_nat k);
  win_extend : forall k, (k < band_size)%nat ->
    lane (_gap_extend b) k = 4 * gE (t + Z.of_nat k);
  win_mask : forall k, (k < band_size)%nat ->
    lane (_initmask b) k = if Z.of_nat k =? t then -1 else 0;
  win_mask2 : forall k, (k < band_size)%nat ->
    lane (_initmask2 b) k = if Z.of_nat k =? t then - bitmask else 0
}.

(** Lane [k] of [_m1], [_i1], [_d1] stands for the alignments that end in
    the cell [(t + k, t - k)] (truth bases consumed, target bases consumed)
    in state M, I, D; lane [k] of [_m2], [_i2], [_d2] for those that end in
    [(t + k + 1, t - k)]. *)
Record cells_inv (t : Z) (b : Band) : Prop := {
  cell_m1 : forall k, (k < band_size)%nat ->
    tracks (lane (_m1 b) k) (path StM (t + Z.of_nat k) (t - Z.of_nat k));
  cell_i1 : forall k, (k < band_size)%nat ->
    tracks (lane (_i1 b) k) (path StI (t + Z.of_nat k) (t - Z.of_nat k));
  cell_d1 : forall k, (k < band_size)%nat ->
    tracks (lane (_d1 b) k) (path StD (t + Z.of_nat k) (t - Z.of_nat k));
  cell_m2 : forall k, (k < band_size)%nat ->
    tracks (lane (_m2 b) k) (path StM (t + Z.of_nat k + 1) (t - Z.of_nat k));
  cell_i2 : forall k, (k < band_size)%nat ->
    tracks (lane (_i2 b) k) (path StI (t + Z.of_nat k + 1) (t - Z.of_nat k));
  cell_d2 : forall k, (k < band_size)%nat ->
    tracks (lane (_d2 b) k) (path StD (t + Z.of_nat k + 1) (t - Z.of_nat k));
  room_m1 : forall k, (k < band_size)%nat ->
    - bitmask <= lane (_m1 b) k <= infinity + (2 * Z.of_nat k) * (4 * g) + 4 * Em;
  room_i1 : forall k, (k < band_size)%nat ->
    - bitmask <= lane (_i1 b) k <=
    infinity + (2 * Z.of_nat k + 1) * (4 * g) + 4 * Em + 4 * Gm + 4 * nuc_prior;
  room_d1 : forall k, (k < band_size)%nat ->
    - bitmask <= lane (_d1 b) k <= infinity + (2 * Z.of_nat k) * (4 * g);
  room_m2 : forall k, (k < band_size)%nat ->
    - bitmask <= lane (_m2 b) k <= infinity + (2 * Z.of_nat k + 1) * (4 * g) + 4 * Em;
  room_i2 : forall k, (k < band_size)%nat ->
    - bitmask <= lane (_i2 b) k <=
    infinity + (2 * Z.of_nat k + 2) * (4 * g) + 4 * Em + 4 * Gm + 4 * nuc_prior;
  room_d2 : forall k, (k < band_size)%nat ->
    - bitmask <= lane (_d2 b) k <= infinity + (2 * Z.of_nat k + 1) * (4 * g)
}.

(** [minscore] stands for the alignments of the whole target that end
    on an anti-diagonal before [2 * t]. *)
Definition exits_before (t : Z) (c : Z) : Prop :=
  exists x, ends x Q_len c /\ x + Q_len < 2 * t.

Definition minscore_inv (t : Z) (minscore : Z) : Prop :=
  tracks minscore (exits_before t) /\ - bitmask <= minscore <= infinity.

End IterationNotions.

(** The fields are used with the record alone: its parameters are implicit. *)
Arguments len_m1 {_ _ _ _ _ _ _ _ _}.
Arguments len_i1 {_ _ _ _ _ _ _ _ _}.
Arguments len_d1 {_ _ _ _ _ _ _ _ _}.
Arguments len_m2 {_ _ _ _ _ _ _ _ _}.
Arguments len_i2 {_ _ _ _ _ _ _ _ _}.
Arguments len_d2 {_ _ _ _ _ _ _ _ _}.
Arguments len_initmask {_ _ _ _ _ _ _ _ _}.
Arguments len_initmask2 {_ _ _ _ _ _ _ _ _}.
Arguments len_truthwin {_ _ _ _ _ _ _ _ _}.
Arguments len_targetwin {_ _ _ _ _ _ _ _ _}.
Arguments len_qualitieswin {_ _ _ _ _ _ _ _ _}.
Arguments len_gap_open {_ _ _ _ _ _ _ _ _}.
Arguments len_gap_extend {_ _ _ _ _ _ _ _ _}.
Arguments len_truthnqual {_ _ _ _ _ _ _ _ _}.
Arguments win_truth {_ _ _ _ _ _ _ _ _}.
Arguments win_nqual {_ _ _ _ _ _ _ _ _}.
Arguments win_target16 {_ _ _ _ _ _ _ _ _}.
Arguments win_qual_range {_ _ _ _ _ _ _ _ _}.
Arguments win_target {_ _ _ _ _ _ _ _ _}.
Arguments win_qual {_ _ _ _ _ _ _ _ _}.
Arguments win_open {_ _ _ _ _ _ _ _ _}.
Arguments win_extend {_ _ _ _ _ _ _ _ _}.
Arguments win_mask {_ _ _ _ _ _ _ _ _}.
Arguments win_mask2 {_ _ _ _ _ _ _ _ _}.
Arguments cell_m1 {_ _ _ _ _ _ _ _ _ _ _ _}.
Arguments cell_i1 {_ _ _ _ _ _ _ _ _ _ _ _}.
Arguments cell_d1 {_ _ _ _ _ _ _ _ _ _ _ _}.
Arguments cell_m2 {_ _ _ _ _ _ _ _ _ _ _ _}.
Arguments cell_i2 {_ _ _ _ _ _ _ _ _ _ _ _}.
Arguments cell_d2 {_ _ _ _ _ _ _ _ _ _ _ _}.
Arguments room_m1 {_ _ _ _ _ _ _ _ _ _ _ _}.
Arguments room_i1 {_ _ _ _ _ _ _ _ _ _ _ _}.
Arguments room_d1 {_ _ _ _ _ _ _ _ _ _ _ _}.
Arguments room_m2 {_ _ _ _ _ _ _ _ _ _ _ _}.
Arguments room_i2 {_ _ _ _ _ _ _ _ _ _ _ _}.
Arguments room_d2 {_ _ _ _ _ _ _ _ _ _ _ _}.

(** * Notions of the further properties *)

(** Every lane of the six state vectors and of the two masks is a 16-bit
    value. *)
Definition dp_int16 (b : Band) : Prop :=
  Forall is_int16 (_m1 b) /\ Forall is_int16 (_i1 b) /\ Forall is_int16 (_d1 b) /\
  Forall is_int16 (_m2 b) /\ Forall is_int16 (_i2 b) /\ Forall is_int16 (_d2 b) /\
  Forall is_int16 (_initmask b) /\ Forall is_int16 (_initmask2 b).

(** [minscore] as the main loops keep it. *)
Definition minscore_range (minscore : Z) : Prop := - bitmask <= minscore <= infinity.

(** The main loop of the alignment overload keeps the lanes and [minscore]
    in range, and [minscore] below [infinity] once [minscoreidx] is set. *)
Definition trace_ok (st : Trace) : Prop :=
  dp_int16 (t_band st) /\ minscore_range (t_minscore st) /\
  (0 <= t_minscoreidx st -> t_minscore st < infinity).

(** The number of characters a buffer has room for (none behind a null
    pointer). *)
Definition capacity (b : buffer) : Z :=
  match b with
  | Some l => Z.of_nat (length l)
  | None => 0
  end.

(** What the backtrace keeps true of its variables; [x0] is the value of [x]
    when it starts.  [s] is the anti-diagonal of the cell before [(x, y)],
    [i] its lane. *)
Definition walk_inv (target : list ascii) (x0 : Z) (w : Walk) : Prop :=
  w_s w = w_x w + w_y w - 2 /\
  w_x w - w_y w = 2 * w_i w + Z.land (w_s w) 1 /\
  0 <= w_y w <= target_len target /\
  0 <= w_x w <= x0 /\
  0 <= w_alnidx w /\
  w_alnidx w + w_x w + w_y w <= x0 + target_len target.


(** Penalties the 16-bit lanes have room for: base qualities between 0 and
    [Qm], one for each target base; gap-open penalties between 0 and [Gm];
    the gap-extension penalty [g] at every truth position; and
    [4 * ((2 B + 1) g + max(Qm, 64) + Gm + nuc_prior) <= 2047]. *)
Definition penalties_fit (band_size : nat) (truth target : list ascii)
           (qualities : list Z) (gap_open gap_extend : Penalty)
           (nuc_prior Qm Gm g : Z) : Prop :=
  length qualities = length target /\
  Forall (fun q => 0 <= q <= Qm) qualities /\
  penalty_within (length truth) gap_open 0 Gm /\
  penalty_within (length truth) gap_extend g g /\
  0 <= g /\ 0 <= nuc_prior /\
  4 * ((2 * B band_size + 1) * g + Z.max Qm max_n_quality + Gm + nuc_prior) <= 2047.

(** The penalty of aligning the first [n] target bases with the truth bases
    from offset [p] on, without a gap. *)
Fixpoint ungapped_penalty (truth target : list ascii) (qualities : list Z)
         (p : Z) (n : nat) : Z :=
  match n with
  | O => 0
  | S k => ungapped_penalty truth target qualities p k
           + emission truth target qualities (p + Z.of_nat k) (Z.of_nat k)
  end.

(** The target is read in the truth from offset [p] on. *)
Definition occurs_at (truth target : list ascii) (p : Z) : Prop :=
  substring truth p (length target) = target.

(** A window of the band: a register of [band_size] 16-bit lanes that holds
    [f k] in each lane [k] for which [valid k]. *)
Definition window (band_size : nat) (v : VectorType) (valid : nat -> Prop)
           (f : nat -> Z) : Prop :=
  length v = band_size /\ Forall is_int16 v /\
  forall k, (k < band_size)%nat -> valid k -> lane v k = f k.

Section WindowNotions.

Variable band_size : nat.
Variables truth target : list ascii.
Variable qualities : list Z.
Variables gap_open gap_extend : Penalty.

(** The windows at the start of iteration [t] of a main loop ([s = 2 t]):
    lane [k] is about truth position [t + k] (the base, or 'N' past the end;
    the gap penalties, those of the last position past the end) and about
    target position [t - 1 - k] (the base and four times its quality, or '0'
    and 256 past the end), and the masks are set in lane [t]. *)
Definition windows_at (t : Z) (b : Band) : Prop :=
  window band_size (_truthwin b) (fun _ => True)
         (fun k => char_to_int (truth_base truth (t + Z.of_nat k))) /\
  window band_size (_targetwin b) (fun k => Z.of_nat k < t)
         (fun k => char_to_int (target_base target (t - 1 - Z.of_nat k))) /\
  window band_size (_qualitieswin b) (fun k => Z.of_nat k < t)
         (fun k => 4 * quality_at target qualities (t - 1 - Z.of_nat k)) /\
  window band_size (_initmask b) (fun _ => True)
         (fun k => if Z.of_nat k =? t then -1 else 0) /\
  window band_size (_initmask2 b) (fun _ => True)
         (fun k => if Z.of_nat k =? t then - bitmask else 0).

Definition gap_windows_at (t : Z) (b : Band) : Prop :=
  window band_size (_gap_open b) (fun _ => True)
         (fun k => 4 * penalty_at truth gap_open (t + Z.of_nat k)) /\
  window band_size (_gap_extend b) (fun _ => True)
         (fun k => 4 * penalty_at truth gap_extend (t + Z.of_nat k)).

End WindowNotions.

(** * Properties *)

(** ** Lists, buffers and C strings *)

Lemma bind_returned {A C : Type} (m : outcome A) (k : A -> outcome C) (c : C) :
  bind m k = Returned c -> exists a, m = Returned a /\ k a = Returned c.
Proof.
  destruct m as [a| | |]; simpl; intros H; try discriminate.
  exists a; split; [reflexivity | exact H].
Qed.

(** Splits an equation [(let* x := m in k) = Returned c] found among the
    hypotheses. *)
Ltac bind_inv H :=
  let a := fresh "a" in
  let Ha := fresh "Hld" in
  apply bind_returned in H; destruct H as [a [Ha H]].

Lemma update_length {A : Type} (l : list A) (k : nat) (a : A) :
  length (update l k a) = length l.
Proof.
  revert k; induction l as [|b l IH]; intros [|k]; simpl; auto.
Qed.

Lemma update_app {A : Type} (pre : list A) (b : A) (post : list A) (a : A) :
  update (pre ++ b :: post) (length pre) a = pre ++ a :: post.
Proof.
  induction pre as [|p pre IH]; simpl; [reflexivity | rewrite IH; reflexivity].
Qed.

Lemma nth_middle_app {A : Type} (pre : list A) (b : A) (post : list A) (d : A) :
  nth (length pre) (pre ++ b :: post) d = b.
Proof.
  induction pre as [|p pre IH]; simpl; [reflexivity | exact IH].
Qed.

Lemma firstn_update_snoc {A : Type} (l : list A) (n : nat) (a : A) :
  (n < length l)%nat -> firstn (S n) (update l n a) = firstn n l ++ [a].
Proof.
  revert n; induction l as [|b l IH]; intros n Hn; simpl in Hn; [lia|].
  destruct n as [|n]; simpl; [reflexivity|].
  f_equal. apply IH. lia.
Qed.

Lemma firstn_update_same {A : Type} (l : list A) (n : nat) (a : A) :
  firstn n (update l n a) = firstn n l.
Proof.
  revert n; induction l as [|b l IH]; intros [|n]; simpl; try reflexivity.
  f_equal. apply IH.
Qed.

Lemma skipn_update {A : Type} (l : list A) (n : nat) (a : A) :
  (n < length l)%nat -> skipn n (update l n a) = a :: skipn (S n) l.
Proof.
  revert n; induction l as [|b l IH]; intros n Hn; simpl in Hn; [lia|].
  destruct n as [|n]; simpl; [reflexivity|].
  apply IH. lia.
Qed.

Lemma skipn_nth_error {A : Type} (l : list A) (k : nat) (c : A) :
  nth_error l k = Some c -> skipn k l = c :: skipn (S k) l.
Proof.
  revert k; induction l as [|b l IH]; intros [|k] H; simpl in *; try discriminate.
  - injection H as ->. reflexivity.
  - apply IH. exact H.
Qed.

Lemma firstn_length_firstn {A : Type} (n : nat) (l : list A) :
  firstn (length (firstn n l)) l = firstn n l.
Proof.
  revert l; induction n as [|n IH]; intros [|b l]; simpl; try reflexivity.
  f_equal. apply IH.
Qed.

Lemma two_ends {A : Type} (l : list A) :
  (2 <= length l)%nat -> exists x m y, l = x :: m ++ [y].
Proof.
  intros H. destruct l as [|x l]; [simpl in H; lia|].
  destruct (exists_last (l := l)) as [m [y ->]].
  - intros ->. simpl in H. lia.
  - exists x, m, y. reflexivity.
Qed.

Lemma c_str_app (a b : list ascii) :
  Forall (fun c => c <> zero) a -> c_str (a ++ zero :: b) = a.
Proof.
  induction 1 as [|c a Hc _ IH]; simpl; [reflexivity|].
  destruct (Ascii.eqb c zero) eqn:E.
  - apply Ascii.eqb_eq in E. contradiction.
  - rewrite IH. reflexivity.
Qed.

Lemma strip_gaps_app (a b : list ascii) :
  strip_gaps (a ++ b) = strip_gaps a ++ strip_gaps b.
Proof. apply filter_app. Qed.

Lemma count_gaps_app (a b : list ascii) :
  count_gaps (a ++ b) = count_gaps a + count_gaps b.
Proof.
  unfold count_gaps. rewrite filter_app, length_app. lia.
Qed.

Lemma count_gaps_rev (a : list ascii) : count_gaps (rev a) = count_gaps a.
Proof.
  induction a as [|c a IH]; [reflexivity|].
  simpl rev. rewrite count_gaps_app, IH.
  change (c :: a) with ([c] ++ a). rewrite count_gaps_app. lia.
Qed.

Lemma is_gap_false (c : ascii) : c <> gap_label -> is_gap c = false.
Proof.
  intros H. unfold is_gap. apply Ascii.eqb_neq. exact H.
Qed.

(** The reversal loop turns the stretch [i .. j] of both buffers around. *)
Lemma reverse_loop_spec (n : nat) :
  forall (pre1 mid1 post1 pre2 mid2 post2 : list ascii) (i j : Z),
    length pre2 = length pre1 -> length mid2 = length mid1 ->
    i = Z.of_nat (length pre1) ->
    j = i + Z.of_nat (length mid1) - 1 ->
    (length mid1 <= 2 * n)%nat ->
    reverse_loop n i j (pre1 ++ mid1 ++ post1) (pre2 ++ mid2 ++ post2)
    = (pre1 ++ rev mid1 ++ post1, pre2 ++ rev mid2 ++ post2).
Proof.
  induction n as [|n IH]; intros pre1 mid1 post1 pre2 mid2 post2 i j Hp Hm Hi Hj Hn.
  - destruct mid1; [|simpl in Hn; lia]. destruct mid2; [|discriminate]. reflexivity.
  - cbn [reverse_loop].
    destruct (i <? j) eqn:Hlt.
    + apply Z.ltb_lt in Hlt.
      destruct (two_ends mid1) as [x1 [m1 [y1 ->]]]; [lia|].
      destruct (two_ends mid2) as [x2 [m2 [y2 ->]]]; [lia|].
      assert (length (x1 :: m1 ++ [y1]) = S (S (length m1))) as Hl1
          by (simpl; rewrite length_app; simpl; lia).
      assert (length (x2 :: m2 ++ [y2]) = S (S (length m2))) as Hl2
          by (simpl; rewrite length_app; simpl; lia).
      rewrite Hl1 in Hm, Hj, Hn. rewrite Hl2 in Hm.
      assert (length m2 = length m1) as Hm' by lia.
      assert (Z.to_nat i = length pre1) as Ei by lia.
      assert (Z.to_nat i = length pre2) as Ei2 by lia.
      assert (Z.to_nat j = length (pre1 ++ x1 :: m1)) as Ej
          by (rewrite length_app, length_cons; lia).
      assert (Z.to_nat j = length (pre2 ++ x2 :: m2)) as Ej2
          by (rewrite length_app, length_cons; lia).
      unfold char_at.
      rewrite Ei at 1 2. rewrite Ei2 at 1 2.
      replace (pre1 ++ (x1 :: m1 ++ [y1]) ++ post1)
        with (pre1 ++ x1 :: (m1 ++ y1 :: post1))
        by (simpl; rewrite <- app_assoc; reflexivity).
      replace (pre2 ++ (x2 :: m2 ++ [y2]) ++ post2)
        with (pre2 ++ x2 :: (m2 ++ y2 :: post2))
        by (simpl; rewrite <- app_assoc; reflexivity).
      rewrite !nth_middle_app, !update_app.
      replace (nth (Z.to_nat j) (pre1 ++ x1 :: m1 ++ y1 :: post1) zero) with y1.
      2:{ rewrite Ej. change (pre1 ++ x1 :: m1 ++ y1 :: post1)
            with (pre1 ++ (x1 :: m1) ++ y1 :: post1).
          rewrite app_assoc, nth_middle_app. reflexivity. }
      replace (nth (Z.to_nat j) (pre2 ++ x2 :: m2 ++ y2 :: post2) zero) with y2.
      2:{ rewrite Ej2. change (pre2 ++ x2 :: m2 ++ y2 :: post2)
            with (pre2 ++ (x2 :: m2) ++ y2 :: post2).
          rewrite app_assoc, nth_middle_app. reflexivity. }
      replace (update (pre1 ++ y1 :: m1 ++ y1 :: post1) (Z.to_nat j) x1)
        with ((pre1 ++ [y1]) ++ m1 ++ (x1 :: post1)).
      2:{ rewrite Ej.
          replace (length (pre1 ++ x1 :: m1)) with (length (pre1 ++ y1 :: m1))
            by (rewrite !length_app; reflexivity).
          change (pre1 ++ y1 :: m1 ++ y1 :: post1)
            with (pre1 ++ (y1 :: m1) ++ y1 :: post1).
          rewrite (app_assoc pre1 (y1 :: m1)), update_app.
          rewrite <- !app_assoc. reflexivity. }
      replace (update (pre2 ++ y2 :: m2 ++ y2 :: post2) (Z.to_nat j) x2)
        with ((pre2 ++ [y2]) ++ m2 ++ (x2 :: post2)).
      2:{ rewrite Ej2.
          replace (length (pre2 ++ x2 :: m2)) with (length (pre2 ++ y2 :: m2))
            by (rewrite !length_app; reflexivity).
          change (pre2 ++ y2 :: m2 ++ y2 :: post2)
            with (pre2 ++ (y2 :: m2) ++ y2 :: post2).
          rewrite (app_assoc pre2 (y2 :: m2)), update_app.
          rewrite <- !app_assoc. reflexivity. }
      rewrite (IH (pre1 ++ [y1]) m1 (x1 :: post1) (pre2 ++ [y2]) m2 (x2 :: post2));
        try (rewrite ?length_app; cbn [length]; lia).
      simpl rev. rewrite !rev_app_distr. simpl.
      rewrite <- !app_assoc. reflexivity.
    + apply Z.ltb_ge in Hlt.
      assert (length mid1 <= 1)%nat as H1 by lia.
      destruct mid1 as [|x1 [|? ?]]; [| |simpl in H1; lia];
        destruct mid2 as [|x2 [|? ?]]; try discriminate; reflexivity.
Qed.

(** ** Termination of the backtrace *)

Section Backtrace.

Variable band_size : nat.
Variables truth target : list ascii.
Variable backpointers : list VectorType.

Abbreviation body := (walk_body band_size truth target backpointers).
Abbreviation walk := (fun fuel => backtrace band_size truth target fuel backpointers).

(** What one iteration does to [s], [x], [y] and [alnidx]. *)
Lemma walk_body_counters (w w' : Walk) :
  body w = Returned w' ->
  w_s w' = w_s w - (if w_state w =? match_label then 2 else 1) /\
  w_alnidx w' = w_alnidx w + 1 /\
  w_x w' + w_y w' - w_s w' = w_x w + w_y w - w_s w.
Proof.
  unfold walk_body; intros H.
  destruct (w_state w =? match_label).
  - do 4 bind_inv H. injection H as <-; simpl. lia.
  - destruct (w_state w =? insert_label).
    + do 3 bind_inv H. injection H as <-; simpl. lia.
    + do 3 bind_inv H. injection H as <-; simpl. lia.
Qed.

Lemma backtrace_enough_fuel (fuel : nat) :
  forall w, (walk_fuel (w_s w) <= fuel)%nat -> walk fuel w <> Exhausted.
Proof.
  induction fuel as [|fuel IH]; intros w Hfuel.
  - unfold walk_fuel in Hfuel; lia.
  - simpl.
    destruct (w_y w >? 0); [|discriminate].
    destruct ((w_s w <? 0) || (w_i w <? 0)) eqn:Hguard; [discriminate|].
    destruct (body w) as [w'| | |] eqn:Hbody; try discriminate.
    apply IH.
    apply walk_body_counters in Hbody. destruct Hbody as [Hs _].
    apply orb_false_iff in Hguard. destruct Hguard as [Hs0 _].
    apply Z.ltb_ge in Hs0.
    unfold walk_fuel in *.
    destruct (w_state w =? match_label); lia.
Qed.

End Backtrace.

Lemma finish_not_out_of_fuel (band_size : nat) (truth target : list ascii)
      (st : Trace) (align1 align2 : buffer) :
  finish band_size truth target st align1 align2 <> OutOfFuel.
Proof.
  unfold finish.
  destruct (t_minscoreidx st <? 0); [discriminate|].
  destruct (ptr_outside band_size target st); [discriminate|].
  match goal with |- context [backtrace ?b ?t ?q ?f ?bp ?w] =>
    pose proof (backtrace_enough_fuel b t q bp f w) as Hfuel;
    destruct (backtrace b t q f bp w) as [w'|w'| |] end.
  - destruct (store (w_align1 w') (w_alnidx w') zero) as [a1| | |] eqn:E1; simpl; try discriminate.
    + destruct (store (w_align2 w') (w_alnidx w') zero) as [a2| | |] eqn:E2; simpl;
        try discriminate.
      * destruct a1, a2; try discriminate.
        destruct (reverse_loop _ _ _ _ _); discriminate.
      * unfold store in E2. destruct (w_align2 w'); [|discriminate].
        destruct (_ && _); discriminate.
    + unfold store in E1. destruct (w_align1 w'); [|discriminate].
      destruct (_ && _); discriminate.
  - discriminate.
  - discriminate.
  - exfalso. apply Hfuel; [|reflexivity]. apply le_n.
Qed.

(** C10: the backtrace loop terminates for every input and every content of
    the back-pointer buffer.  Each iteration lowers the half-step index [s],
    by 2 in state M and by 1 in the other states; the loop is left at once
    when [y] is 0 (completed) or when [s] or [i] is negative (overflow
    return); with the budget [walk_fuel s] the loop model never runs out,
    and neither does the whole alignment overload. *)
Theorem backtrace_terminates :
  forall (band_size : nat) (truth target : list ascii)
         (backpointers : list VectorType) (w : Walk),
    (forall w', walk_body band_size truth target backpointers w = Returned w' ->
                w_s w' = w_s w - (if w_state w =? match_label then 2 else 1)
                /\ w_s w' < w_s w) /\
    (forall fuel, w_y w <= 0 ->
                  backtrace band_size truth target (S fuel) backpointers w = Completed w) /\
    (forall fuel, 0 < w_y w -> w_s w < 0 \/ w_i w < 0 ->
                  backtrace band_size truth target (S fuel) backpointers w = Overflowed w) /\
    (forall fuel, (walk_fuel (w_s w) <= fuel)%nat ->
                  backtrace band_size truth target fuel backpointers w <> Exhausted) /\
    (forall extract_oob qualities gap_open gap_extend nuc_prior align1 align2,
        align band_size extract_oob truth target qualities gap_open gap_extend
              nuc_prior align1 align2 <> OutOfFuel).
Proof.
  intros band_size truth target backpointers w.
  split; [|split; [|split; [|split]]].
  - intros w' H. apply walk_body_counters in H. destruct H as [Hs _].
    split; [exact Hs|]. destruct (w_state w =? match_label); lia.
  - intros fuel Hy. simpl.
    destruct (w_y w >? 0) eqn:E; [apply Z.gtb_lt in E; lia | reflexivity].
  - intros fuel Hy Hneg. simpl.
    destruct (w_y w >? 0) eqn:E; [|rewrite Z.gtb_ltb in E; apply Z.ltb_ge in E; lia].
    assert ((w_s w <? 0) || (w_i w <? 0) = true) as ->; [|reflexivity].
    apply orb_true_iff. destruct Hneg; [left | right]; apply Z.ltb_lt; assumption.
  - intros fuel. apply backtrace_enough_fuel.
  - intros. unfold align. destruct (shape_ok _ _ _); [|discriminate].
    apply finish_not_out_of_fuel.
Qed.

(** ** The main loop of the alignment overload: index of the minimum and
    size of the back-pointer buffer *)

Section MainLoop.

Variable band_size : nat.
Variable extract_oob : VectorType -> Z -> Z.
Variables truth target : list ascii.
Variable qualities : list Z.
Variables gap_open gap_extend : Penalty.
Variable nuc_prior : Z.

Abbreviation step :=
  (align_step band_size extract_oob truth target qualities gap_open gap_extend nuc_prior).
Abbreviation loop :=
  (align_loop band_size extract_oob truth target qualities gap_open gap_extend nuc_prior).
Abbreviation Q_len := (target_len target).
Abbreviation T_len := (truth_len truth).

Lemma align_step_backpointers (s : Z) (st : Trace) :
  length (t_backpointers (step s st)) = length (t_backpointers st).
Proof.
  unfold align_step. cbv zeta.
  repeat match goal with
         | |- context [let '(_, _) := ?c in _] => destruct c
         end.
  cbn [t_backpointers]. rewrite !update_length. reflexivity.
Qed.

Abbreviation idx_ok := (idx_ok target).

Lemma align_step_minscoreidx (s : Z) (st : Trace) :
  0 <= s -> idx_ok s (t_minscoreidx st) -> idx_ok (s + 2) (t_minscoreidx (step s st)).
Proof.
  intros Hs Hidx. unfold align_step. cbv zeta.
  assert (s / 2 >= Q_len -> 2 * Q_len <= s) as Hdiv.
  { intros H. pose proof (Z.mul_div_le s 2). lia. }
  destruct (s / 2 >=? Q_len) eqn:Hexit.
  - apply Z.geb_le in Hexit.
    repeat match goal with
           | |- context [if ?a <? ?b then _ else _] => destruct (a <? b)
           end; cbn [t_minscoreidx]; unfold idx_ok in *; lia.
  - cbn [t_minscoreidx]. unfold idx_ok in *. lia.
Qed.

Lemma align_loop_invariant (n : nat) :
  forall s st,
    0 <= s -> idx_ok s (t_minscoreidx st) ->
    idx_ok (s + 2 * Z.of_nat n) (t_minscoreidx (loop n s st)) /\
    length (t_backpointers (loop n s st)) = length (t_backpointers st).
Proof.
  induction n as [|n IH]; intros s st Hs Hidx.
  - simpl. rewrite Z.add_0_r. auto.
  - cbn [align_loop].
    destruct (IH (s + 2) (step s st)) as [H1 H2]; [lia | |].
    + apply align_step_minscoreidx; assumption.
    + split.
      * replace (s + 2 * Z.of_nat (S n)) with (s + 2 + 2 * Z.of_nat n) by lia. exact H1.
      * rewrite H2. apply align_step_backpointers.
Qed.

End MainLoop.

Section AfterMainLoop.

Variable band_size : nat.
Variable extract_oob : VectorType -> Z -> Z.
Variables truth target : list ascii.
Variable qualities : list Z.
Variables gap_open gap_extend : Penalty.
Variable nuc_prior : Z.

Abbreviation main_loop_end := (main_loop_end band_size extract_oob truth target qualities gap_open gap_extend nuc_prior).

Abbreviation W := (B band_size).
Abbreviation Q_len := (target_len target).
Abbreviation T_len := (truth_len truth).

Lemma shape_ok_true :
  shape_ok band_size truth target = true -> T_len > W /\ T_len = Q_len + 2 * W - 1.
Proof.
  unfold shape_ok. intros H. apply andb_true_iff in H. destruct H as [H1 H2].
  apply Z.gtb_lt in H1. apply Z.eqb_eq in H2. lia.
Qed.

Lemma lengths_nonneg : 0 <= Q_len /\ 0 <= T_len /\ 0 <= W.
Proof. unfold target_len, truth_len, B. lia. Qed.

Lemma main_loop_end_minscoreidx :
  t_minscoreidx main_loop_end = -1 \/
  2 * Q_len <= t_minscoreidx main_loop_end <= 2 * (Q_len + W) + 1.
Proof.
  pose proof lengths_nonneg as [HQ [HT HW]].
  destruct (align_loop_invariant band_size extract_oob truth target qualities
              gap_open gap_extend nuc_prior (iterations band_size target) 0
              (init_trace band_size truth gap_open gap_extend)) as [H _].
  - lia.
  - left. reflexivity.
  - fold main_loop_end in H. unfold idx_ok, iterations in H.
    rewrite Z2Nat.id in H by lia. lia.
Qed.

Lemma main_loop_end_backpointers :
  Z.of_nat (length (t_backpointers main_loop_end)) = 2 * (T_len + W).
Proof.
  pose proof lengths_nonneg as [HQ [HT HW]].
  destruct (align_loop_invariant band_size extract_oob truth target qualities
              gap_open gap_extend nuc_prior (iterations band_size target) 0
              (init_trace band_size truth gap_open gap_extend)) as [_ H].
  - lia.
  - left. reflexivity.
  - fold main_loop_end in H. rewrite H. cbn [init_trace t_backpointers].
    unfold new_backpointers. rewrite repeat_length, Z2Nat.id by lia. reflexivity.
Qed.

(** With two lanes or more, the pointer test of lines 255-256 never fires. *)
Lemma ptr_inside :
  shape_ok band_size truth target = true -> (2 <= band_size)%nat ->
  0 <= t_minscoreidx main_loop_end ->
  ptr_outside band_size target main_loop_end = false.
Proof.
  intros Hshape HB Hidx.
  apply shape_ok_true in Hshape. destruct Hshape as [_ HT].
  pose proof lengths_nonneg as [HQ [_ HW]].
  assert (2 <= W) as HW2 by (unfold B; lia).
  destruct main_loop_end_minscoreidx as [Hm|Hm]; [lia|].
  unfold ptr_outside. rewrite main_loop_end_backpointers.
  set (s := t_minscoreidx main_loop_end) in *.
  assert (Q_len <= s / 2 <= Q_len + W) as Hhalf.
  { split.
    - apply Z.div_le_lower_bound; lia.
    - assert (s / 2 < Q_len + W + 1); [apply Z.div_lt_upper_bound; lia | lia]. }
  apply orb_false_iff; split.
  - apply Z.ltb_ge. nia.
  - rewrite Z.geb_leb. apply Z.leb_gt. nia.
Qed.

End AfterMainLoop.

(** ** Contract errors and the overflow returns *)

(** C9 (amended): when the shape precondition [|T| > B] and
    [|T| = |Q| + 2B - 1] is violated, each [align] overload stops at the
    assertion of its first line, before the main loop, and returns no
    score.  (The buffers are not examined there: a null buffer is not a
    contract error that the code detects.) *)
Theorem shape_violation_asserts :
  forall (band_size : nat) (extract_oob : VectorType -> Z -> Z)
         (truth target : list ascii) (qualities : list Z)
         (gap_open gap_extend : Penalty) (nuc_prior : Z) (align1 align2 : buffer),
    shape_ok band_size truth target = false ->
    align_score band_size extract_oob truth target qualities gap_open gap_extend
                nuc_prior = AssertionFailed /\
    align band_size extract_oob truth target qualities gap_open gap_extend
          nuc_prior align1 align2 = AssertionFailed.
Proof.
  intros * Hshape. unfold align_score, align. rewrite Hshape. split; reflexivity.
Qed.

(** C4 (amended): on score overflow the alignment overload returns -1 and
    sets [first_pos] to -1, and it writes no terminator.  When the running
    minimum was never updated, both buffers are handed back as the caller
    passed them; when the backtrace meets a negative [s] or [i], they hold
    what the backtrace had written so far. *)
Theorem overflow_returns_minus_one :
  forall (band_size : nat) (extract_oob : VectorType -> Z -> Z)
         (truth target : list ascii) (qualities : list Z)
         (gap_open gap_extend : Penalty) (nuc_prior : Z) (align1 align2 : buffer),
    shape_ok band_size truth target = true ->
    (2 <= band_size)%nat ->
    let st := main_loop_end band_size extract_oob truth target qualities
                            gap_open gap_extend nuc_prior in
    let w0 := start_walk band_size target st align1 align2 in
    (t_minscoreidx st < 0 ->
     align band_size extract_oob truth target qualities gap_open gap_extend
           nuc_prior align1 align2
     = Returned (mkAlignment (-1) (-1) align1 align2)) /\
    (forall w,
        0 <= t_minscoreidx st ->
        backtrace band_size truth target (walk_fuel (w_s w0)) (t_backpointers st) w0
        = Overflowed w ->
        align band_size extract_oob truth target qualities gap_open gap_extend
              nuc_prior align1 align2
        = Returned (mkAlignment (-1) (-1) (w_align1 w) (w_align2 w))).
Proof.
  intros * Hshape HB st w0. unfold align. rewrite Hshape.
  fold (main_loop_end band_size extract_oob truth target qualities
                      gap_open gap_extend nuc_prior). fold st.
  split.
  - intros Hidx. unfold finish.
    apply Z.ltb_lt in Hidx. rewrite Hidx. reflexivity.
  - intros w Hidx Hwalk. unfold finish.
    assert ((t_minscoreidx st <? 0) = false) as -> by (apply Z.ltb_ge; exact Hidx).
    unfold st at 1. rewrite ptr_inside by assumption.
    fold st. fold w0. rewrite Hwalk. reflexivity.
Qed.

(** ** What the backtrace writes *)

Lemma load_returned {A : Type} (p : list A) (k : Z) (a : A) :
  load p k = Returned a ->
  0 <= k < Z.of_nat (length p) /\ nth_error p (Z.to_nat k) = Some a.
Proof.
  unfold load. destruct ((0 <=? k) && (k <? Z.of_nat (length p))) eqn:E; [|discriminate].
  apply andb_true_iff in E. destruct E as [E1 E2].
  apply Z.leb_le in E1. apply Z.ltb_lt in E2.
  destruct (nth_error p (Z.to_nat k)) as [b|]; [|discriminate].
  intros H. injection H as ->. auto.
Qed.

Lemma store_returned (b b' : buffer) (k : Z) (c : ascii) :
  store b k c = Returned b' ->
  exists l, b = Some l /\ 0 <= k < Z.of_nat (length l) /\
            b' = Some (update l (Z.to_nat k) c).
Proof.
  unfold store. destruct b as [l|]; [|discriminate].
  destruct ((0 <=? k) && (k <? Z.of_nat (length l))) eqn:E; [|discriminate].
  apply andb_true_iff in E. destruct E as [E1 E2].
  apply Z.leb_le in E1. apply Z.ltb_lt in E2.
  intros H. injection H as <-. exists l. auto.
Qed.

(** A store at the end of the written prefix extends the prefix. *)
Lemma store_extends (b b' : buffer) (E : list ascii) (c : ascii) :
  firstn (length E) (contents b) = E ->
  store b (Z.of_nat (length E)) c = Returned b' ->
  firstn (length (E ++ [c])) (contents b') = E ++ [c].
Proof.
  intros HE Hst. apply store_returned in Hst.
  destruct Hst as [l [-> [Hk ->]]]. simpl in *.
  rewrite Nat2Z.id, length_app. simpl length.
  replace (length E + 1)%nat with (S (length E)) by lia.
  rewrite firstn_update_snoc by lia. rewrite HE. reflexivity.
Qed.

Section Emitted.

Variable band_size : nat.
Variables truth target : list ascii.
Variable backpointers : list VectorType.

(** [x0] is the value of [x] when the backtrace starts. *)
Variable x0 : Z.

Hypothesis truth_bases : bases truth.
Hypothesis target_bases : bases target.

Abbreviation emitted := (emitted truth target x0).

Lemma base_of (p : list ascii) (k : nat) (c : ascii) :
  bases p -> nth_error p k = Some c -> c <> zero /\ c <> gap_label.
Proof.
  intros Hb Hn. apply nth_error_In in Hn.
  unfold bases in Hb. rewrite Forall_forall in Hb. apply Hb. exact Hn.
Qed.

Lemma gap_label_not_nul : gap_label <> zero.
Proof. discriminate. Qed.

Lemma strip_snoc_base (E : list ascii) (c : ascii) :
  c <> gap_label -> strip_gaps (rev (E ++ [c])) = c :: strip_gaps (rev E).
Proof.
  intros Hc. rewrite rev_app_distr. simpl. unfold strip_gaps at 1. simpl.
  rewrite (is_gap_false c Hc). reflexivity.
Qed.

Lemma strip_snoc_gap (E : list ascii) :
  strip_gaps (rev (E ++ [gap_label])) = strip_gaps (rev E).
Proof.
  rewrite rev_app_distr. reflexivity.
Qed.

Lemma count_snoc_base (E : list ascii) (c : ascii) :
  c <> gap_label -> count_gaps (E ++ [c]) = count_gaps E.
Proof.
  intros Hc. rewrite count_gaps_app. unfold count_gaps at 2. simpl.
  rewrite (is_gap_false c Hc). simpl. lia.
Qed.

Lemma count_snoc_gap (E : list ascii) :
  count_gaps (E ++ [gap_label]) = count_gaps E + 1.
Proof.
  rewrite count_gaps_app. reflexivity.
Qed.

Lemma forall_snoc (P : ascii -> Prop) (E : list ascii) (c : ascii) :
  Forall P E -> P c -> Forall P (E ++ [c]).
Proof.
  intros HE Hc. apply Forall_app. split; [exact HE | constructor; [exact Hc | constructor]].
Qed.

(** Reading one more base of the target, just before [y]. *)
Lemma target_step (y : Z) (c : ascii) (rest : list ascii) :
  load target (y - 1) = Returned c ->
  rest = skipn (Z.to_nat y) target ->
  c :: rest = skipn (Z.to_nat (y - 1)) target /\ 0 <= y - 1 /\
  c <> zero /\ c <> gap_label.
Proof.
  intros Hld ->. apply load_returned in Hld. destruct Hld as [Hk Hn].
  destruct (base_of _ _ _ target_bases Hn) as [Hz Hg].
  rewrite (skipn_nth_error _ _ _ Hn).
  replace (S (Z.to_nat (y - 1))) with (Z.to_nat y) by lia.
  repeat split; auto; lia.
Qed.

(** Reading one more base of the truth, just before [x]. *)
Lemma truth_step (x : Z) (c : ascii) (rest : list ascii) :
  x <= x0 ->
  load truth (x - 1) = Returned c ->
  rest = firstn (Z.to_nat (x0 - x)) (skipn (Z.to_nat x) truth) ->
  c :: rest = firstn (Z.to_nat (x0 - (x - 1))) (skipn (Z.to_nat (x - 1)) truth) /\
  0 <= x - 1 /\ c <> zero /\ c <> gap_label.
Proof.
  intros Hx Hld ->. apply load_returned in Hld. destruct Hld as [Hk Hn].
  destruct (base_of _ _ _ truth_bases Hn) as [Hz Hg].
  rewrite (skipn_nth_error _ _ _ Hn).
  replace (Z.to_nat (x0 - (x - 1))) with (S (Z.to_nat (x0 - x))) by lia.
  replace (S (Z.to_nat (x - 1))) with (Z.to_nat x) by lia.
  repeat split; auto; lia.
Qed.

(** The routine goals of the step lemma below. *)
Ltac emitted_goal :=
  match goal with
  | |- Z.of_nat _ + 1 = Z.of_nat _ => rewrite length_app; simpl; lia
  | |- length _ = length _ => rewrite !length_app; simpl; lia
  | |- firstn _ (contents _) = _ => eapply store_extends; eassumption
  | |- Forall _ (_ ++ [_]) =>
      apply forall_snoc; [assumption | first [assumption | exact gap_label_not_nul]]
  end.

Lemma walk_body_emitted (w w' : Walk) (E1 E2 : list ascii) :
  emitted w E1 E2 ->
  walk_body band_size truth target backpointers w = Returned w' ->
  exists c1 c2, emitted w' (E1 ++ [c1]) (E2 ++ [c2]).
Proof.
  intros (Hidx & Hlen & Hp1 & Hp2 & Hz1 & Hz2 & Hy & Hx & Hs2 & Hs1 & Hcnt) Hbody.
  unfold walk_body in Hbody. rewrite Hidx in Hbody.
  assert (forall c, Z.of_nat (length E1) + 1 = Z.of_nat (length (E1 ++ [c]))) as Hnext
      by (intros c; rewrite length_app; simpl; lia).
  assert (forall c1 c2, length (E2 ++ [c2]) = length (E1 ++ [c1])) as Hlen'
      by (intros; rewrite !length_app; simpl; lia).
  destruct (w_state w =? match_label).
  - bind_inv Hbody. rename a into c1, Hld into L1.
    bind_inv Hbody. rename a into a1, Hld into S1.
    bind_inv Hbody. rename a into c2, Hld into L2.
    bind_inv Hbody. rename a into a2, Hld into S2.
    injection Hbody as <-.
    destruct (truth_step _ _ _ (proj2 Hx) L1 Hs1) as (T1 & T2 & T3 & T4).
    destruct (target_step _ _ _ L2 Hs2) as (Q1 & Q2 & Q3 & Q4).
    rewrite <- Hlen in S2.
    exists c1, c2. unfold emitted; cbn [w_alnidx w_align1 w_align2 w_x w_y].
    repeat split; try lia; try emitted_goal.
    + rewrite strip_snoc_base by exact Q4. exact Q1.
    + rewrite strip_snoc_base by exact T4. exact T1.
    + rewrite !count_snoc_base by assumption. lia.
  - destruct (w_state w =? insert_label).
    + bind_inv Hbody. rename a into a1, Hld into S1.
      bind_inv Hbody. rename a into c2, Hld into L2.
      bind_inv Hbody. rename a into a2, Hld into S2.
      injection Hbody as <-.
      destruct (target_step _ _ _ L2 Hs2) as (Q1 & Q2 & Q3 & Q4).
      rewrite <- Hlen in S2.
      exists gap_label, c2. unfold emitted; cbn [w_alnidx w_align1 w_align2 w_x w_y].
      repeat split; try lia; try emitted_goal.
      * rewrite strip_snoc_base by exact Q4. exact Q1.
      * rewrite strip_snoc_gap. exact Hs1.
      * rewrite count_snoc_base by assumption. rewrite count_snoc_gap. lia.
    + bind_inv Hbody. rename a into c1, Hld into L1.
      bind_inv Hbody. rename a into a1, Hld into S1.
      bind_inv Hbody. rename a into a2, Hld into S2.
      injection Hbody as <-.
      destruct (truth_step _ _ _ (proj2 Hx) L1 Hs1) as (T1 & T2 & T3 & T4).
      rewrite <- Hlen in S2.
      exists c1, gap_label. unfold emitted; cbn [w_alnidx w_align1 w_align2 w_x w_y].
      repeat split; try lia; try emitted_goal.
      * rewrite strip_snoc_gap. exact Hs2.
      * rewrite strip_snoc_base by exact T4. exact T1.
      * rewrite (count_snoc_base E1 c1) by assumption. rewrite count_snoc_gap. lia.
Qed.

Lemma backtrace_emitted (fuel : nat) :
  forall (w w' : Walk) (E1 E2 : list ascii),
    emitted w E1 E2 ->
    backtrace band_size truth target fuel backpointers w = Completed w' ->
    exists E1' E2', emitted w' E1' E2' /\ w_y w' = 0.
Proof.
  induction fuel as [|fuel IH]; intros w w' E1 E2 Hem Hbt; [discriminate|].
  cbn [backtrace] in Hbt.
  destruct (w_y w >? 0) eqn:Hy.
  - destruct ((w_s w <? 0) || (w_i w <? 0)); [discriminate|].
    destruct (walk_body band_size truth target backpointers w) as [w1| | |] eqn:Hbody;
      try discriminate.
    destruct (walk_body_emitted _ _ _ _ Hem Hbody) as [c1 [c2 Hem1]].
    exact (IH _ _ _ _ Hem1 Hbt).
  - injection Hbt as <-. exists E1, E2. split; [exact Hem|].
    rewrite Z.gtb_ltb in Hy. apply Z.ltb_ge in Hy.
    destruct Hem as (_ & _ & _ & _ & _ & _ & Hy' & _). lia.
Qed.

End Emitted.

(** ** A successful call *)

Section Success.

Variable band_size : nat.
Variable extract_oob : VectorType -> Z -> Z.
Variables truth target : list ascii.
Variable qualities : list Z.
Variables gap_open gap_extend : Penalty.
Variable nuc_prior : Z.
Variables buf1 buf2 : buffer.

Hypothesis truth_bases : bases truth.
Hypothesis target_bases : bases target.

Abbreviation W := (B band_size).
Abbreviation Q_len := (target_len target).

(** The buffer after the terminator was stored behind the written prefix
    and the prefix turned around. *)
Lemma terminated_prefix (b b' : buffer) (E : list ascii) :
  firstn (length E) (contents b) = E ->
  store b (Z.of_nat (length E)) zero = Returned b' ->
  exists l rest, b' = Some l /\ l = [] ++ E ++ zero :: rest.
Proof.
  intros HE Hst. apply store_returned in Hst. destruct Hst as [l [-> [Hk ->]]].
  simpl in HE. rewrite Nat2Z.id.
  exists (update l (length E) zero), (skipn (S (length E)) l).
  split; [reflexivity|].
  rewrite <- (firstn_skipn (length E) (update l (length E) zero)) at 1.
  rewrite firstn_update_same, HE, skipn_update by lia. reflexivity.
Qed.

(** What a call that returns a score other than -1 has done: it wrote the
    emitted characters [E1], [E2] backwards in front of a terminator. *)
Lemma align_completed (r : Alignment) :
  align band_size extract_oob truth target qualities gap_open gap_extend nuc_prior
        buf1 buf2 = Returned r ->
  0 <= score r ->
  exists (E1 E2 rest1 rest2 : list ascii) (x0 : Z),
    align1 r = Some (rev E1 ++ zero :: rest1) /\
    align2 r = Some (rev E2 ++ zero :: rest2) /\
    Forall (fun c => c <> zero) E1 /\
    Forall (fun c => c <> zero) E2 /\
    0 <= first_pos r <= x0 /\
    x0 <= Q_len + 2 * W + 1 /\
    strip_gaps (rev E2) = target /\
    strip_gaps (rev E1)
    = firstn (Z.to_nat (x0 - first_pos r)) (skipn (Z.to_nat (first_pos r)) truth) /\
    count_gaps E2 - count_gaps E1 = x0 - first_pos r - Q_len.
Proof.
  unfold align. destruct (shape_ok band_size truth target) eqn:Hshape; [|discriminate].
  fold (main_loop_end band_size extract_oob truth target qualities
                      gap_open gap_extend nuc_prior).
  set (st := main_loop_end _ _ _ _ _ _ _ _).
  unfold finish.
  destruct (t_minscoreidx st <? 0) eqn:Hidx.
  { intros H; injection H as <-; simpl; lia. }
  destruct (ptr_outside band_size target st).
  { intros H; injection H as <-; simpl; lia. }
  apply Z.ltb_ge in Hidx.
  pose proof (main_loop_end_minscoreidx band_size extract_oob truth target qualities
                gap_open gap_extend nuc_prior) as Hbound.
  fold st in Hbound. destruct Hbound as [Hbound|Hbound]; [lia|].
  pose proof (lengths_nonneg band_size truth target) as (HQ & _ & HW).
  set (w0 := start_walk band_size target st buf1 buf2).
  set (x0 := w_x w0).
  assert (emitted truth target x0 w0 [] []) as Hem0.
  { unfold emitted, x0, w0, start_walk; cbn [w_alnidx w_align1 w_align2 w_x w_y length].
    repeat split; try lia; try constructor.
    - unfold target_len. rewrite Nat2Z.id, skipn_all. reflexivity.
    - rewrite Z.sub_diag. reflexivity. }
  destruct (backtrace band_size truth target (walk_fuel (w_s w0)) (t_backpointers st) w0)
    as [w|w| |] eqn:Hbt; try discriminate.
  2:{ intros H; injection H as <-; simpl; lia. }
  destruct (backtrace_emitted band_size truth target (t_backpointers st) x0
              truth_bases target_bases _ _ _ _ _ Hem0 Hbt) as (E1 & E2 & Hem & Hy).
  destruct Hem as (Hn & Hlen & Hp1 & Hp2 & Hz1 & Hz2 & _ & Hx & Hs2 & Hs1 & Hcnt).
  rewrite Hn. intros H.
  bind_inv H. rename a into b1, Hld into S1.
  bind_inv H. rename a into b2, Hld into S2.
  rewrite <- Hlen in S2.
  destruct (terminated_prefix _ _ _ Hp1 S1) as (l1 & rest1 & -> & El1).
  destruct (terminated_prefix _ _ _ Hp2 S2) as (l2 & rest2 & -> & El2).
  rewrite El1, El2 in H.
  rewrite (reverse_loop_spec _ [] E1 (zero :: rest1) [] E2 (zero :: rest2)) in H;
    try (cbn [length]; lia).
  injection H as <-. intros _. cbn [align1 align2 first_pos app].
  exists E1, E2, rest1, rest2, x0.
  rewrite Hy in Hs2, Hcnt. simpl skipn in Hs2.
  repeat split; try assumption; try lia.
  unfold x0, w0, start_walk; cbn [w_x]. lia.
Qed.

End Success.

Lemma forall_rev (P : ascii -> Prop) (E : list ascii) : Forall P E -> Forall P (rev E).
Proof.
  intros H. rewrite Forall_forall in *. intros c Hc. apply H. apply in_rev. exact Hc.
Qed.

(** C3 (amended): for a truth and a target made of bases (no NUL, no gap
    character), whenever the alignment overload returns a non-negative
    score, deleting the gaps of the query alignment gives the whole target,
    and deleting the gaps of the truth alignment gives the substring of the
    truth that starts at [first_pos] and has as many characters as the truth
    alignment has non-gap characters. *)
Theorem alignment_consistency :
  forall (band_size : nat) (extract_oob : VectorType -> Z -> Z)
         (truth target : list ascii) (qualities : list Z)
         (gap_open gap_extend : Penalty) (nuc_prior : Z) (buf1 buf2 : buffer)
         (r : Alignment),
    bases truth -> bases target ->
    align band_size extract_oob truth target qualities gap_open gap_extend
          nuc_prior buf1 buf2 = Returned r ->
    0 <= score r ->
    exists l1 l2 : list ascii,
      align1 r = Some l1 /\ align2 r = Some l2 /\
      strip_gaps (c_str l2) = target /\
      0 <= first_pos r /\
      strip_gaps (c_str l1)
      = substring truth (first_pos r) (length (strip_gaps (c_str l1))).
Proof.
  intros * HT HQ Hcall Hscore.
  destruct (align_completed _ _ _ _ _ _ _ _ _ _ HT HQ _ Hcall Hscore)
    as (E1 & E2 & rest1 & rest2 & x0 & H1 & H2 & Hz1 & Hz2 & Hfp & _ & Hs2 & Hs1 & _).
  exists (rev E1 ++ zero :: rest1), (rev E2 ++ zero :: rest2).
  rewrite !c_str_app by (apply forall_rev; assumption).
  repeat split; try assumption; try lia.
  rewrite Hs1. unfold substring. symmetry. apply firstn_length_firstn.
Qed.

(** C6 (amended): for a truth and a target made of bases, whenever the
    alignment overload returns a non-negative score, the query alignment
    holds at most [2 * B + 1] gaps more than the truth alignment: the
    deletions not made up for by insertions are bounded by the width of the
    band, not each row's gaps by [B]. *)
Theorem gaps_within_band :
  forall (band_size : nat) (extract_oob : VectorType -> Z -> Z)
         (truth target : list ascii) (qualities : list Z)
         (gap_open gap_extend : Penalty) (nuc_prior : Z) (buf1 buf2 : buffer)
         (r : Alignment),
    bases truth -> bases target ->
    align band_size extract_oob truth target qualities gap_open gap_extend
          nuc_prior buf1 buf2 = Returned r ->
    0 <= score r ->
    exists l1 l2 : list ascii,
      align1 r = Some l1 /\ align2 r = Some l2 /\
      count_gaps (c_str l2) <= count_gaps (c_str l1) + 2 * B band_size + 1.
Proof.
  intros * HT HQ Hcall Hscore.
  destruct (align_completed _ _ _ _ _ _ _ _ _ _ HT HQ _ Hcall Hscore)
    as (E1 & E2 & rest1 & rest2 & x0 & H1 & H2 & Hz1 & Hz2 & Hfp & Hx0 & _ & _ & Hcnt).
  exists (rev E1 ++ zero :: rest1), (rev E2 ++ zero :: rest2).
  rewrite !c_str_app by (apply forall_rev; assumption).
  rewrite !count_gaps_rev.
  repeat split; try assumption. lia.
Qed.

(** ** Registers and lanes *)

Lemma wrap16_range (z : Z) : is_int16 (wrap16 z).
Proof.
  unfold is_int16, wrap16.
  pose proof (Z.mod_pos_bound (z + 32768) 65536). lia.
Qed.

Lemma wrap16_small (z : Z) : is_int16 z -> wrap16 z = z.
Proof.
  unfold is_int16, wrap16. intros H.
  rewrite Z.mod_small by lia. lia.
Qed.

Lemma wrap16_add_mul (x r : Z) : wrap16 (x mod 65536 + 65536 * r) = wrap16 x.
Proof.
  unfold wrap16. f_equal.
  replace (x mod 65536 + 65536 * r + 32768) with (x mod 65536 + 32768 + r * 65536) by lia.
  rewrite Z.mod_add by lia.
  rewrite Z.add_mod_idemp_l by lia. reflexivity.
Qed.

Lemma div_add_mul (x r : Z) : (x mod 65536 + 65536 * r) / 65536 = r.
Proof.
  pose proof (Z.mod_pos_bound x 65536).
  rewrite Z.mul_comm, Z.div_add by lia.
  rewrite Z.div_small by lia. lia.
Qed.

Lemma of_register_zero (n : nat) : of_register n 0 = repeat 0 n.
Proof.
  induction n as [|n IH]; [reflexivity|].
  simpl. change (0 / 65536) with 0. rewrite IH. reflexivity.
Qed.

(** Reading [n] lanes back from the register image of [v]. *)
Lemma of_register_to_register (v : VectorType) :
  Forall is_int16 v ->
  forall n, of_register n (to_register v) = firstn n v ++ repeat 0 (n - length v).
Proof.
  induction 1 as [|x v Hx Hv IH]; intros n.
  - simpl to_register. rewrite of_register_zero, firstn_nil. simpl. f_equal. lia.
  - destruct n as [|n]; [reflexivity|].
    cbn [of_register to_register firstn length].
    rewrite wrap16_add_mul, div_add_mul, IH, wrap16_small by exact Hx.
    reflexivity.
Qed.

(** A shift right by one score slot drops lane 0 and fills the top lane
    with zero. *)
Lemma right_shift_slot (v : VectorType) :
  Forall is_int16 v -> _right_shift score_bytes v = tl v ++ repeat 0 (min 1 (length v)).
Proof.
  intros Hv. unfold _right_shift, score_bytes.
  destruct Hv as [|x v Hx Hv]; [reflexivity|].
  cbn [to_register length tl].
  change (8 * 2) with 16. rewrite Z.shiftr_div_pow2 by lia.
  change (2 ^ 16) with 65536. rewrite div_add_mul.
  rewrite of_register_to_register by exact Hv.
  rewrite firstn_all2 by lia.
  replace (S (length v) - length v)%nat with 1%nat by lia. reflexivity.
Qed.

(** A shift left by one score slot puts zero in lane 0 and drops the top
    lane. *)
Lemma left_shift_slot (v : VectorType) :
  Forall is_int16 v -> _left_shift score_bytes v = firstn (length v) (0 :: v).
Proof.
  intros Hv. unfold _left_shift, score_bytes.
  change (8 * 2) with 16. rewrite Z.shiftl_mul_pow2 by lia.
  change (2 ^ 16) with 65536.
  replace (to_register v * 65536) with (to_register (0 :: v))
    by (cbn [to_register]; change (0 mod 65536) with 0; lia).
  rewrite of_register_to_register by (constructor; [unfold is_int16; lia | exact Hv]).
  cbn [length]. replace (length v - S (length v))%nat with 0%nat by lia.
  apply app_nil_r.
Qed.

Lemma length_of_register (n : nat) (r : Z) : length (of_register n r) = n.
Proof.
  revert r; induction n as [|n IH]; intros r; simpl; [reflexivity | rewrite IH; reflexivity].
Qed.

Lemma length_right_shift (k : Z) (v : VectorType) : length (_right_shift k v) = length v.
Proof. apply length_of_register. Qed.

Lemma length_left_shift (k : Z) (v : VectorType) : length (_left_shift k v) = length v.
Proof. apply length_of_register. Qed.

Lemma length_set_lane (v : VectorType) (k : nat) (x : Z) : length (set_lane v k x) = length v.
Proof.
  revert k; induction v as [|y v IH]; intros [|k]; simpl; auto.
Qed.

Lemma length_insert (v : VectorType) (x n : Z) : length (_insert v x n) = length v.
Proof. apply length_set_lane. Qed.

Lemma length_lanewise (f : Z -> Z -> Z) (a b : VectorType) :
  length (lanewise f a b) = min (length a) (length b).
Proof.
  unfold lanewise. rewrite length_map, length_combine. reflexivity.
Qed.

Lemma lane_set_lane (v : VectorType) (n k : nat) (x : Z) :
  lane (set_lane v n x) k = if (k =? n)%nat && (k <? length v)%nat then x else lane v k.
Proof.
  unfold lane. revert n k; induction v as [|y v IH]; intros n k.
  - simpl. rewrite andb_false_r. reflexivity.
  - destruct n as [|n], k as [|k]; simpl; try reflexivity.
    exact (IH n k).
Qed.

Lemma lane_lanewise (f : Z -> Z -> Z) (a b : VectorType) (k : nat) :
  (k < length a)%nat -> (k < length b)%nat ->
  lane (lanewise f a b) k = f (lane a k) (lane b k).
Proof.
  unfold lane, lanewise. revert b k; induction a as [|x a IH]; intros b k Ha Hb.
  - simpl in Ha. lia.
  - destruct b as [|y b]; [simpl in Hb; lia|].
    destruct k as [|k]; simpl; [reflexivity|].
    apply IH; simpl in *; lia.
Qed.

Lemma lane_right_shift_slot (v : VectorType) (k : nat) :
  Forall is_int16 v -> lane (_right_shift score_bytes v) k = lane v (S k).
Proof.
  intros Hv. rewrite right_shift_slot by exact Hv. unfold lane.
  destruct v as [|x v]; [destruct k; reflexivity|].
  cbn [tl length min nth].
  destruct (Nat.lt_ge_cases k (length v)) as [Hk|Hk].
  - apply app_nth1. exact Hk.
  - rewrite (nth_overflow v) by lia.
    rewrite app_nth2 by lia.
    destruct (k - length v)%nat as [|[|j]]; reflexivity.
Qed.

Lemma lane_repeat (x : Z) (n k : nat) : (k < n)%nat -> lane (repeat x n) k = x.
Proof.
  unfold lane. revert k; induction n as [|n IH]; intros k Hk; [lia|].
  destruct k as [|k]; simpl; [reflexivity | apply IH; lia].
Qed.

Lemma forall_lane (P : Z -> Prop) (v : VectorType) :
  (forall k, (k < length v)%nat -> P (lane v k)) -> Forall P v.
Proof.
  unfold lane. induction v as [|x v IH]; intros H; constructor.
  - apply (H 0%nat). simpl. lia.
  - apply IH. intros k Hk. apply (H (S k)). simpl. lia.
Qed.

Lemma forall_set_lane (P : Z -> Prop) (v : VectorType) (n : nat) (x : Z) :
  Forall P v -> P x -> Forall P (set_lane v n x).
Proof.
  intros Hv Hx. revert n; induction Hv as [|y v Hy Hv IH]; intros [|n]; simpl;
    constructor; auto.
Qed.

Lemma forall_of_register (n : nat) (r : Z) : Forall is_int16 (of_register n r).
Proof.
  revert r; induction n as [|n IH]; intros r; simpl; constructor;
    [apply wrap16_range | apply IH].
Qed.

(** ** The truth window and [_truthnqual] *)

Lemma char_to_int_range (c : ascii) : -128 <= char_to_int c <= 127.
Proof.
  unfold char_to_int.
  assert (0 <= Z.of_N (N_of_ascii c) < 256) as H.
  { pose proof (N_ascii_bounded c). lia. }
  destruct (Z.of_N (N_of_ascii c) <? 128) eqn:E;
    [apply Z.ltb_lt in E | apply Z.ltb_ge in E]; lia.
Qed.

Lemma char_to_int_int16 (c : ascii) : is_int16 (char_to_int c).
Proof.
  pose proof (char_to_int_range c). unfold is_int16. lia.
Qed.

Lemma char_to_int_N (c : ascii) :
  (char_to_int c =? char_to_int "N"%char) = Ascii.eqb c "N"%char.
Proof.
  destruct c as [[] [] [] [] [] [] [] []]; reflexivity.
Qed.

Section TruthWindow.

Variable band_size : nat.

Lemma nqual_of_int16 (t : Z) : is_int16 (nqual_of t).
Proof.
  unfold nqual_of, is_int16. destruct (t =? _); vm_compute; split; discriminate.
Qed.

Lemma truthnqual_int16 (b : Band) :
  truthnqual_ok band_size b -> Forall is_int16 (_truthnqual b).
Proof.
  intros (_ & Hl & _ & H). apply forall_lane. intros k Hk.
  rewrite H by lia. apply nqual_of_int16.
Qed.

Lemma length_vectorise (x : Z) : length (vectorise band_size x) = band_size.
Proof. apply repeat_length. Qed.

Lemma length_vectorise_reverse (p : list ascii) :
  length (vectorise_reverse band_size p) = band_size.
Proof.
  unfold vectorise_reverse. rewrite length_map, length_seq. reflexivity.
Qed.

(** Line 104 (and 177): the initial value of [_truthnqual]. *)
Lemma init_band_truthnqual (truth : list ascii) (gap_open gap_extend : Penalty) :
  truthnqual_ok band_size (init_band band_size truth gap_open gap_extend).
Proof.
  unfold truthnqual_ok, init_band; cbn [_truthwin _truthnqual].
  assert (Forall is_int16 (vectorise_reverse band_size truth)) as Hint.
  { unfold vectorise_reverse. apply Forall_map, Forall_forall.
    intros k _. apply char_to_int_int16. }
  repeat split.
  - apply length_vectorise_reverse.
  - unfold _add, _and, _cmpeq, _inf, _n, _nscore_m_inf.
    rewrite !length_lanewise, length_vectorise_reverse, !length_vectorise. lia.
  - exact Hint.
  - intros k Hk.
    unfold _add, _and, _cmpeq, _inf, _n, _nscore_m_inf.
    rewrite !lane_lanewise
      by (rewrite ?length_lanewise, ?length_vectorise_reverse, ?length_vectorise; lia).
    unfold vectorise. rewrite !lane_repeat by exact Hk.
    unfold nqual_of.
    change (wrap16 (char_to_int "N")) with (char_to_int "N"%char).
    destruct (lane (vectorise_reverse band_size truth) k =? char_to_int "N"); reflexivity.
Qed.

(** Lines 133-134 (and 218-219): the window moves down one lane and the
    next truth base enters the top lane of both vectors. *)
Lemma advance_truthnqual (b : Band) (base : ascii) (tw tnq : VectorType) :
  truthnqual_ok band_size b ->
  tw = _insert (_right_shift score_bytes (_truthwin b)) (char_to_int base)
               (B band_size - 1) ->
  tnq = _insert (_right_shift score_bytes (_truthnqual b))
                (if Ascii.eqb base "N"%char then n_score else infinity)
                (B band_size - 1) ->
  length tw = band_size /\ length tnq = band_size /\ Forall is_int16 tw /\
  forall k, (k < band_size)%nat -> lane tnq k = nqual_of (lane tw k).
Proof.
  intros Hok -> ->.
  pose proof (truthnqual_int16 b Hok) as Hq.
  destruct Hok as (Hl1 & Hl2 & Hw & Hlanes).
  repeat split.
  - rewrite length_insert, length_right_shift. exact Hl1.
  - rewrite length_insert, length_right_shift. exact Hl2.
  - apply forall_set_lane; [apply forall_of_register | apply wrap16_range].
  - intros k Hk. unfold _insert.
    rewrite !lane_set_lane, !length_right_shift, Hl1, Hl2.
    rewrite !lane_right_shift_slot by assumption.
    destruct ((k =? Z.to_nat (B band_size - 1))%nat && (k <? band_size)%nat) eqn:E.
    + rewrite (wrap16_small (char_to_int base)) by apply char_to_int_int16.
      unfold nqual_of. rewrite char_to_int_N.
      destruct (Ascii.eqb base "N"); reflexivity.
    + apply andb_false_iff in E.
      assert (S k < band_size)%nat as Hk'.
      { destruct E as [E|E].
        - apply Nat.eqb_neq in E. unfold B in E. lia.
        - apply Nat.ltb_ge in E. lia. }
      apply Hlanes. exact Hk'.
Qed.

Variable extract_oob : VectorType -> Z -> Z.
Variables truth target : list ascii.
Variable qualities : list Z.
Variables gap_open gap_extend : Penalty.
Variable nuc_prior : Z.

Lemma score_step_truthnqual (s : Z) (b : Band) (m : Z) :
  truthnqual_ok band_size b ->
  truthnqual_ok band_size
    (fst (score_step band_size extract_oob truth target qualities gap_open gap_extend
                     nuc_prior s (b, m))).
Proof.
  intros Hok. unfold truthnqual_ok.
  eapply advance_truthnqual; [exact Hok | reflexivity | reflexivity].
Qed.

Lemma align_step_truthnqual (s : Z) (st : Trace) :
  truthnqual_ok band_size (t_band st) ->
  truthnqual_ok band_size
    (t_band (align_step band_size extract_oob truth target qualities gap_open
                        gap_extend nuc_prior s st)).
Proof.
  intros Hok. unfold truthnqual_ok.
  eapply advance_truthnqual; [exact Hok | |].
  - unfold align_step. cbv zeta.
    repeat match goal with
           | |- context [let '(_, _) := ?c in _] => destruct c
           end.
    reflexivity.
  - unfold align_step. cbv zeta.
    repeat match goal with
           | |- context [let '(_, _) := ?c in _] => destruct c
           end.
    reflexivity.
Qed.

Lemma score_loop_truthnqual (n : nat) :
  forall s st,
    truthnqual_ok band_size (fst st) ->
    truthnqual_ok band_size
      (fst (score_loop band_size extract_oob truth target qualities gap_open gap_extend
                       nuc_prior n s st)).
Proof.
  induction n as [|n IH]; intros s [b m] Hok; [exact Hok|].
  cbn [score_loop]. apply IH. apply score_step_truthnqual. exact Hok.
Qed.

Lemma align_loop_truthnqual (n : nat) :
  forall s st,
    truthnqual_ok band_size (t_band st) ->
    truthnqual_ok band_size
      (t_band (align_loop band_size extract_oob truth target qualities gap_open
                          gap_extend nuc_prior n s st)).
Proof.
  induction n as [|n IH]; intros s st Hok; [exact Hok|].
  cbn [align_loop]. apply IH. apply align_step_truthnqual. exact Hok.
Qed.

End TruthWindow.

(** C5 (amended): at every point of the band recurrence of either overload,
    [_truthnqual] holds [n_score] in every lane whose truth-window base is
    'N' and [infinity] in every other lane; the emission penalty added to
    the match vectors is the minimum of the mismatch term and that value, so
    it is capped at [n_score] in the 'N' lanes. *)
Theorem truthnqual_invariant :
  forall (band_size : nat) (extract_oob : VectorType -> Z -> Z)
         (truth target : list ascii) (qualities : list Z)
         (gap_open gap_extend : Penalty) (nuc_prior : Z) (n : nat) (b : Band),
    b = fst (score_loop band_size extract_oob truth target qualities gap_open
                        gap_extend nuc_prior n 0
                        (init_band band_size truth gap_open gap_extend, infinity))
    \/ b = t_band (align_loop band_size extract_oob truth target qualities gap_open
                              gap_extend nuc_prior n 0
                              (init_trace band_size truth gap_open gap_extend)) ->
    forall k : nat, (k < band_size)%nat ->
      lane (_truthnqual b) k
      = (if lane (_truthwin b) k =? char_to_int "N"%char then n_score else infinity)
      /\
      forall targetwin qualitieswin : VectorType,
        length targetwin = band_size -> length qualitieswin = band_size ->
        let mismatch := _andnot (_cmpeq targetwin (_truthwin b)) qualitieswin in
        lane (_min mismatch (_truthnqual b)) k
        = Z.min (lane mismatch k) (lane (_truthnqual b) k)
        /\ (lane (_truthwin b) k = char_to_int "N"%char ->
            lane (_min mismatch (_truthnqual b)) k <= n_score).
Proof.
  intros * Hb k Hk.
  assert (truthnqual_ok band_size b) as Hok.
  { destruct Hb as [-> | ->].
    - apply score_loop_truthnqual. apply init_band_truthnqual.
    - apply align_loop_truthnqual. apply init_band_truthnqual. }
  destruct Hok as (Hl1 & Hl2 & _ & Hlanes).
  split; [exact (Hlanes k Hk)|].
  intros tg qq Htg Hqq mismatch.
  assert (lane (_min mismatch (_truthnqual b)) k
          = Z.min (lane mismatch k) (lane (_truthnqual b) k)) as Hmin.
  { unfold _min. apply lane_lanewise; [|lia].
    unfold mismatch, _andnot, _cmpeq. rewrite !length_lanewise. lia. }
  split; [exact Hmin|].
  intros HN. rewrite Hmin, (Hlanes k Hk). unfold nqual_of.
  rewrite HN, Z.eqb_refl. lia.
Qed.

(** ** The state labels *)

Lemma in_lanewise (f : Z -> Z -> Z) (a b : VectorType) (z : Z) :
  In z (lanewise f a b) -> exists x y, In x a /\ In y b /\ z = f x y.
Proof.
  unfold lanewise. intros H. apply in_map_iff in H.
  destruct H as [[x y] [<- Hin]].
  exists x, y. repeat split.
  - exact (in_combine_l _ _ _ _ Hin).
  - exact (in_combine_r _ _ _ _ Hin).
Qed.

(** The register image of [n] lanes holding 3. *)
Lemma to_register_three (n : nat) :
  to_register (repeat 3 (S n)) / 256 = 256 * to_register (repeat 3 n).
Proof.
  cbn [repeat to_register]. change (3 mod 65536) with 3.
  replace (3 + 65536 * to_register (repeat 3 n))
    with (3 + (256 * to_register (repeat 3 n)) * 256) by lia.
  rewrite Z.div_add by lia. reflexivity.
Qed.

Lemma of_register_three (m : nat) :
  forall n, of_register m (256 * to_register (repeat 3 n))
            = repeat 768 (min m n) ++ repeat 0 (m - n).
Proof.
  induction m as [|m IH]; intros n; [reflexivity|].
  destruct n as [|n].
  - cbn [repeat to_register]. rewrite Z.mul_0_r, of_register_zero. reflexivity.
  - cbn [of_register repeat to_register min].
    change (3 mod 65536) with 3.
    replace (256 * (3 + 65536 * to_register (repeat 3 n)))
      with (768 mod 65536 + 65536 * (256 * to_register (repeat 3 n)))
      by (change (768 mod 65536) with 768; lia).
    rewrite wrap16_add_mul, div_add_mul, IH. reflexivity.
Qed.

(** [_right_shift<1>(_three)]: a shift by one byte, not by one bit.  Every
    lane but the top one comes out as 0x0300, the top one as 0. *)
Lemma right_shift_one_byte_three (band_size : nat) :
  _right_shift 1 (_three band_size)
  = repeat 768 (band_size - 1) ++ repeat 0 (min 1 band_size).
Proof.
  unfold _right_shift, _three, vectorise. change (wrap16 3) with 3.
  rewrite repeat_length. change (8 * 1) with 8.
  rewrite Z.shiftr_div_pow2 by lia. change (2 ^ 8) with 256.
  destruct band_size as [|n]; [reflexivity|].
  rewrite to_register_three, of_register_three.
  replace (min (S n) n) with (S n - 1)%nat by lia.
  replace (S n - n)%nat with (min 1 (S n)) by lia. reflexivity.
Qed.

Lemma low_bits_cleared (x z : Z) :
  z = 768 \/ z = 0 -> Z.land (Z.lor (Z.land (Z.lnot 3) x) z) 3 = 0.
Proof.
  intros Hz. rewrite Z.land_lor_distr_l.
  rewrite <- Z.land_assoc, (Z.land_comm x 3), Z.land_assoc.
  change (Z.land (Z.lnot 3) 3) with 0. rewrite Z.land_0_l.
  destruct Hz as [-> | ->]; reflexivity.
Qed.

(** The line [_i = _or(_andnot(_three, _i), _right_shift<1>(_three))]
    leaves 0, the match label, in the two low bits of every lane. *)
Lemma label_i_low_bits (band_size : nat) (v : VectorType) :
  Forall (fun x => Z.land x 3 = match_label) (label_i band_size v).
Proof.
  apply Forall_forall. intros z Hz.
  unfold label_i, _or, _andnot in Hz.
  apply in_lanewise in Hz. destruct Hz as (a & c & Ha & Hc & ->).
  apply in_lanewise in Ha. destruct Ha as (t & x & Ht & _ & ->).
  unfold _three, vectorise in Ht. apply repeat_spec in Ht. subst t.
  change (wrap16 3) with 3.
  apply low_bits_cleared.
  rewrite right_shift_one_byte_three in Hc.
  apply in_app_or in Hc. destruct Hc as [Hc|Hc]; apply repeat_spec in Hc; auto.
Qed.

Lemma label_i_lanes (band_size : nat) (v : VectorType) (k : nat) :
  length v = band_size -> (k < band_size)%nat ->
  lane (label_i band_size v) k
  = Z.lor (Z.land (Z.lnot 3) (lane v k)) (if (S k <? band_size)%nat then 768 else 0).
Proof.
  intros Hv Hk. unfold label_i, _or, _andnot.
  assert (length (_three band_size) = band_size) as H3 by apply repeat_length.
  rewrite !lane_lanewise
    by (rewrite ?length_lanewise, ?length_right_shift, ?H3, ?Hv; lia).
  unfold _three at 1, vectorise. rewrite lane_repeat by exact Hk.
  change (wrap16 3) with 3. f_equal.
  rewrite right_shift_one_byte_three. unfold lane.
  destruct (S k <? band_size)%nat eqn:E.
  - apply Nat.ltb_lt in E. rewrite app_nth1 by (rewrite repeat_length; lia).
    apply nth_repeat_lt. lia.
  - apply Nat.ltb_ge in E. rewrite app_nth2 by (rewrite repeat_length; lia).
    rewrite repeat_length. replace (min 1 band_size) with 1%nat by lia.
    replace (k - (band_size - 1))%nat with 0%nat by lia. reflexivity.
Qed.

(** C7 (the code departs from the claim): after each half step of the main
    loop of the alignment overload the low two bits of every lane of the
    insertion vectors [_i1] and [_i2] are 0, the match label, not
    [insert_label]; [label_i] also sets bits 8 and 9 of every lane but the
    top one. *)
Theorem insert_label_not_set :
  forall (band_size : nat) (extract_oob : VectorType -> Z -> Z)
         (truth target : list ascii) (qualities : list Z)
         (gap_open gap_extend : Penalty) (nuc_prior : Z) (s : Z) (st : Trace),
    let b := t_band (align_step band_size extract_oob truth target qualities
                                gap_open gap_extend nuc_prior s st) in
    Forall (fun x => Z.land x 3 = match_label) (_i1 b) /\
    Forall (fun x => Z.land x 3 = match_label) (_i2 b) /\
    match_label <> insert_label /\
    label_i 8 [4; 4; 4; 4; 4; 4; 4; 4] = [772; 772; 772; 772; 772; 772; 772; 4].
Proof.
  intros. subst b. unfold align_step. cbv zeta.
  repeat match goal with
         | |- context [let '(_, _) := ?c in _] => destruct c
         end.
  cbn [t_band _i1 _i2].
  repeat split; try apply label_i_low_bits; discriminate.
Qed.

(** ** Scores and sets of alignments *)

Lemma tracks_iff (v : Z) (P P' : Z -> Prop) :
  (forall c, P c <-> P' c) -> tracks v P -> tracks v P'.
Proof.
  intros Hiff [Hlow Hatt]. split.
  - intros c Hc. apply Hlow. apply Hiff. exact Hc.
  - intros Hv. destruct (Hatt Hv) as [c [Hc Hvc]]. exists c. split; [apply Hiff|]; assumption.
Qed.

Lemma tracks_empty (v : Z) (P : Z -> Prop) :
  (forall c, ~ P c) -> infinity <= v -> tracks v P.
Proof.
  intros Hno Hv. split.
  - intros c Hc. destruct (Hno c Hc).
  - lia.
Qed.

Lemma tracks_saturated (v : Z) (P : Z -> Prop) :
  (forall c, ~ P c) -> tracks v P -> infinity <= v.
Proof.
  intros Hno [_ Hatt].
  destruct (Z.lt_ge_cases v infinity) as [Hlt|Hge]; [|exact Hge].
  destruct (Hatt Hlt) as [c [Hc _]]. destruct (Hno c Hc).
Qed.

Lemma tracks_min (v1 v2 : Z) (P1 P2 : Z -> Prop) :
  tracks v1 P1 -> tracks v2 P2 -> tracks (Z.min v1 v2) (fun c => P1 c \/ P2 c).
Proof.
  intros [L1 A1] [L2 A2]. split.
  - intros c [Hc|Hc]; [specialize (L1 c Hc) | specialize (L2 c Hc)]; lia.
  - intros Hv. destruct (Z.le_ge_cases v1 v2) as [Hle|Hle].
    + rewrite Z.min_l in * by exact Hle.
      destruct (A1 Hv) as [c [Hc E]]. exists c. auto.
    + rewrite Z.min_r in * by exact Hle.
      destruct (A2 Hv) as [c [Hc E]]. exists c. auto.
Qed.

Lemma tracks_add (v e : Z) (P : Z -> Prop) :
  tracks v P -> 0 <= e ->
  tracks (v + 4 * e) (fun c' => exists c, P c /\ c' = c + e).
Proof.
  intros [L A] He. split.
  - intros c' [c [Hc ->]]. specialize (L c Hc). unfold enc in *. lia.
  - intros Hv. destruct A as [c [Hc E]]; [lia|].
    exists (c + e). split; [exists c; auto|]. unfold enc in *. lia.
Qed.

Lemma tracks_start : tracks (- bitmask) (fun c => c = 0).
Proof.
  split.
  - intros c ->. unfold enc, bitmask, infinity. lia.
  - intros _. exists 0. split; reflexivity.
Qed.

(** A value that stands for a set every element of which is matched by a
    smaller or equal one of [P] changes nothing. *)
Lemma tracks_min_dominated (v m : Z) (P P' : Z -> Prop) :
  tracks m P -> tracks v P' ->
  (forall c, P' c -> exists c', P c' /\ c' <= c) ->
  tracks (Z.min v m) P.
Proof.
  intros [Lm Am] [Lv Av] Hdom. split.
  - intros c Hc. specialize (Lm c Hc). lia.
  - intros Hlt. destruct (Z.le_ge_cases m v) as [Hle|Hle].
    + rewrite Z.min_r in * by exact Hle. exact (Am Hlt).
    + rewrite Z.min_l in Hlt by exact Hle.
      destruct (Av Hlt) as [c [Hc E]].
      destruct (Hdom c Hc) as [c' [Hc' Hle']].
      specialize (Lm c' Hc'). unfold enc in *.
      replace (Z.min v m) with m by lia. apply Am. lia.
Qed.

(** ** The rules of [aligned], read backwards *)

Section Rules.

Variable band_size : nat.
Variables truth target : list ascii.
Variable qualities : list Z.
Variables gap_open gap_extend : Penalty.
Variable nuc_prior : Z.
Variable lead_gap : bool.

Abbreviation W := (B band_size).
Abbreviation path :=
  (aligned band_size truth target qualities gap_open gap_extend nuc_prior lead_gap).
Abbreviation em := (emission truth target qualities).
Abbreviation gO := (penalty_at truth gap_open).
Abbreviation gE := (penalty_at truth gap_extend).

Abbreviation at_start := (at_start band_size).

Abbreviation any_end := (any_end band_size truth target qualities gap_open gap_extend nuc_prior lead_gap).

Abbreviation gap_source := (gap_source band_size truth target qualities gap_open gap_extend nuc_prior lead_gap).

Lemma aligned_in_band (st : State) (x y c : Z) : path st x y c -> in_band band_size x y.
Proof. intros H. destruct H; assumption. Qed.

Lemma at_start_in_band (x y c : Z) : at_start x y c -> in_band band_size x y.
Proof. unfold at_start, begins_at, in_band. intros (-> & H & _). lia. Qed.

Lemma aligned_match_iff (x y c' : Z) :
  path StM (x + 1) (y + 1) c' <->
  in_band band_size (x + 1) (y + 1) /\ exists c, any_end x y c /\ c' = c + em x y.
Proof.
  split.
  - intros H. split; [exact (aligned_in_band _ _ _ _ H)|].
    inversion H as [x1 Hb Hin E1 E2 E3| | |st x1 y1 c Hsrc Hin E1 E2 E3| | | |].
    + assert (x1 = x) as -> by lia. assert (y = 0) as -> by lia.
      exists 0. split; [left; unfold at_start; auto | lia].
    + assert (x1 = x) as -> by lia. assert (y1 = y) as -> by lia.
      exists c. split; [right; exists st; exact Hsrc | reflexivity].
  - intros [Hin [c [[(-> & Hb & ->) | [st Hsrc]] ->]]].
    + exact (begin_match _ _ _ _ _ _ _ _ x Hb Hin).
    + exact (match_bases _ _ _ _ _ _ _ _ st x y c Hsrc Hin).
Qed.

Lemma aligned_insert_iff (x y c' : Z) :
  path StI x (y + 1) c' <->
  in_band band_size x (y + 1) /\
  ((exists c, gap_source x y c /\ c' = c + gO (x - 1) + nuc_prior) \/
   (exists c, path StI x y c /\ c' = c + gE (x - 1) + nuc_prior)).
Proof.
  split.
  - intros H. split; [exact (aligned_in_band _ _ _ _ H)|].
    inversion H as [|x1 Hb Hlead Hin E1 E2 E3| | |x1 y1 c Hsrc Hin E1 E2 E3
                    |x1 y1 c Hsrc Hin E1 E2 E3| |].
    + assert (y = 0) as -> by lia.
      left. exists 0. split; [right; unfold at_start; auto | lia].
    + assert (y1 = y) as -> by lia.
      left. exists c. split; [left; exact Hsrc | reflexivity].
    + assert (y1 = y) as -> by lia.
      right. exists c. split; [exact Hsrc | reflexivity].
  - intros [Hin [[c [[Hsrc | [(-> & Hb & ->) Hlead]] ->]] | [c [Hsrc ->]]]].
    + exact (insert_open _ _ _ _ _ _ _ _ x y c Hsrc Hin).
    + exact (begin_insert _ _ _ _ _ _ _ _ x Hb Hlead Hin).
    + exact (insert_extend _ _ _ _ _ _ _ _ x y c Hsrc Hin).
Qed.

Lemma aligned_delete_iff (x y c' : Z) :
  path StD (x + 1) y c' <->
  in_band band_size (x + 1) y /\
  ((exists c, (gap_source x y c \/ path StI x y c) /\ c' = c + gO x) \/
   (exists c, path StD x y c /\ c' = c + gE x)).
Proof.
  split.
  - intros H. split; [exact (aligned_in_band _ _ _ _ H)|].
    inversion H as [| |x1 Hb Hlead Hin E1 E2 E3| | |
                    |st x1 y1 c Hsrc Hst Hin E1 E2 E3|x1 y1 c Hsrc Hin E1 E2 E3].
    + assert (x1 = x) as -> by lia. subst y.
      left. exists 0. split; [left; right; unfold at_start; auto | lia].
    + assert (x1 = x) as -> by lia. subst y1.
      left. exists c. split; [|reflexivity].
      destruct st; [left; left; exact Hsrc | right; exact Hsrc | congruence].
    + assert (x1 = x) as -> by lia. subst y1.
      right. exists c. split; [exact Hsrc | reflexivity].
  - intros [Hin [[c [[[Hsrc | [(-> & Hb & ->) Hlead]] | Hsrc] ->]] | [c [Hsrc ->]]]].
    + exact (delete_open _ _ _ _ _ _ _ _ StM x y c Hsrc ltac:(discriminate) Hin).
    + exact (begin_delete _ _ _ _ _ _ _ _ x Hb Hlead Hin).
    + exact (delete_open _ _ _ _ _ _ _ _ StI x y c Hsrc ltac:(discriminate) Hin).
    + exact (delete_extend _ _ _ _ _ _ _ _ x y c Hsrc Hin).
Qed.

End Rules.

(** ** Lanes of the vector operations *)

Lemma lane_add (a b : VectorType) (k : nat) :
  (k < length a)%nat -> (k < length b)%nat ->
  lane (_add a b) k = wrap16 (lane a k + lane b k).
Proof. apply lane_lanewise. Qed.

Lemma lane_min (a b : VectorType) (k : nat) :
  (k < length a)%nat -> (k < length b)%nat ->
  lane (_min a b) k = Z.min (lane a k) (lane b k).
Proof. apply lane_lanewise. Qed.

Lemma lane_insert (v : VectorType) (x n : Z) (k : nat) :
  (k < length v)%nat -> 0 <= n ->
  lane (_insert v x n) k = if Z.of_nat k =? n then wrap16 x else lane v k.
Proof.
  intros Hk Hn. unfold _insert. rewrite lane_set_lane.
  apply Nat.ltb_lt in Hk. rewrite Hk, andb_true_r.
  destruct (Nat.eqb_spec k (Z.to_nat n)) as [E|E];
    destruct (Z.eqb_spec (Z.of_nat k) n) as [E'|E']; try reflexivity; lia.
Qed.

Lemma lane_left_shift_slot (v : VectorType) (k : nat) :
  Forall is_int16 v -> (k < length v)%nat ->
  lane (_left_shift score_bytes v) k =
  match k with O => 0 | S j => lane v j end.
Proof.
  intros Hv Hk. rewrite left_shift_slot by exact Hv.
  unfold lane. rewrite nth_firstn.
  apply Nat.ltb_lt in Hk. rewrite Hk.
  destruct k; reflexivity.
Qed.

(** The patch [_or(_initmask2, _andnot(_initmask, m))], lines 121-122. *)
Lemma lane_patch (im im2 m : VectorType) (k : nat) (here : bool) :
  (k < length im)%nat -> (k < length im2)%nat -> (k < length m)%nat ->
  lane im k = (if here then -1 else 0) ->
  lane im2 k = (if here then - bitmask else 0) ->
  lane (_or im2 (_andnot im m)) k = if here then - bitmask else lane m k.
Proof.
  intros H1 H2 H3 E1 E2.
  unfold _or, _andnot.
  rewrite lane_lanewise by (rewrite ?length_lanewise; lia).
  rewrite lane_lanewise by lia.
  rewrite E1, E2. destruct here.
  - change (Z.lnot (-1)) with 0. rewrite Z.land_0_l. reflexivity.
  - change (Z.lnot 0) with (-1). rewrite Z.land_m1_l. reflexivity.
Qed.

(** The mismatch penalty
    [_min(_andnot(_cmpeq(target, truth), qualities), truthnqual)]. *)
Lemma lane_mismatch (tg tw qq nq : VectorType) (k : nat) :
  (k < length tg)%nat -> (k < length tw)%nat ->
  (k < length qq)%nat -> (k < length nq)%nat ->
  lane (_min (_andnot (_cmpeq tg tw) qq) nq) k =
  Z.min (if lane tg k =? lane tw k then 0 else lane qq k) (lane nq k).
Proof.
  intros H1 H2 H3 H4.
  unfold _min, _andnot, _cmpeq.
  rewrite lane_lanewise by (rewrite ?length_lanewise; lia).
  rewrite lane_lanewise by (rewrite ?length_lanewise; lia).
  rewrite lane_lanewise by lia.
  destruct (lane tg k =? lane tw k).
  - change (Z.lnot (-1)) with 0. rewrite Z.land_0_l. reflexivity.
  - change (Z.lnot 0) with (-1). rewrite Z.land_m1_l. reflexivity.
Qed.

Lemma lane_map_seq (f : nat -> Z) (n k : nat) :
  (k < n)%nat -> lane (map f (seq 0 n)) k = f k.
Proof.
  intros Hk. unfold lane.
  rewrite (nth_indep _ 0 (f 0%nat)) by (rewrite length_map, length_seq; exact Hk).
  rewrite map_nth, seq_nth by exact Hk. reflexivity.
Qed.

Lemma lane_vectorise (n : nat) (x : Z) (k : nat) :
  (k < n)%nat -> lane (vectorise n x) k = wrap16 x.
Proof. apply lane_repeat. Qed.

Lemma lane_zero_set_last (n : nat) (x : Z) (k : nat) :
  (k < n)%nat ->
  lane (vectorise_zero_set_last n x) k = if Z.of_nat k =? 0 then wrap16 x else 0.
Proof.
  intros Hk. unfold vectorise_zero_set_last.
  destruct n as [|n]; [lia|].
  destruct k as [|k]; [reflexivity|].
  change (lane (wrap16 x :: repeat 0 n) (S k)) with (lane (repeat 0 n) k).
  rewrite lane_repeat by lia.
  destruct (Z.eqb_spec (Z.of_nat (S k)) 0); [lia | reflexivity].
Qed.

Lemma length_zero_set_last (n : nat) (x : Z) : length (vectorise_zero_set_last n x) = n.
Proof.
  unfold vectorise_zero_set_last. destruct n; [reflexivity|].
  simpl. rewrite repeat_length. reflexivity.
Qed.

Lemma shiftl_2 (z : Z) : Z.shiftl z 2 = 4 * z.
Proof. rewrite Z.shiftl_mul_pow2 by lia. change (2 ^ 2) with 4. lia. Qed.

Ltac arith := unfold bitmask, infinity, is_int16, max_n_quality in *; lia.

(** ** The band recurrence of the score-only overload *)

Section Recurrence.

Variable band_size : nat.
Variable extract_oob : VectorType -> Z -> Z.
Variables truth target : list ascii.
Variable qualities : list Z.
Variables gap_open gap_extend : Penalty.
Variable nuc_prior : Z.

Abbreviation W := (B band_size).
Abbreviation T_len := (truth_len truth).
Abbreviation Q_len := (target_len target).
Abbreviation NP := (_nuc_prior band_size nuc_prior).

Abbreviation targetwin' := (targetwin' target).

Abbreviation qualitieswin' := (qualitieswin' target qualities).

Abbreviation m1' := (m1' target qualities).

Abbreviation i1' := (i1' band_size nuc_prior).

Abbreviation next_base := (next_base band_size truth).

Abbreviation truthwin' := (truthwin' band_size truth).

Abbreviation truthnqual' := (truthnqual' band_size truth).

Abbreviation gap_idx := (gap_idx band_size truth).

Abbreviation gap_open' := (gap_open' band_size truth gap_open).
Abbreviation gap_extend' := (gap_extend' band_size truth gap_extend).

Abbreviation m2' := (m2' band_size truth target qualities).

Abbreviation d2' := (d2' band_size truth target qualities gap_open gap_extend nuc_prior).

Abbreviation i2' := (i2' band_size truth target qualities gap_open gap_extend nuc_prior).

Abbreviation band' := (band' band_size truth target qualities gap_open gap_extend nuc_prior).

Abbreviation minscore' := (minscore' band_size extract_oob target).

Lemma score_step_eq (t : Z) (b : Band) (minscore : Z) :
  score_step band_size extract_oob truth target qualities gap_open gap_extend nuc_prior
             (2 * t) (b, minscore) =
  (band' t b, minscore' t b minscore).
Proof.
  unfold score_step.
  replace (2 * t / 2) with t by (rewrite Z.mul_comm, Z.div_mul; lia).
  reflexivity.
Qed.

(** *** What is assumed of the penalties *)

Variables Qm Gm g : Z.

Hypothesis Hshape : shape_ok band_size truth target = true.
Hypothesis Hlanes : (1 <= band_size)%nat.
Hypothesis Hqual : forall y, 0 <= y < Q_len -> 0 <= int8_at qualities y <= Qm.
Hypothesis Hopen : forall x, 0 <= x < T_len -> 0 <= penalty_at truth gap_open x <= Gm.
Hypothesis Hext : forall x, 0 <= x < T_len -> penalty_at truth gap_extend x = g.
Hypothesis Hg : 0 <= g.
Hypothesis Hprior : 0 <= nuc_prior.
Hypothesis Hbudget :
  4 * ((2 * W + 1) * g + Z.max Qm max_n_quality + Gm + nuc_prior) <= 2047.

Abbreviation path := (aligned band_size truth target qualities gap_open gap_extend nuc_prior false).
Abbreviation ends := (any_end band_size truth target qualities gap_open gap_extend nuc_prior false).
Abbreviation opens := (gap_source band_size truth target qualities gap_open gap_extend nuc_prior false).
Abbreviation em := (emission truth target qualities).
Abbreviation gO := (penalty_at truth gap_open).
Abbreviation gE := (penalty_at truth gap_extend).
Abbreviation Em := (Z.max Qm max_n_quality).

Lemma sizes : 1 <= W /\ W < T_len /\ T_len = Q_len + 2 * W - 1 /\ 0 <= Q_len.
Proof.
  pose proof (shape_ok_true band_size truth target Hshape).
  unfold B, target_len in *. lia.
Qed.

Lemma penalty_at_clamp (p : Penalty) (x : Z) :
  penalty_at truth p x = penalty_at truth p (if x <? T_len then x else T_len - 1).
Proof.
  destruct p as [source|source]; [|reflexivity].
  unfold penalty_at.
  destruct (Z.ltb_spec x T_len) as [H|H].
  - apply Z.ltb_lt in H. rewrite H. reflexivity.
  - replace (T_len - 1 <? T_len) with true by (symmetry; apply Z.ltb_lt; lia).
    reflexivity.
Qed.

Lemma open_range (x : Z) : 0 <= x -> 0 <= gO x <= Gm.
Proof.
  intros Hx. rewrite penalty_at_clamp. apply Hopen.
  pose proof sizes. destruct (Z.ltb_spec x T_len); lia.
Qed.

Lemma extend_value (x : Z) : 0 <= x -> gE x = g.
Proof.
  intros Hx. rewrite penalty_at_clamp. apply Hext.
  pose proof sizes. destruct (Z.ltb_spec x T_len); lia.
Qed.

Lemma quality_range (y : Z) : 0 <= y -> 0 <= quality_at target qualities y <= Em.
Proof.
  intros Hy. unfold quality_at, max_n_quality.
  destruct (Z.ltb_spec y Q_len) as [H|H]; [|lia].
  pose proof (Hqual y). lia.
Qed.

Lemma emission_range (x y : Z) : 0 <= y -> 0 <= em x y <= Em.
Proof.
  intros Hy. unfold emission. pose proof (quality_range y Hy).
  destruct (_ =? _); [lia|]. destruct (_ =? _); lia.
Qed.

Lemma budget_parts : 0 <= 4 * g /\ 256 <= 4 * Em /\ 0 <= 4 * Gm /\ 0 <= 4 * nuc_prior.
Proof.
  pose proof sizes. pose proof (open_range 0 ltac:(lia)). unfold max_n_quality. lia.
Qed.

(** The room [j] half-steps of gap extension take above [infinity]. *)
Lemma extension_room (j : Z) : 0 <= j <= 2 * W + 1 -> 0 <= j * (4 * g) <= (2 * W + 1) * (4 * g).
Proof.
  intros Hj. split.
  - apply Z.mul_nonneg_nonneg; lia.
  - apply Z.mul_le_mono_nonneg_r; lia.
Qed.

(** *** Cells that nothing ends in *)

Lemma ends_in_band (x y c : Z) : ends x y c -> in_band band_size x y.
Proof.
  intros [H|[st H]].
  - exact (at_start_in_band _ _ _ _ H).
  - exact (aligned_in_band _ _ _ _ _ _ _ _ _ _ _ _ H).
Qed.

Lemma opens_in_band (x y c : Z) : opens x y c -> in_band band_size x y.
Proof.
  intros [H|[H _]].
  - exact (aligned_in_band _ _ _ _ _ _ _ _ _ _ _ _ H).
  - exact (at_start_in_band _ _ _ _ H).
Qed.

Lemma no_match_row0 (x y c : Z) : y <= 0 -> ~ path StM x y c.
Proof.
  intros Hy H. replace x with (x - 1 + 1) in H by lia. replace y with (y - 1 + 1) in H by lia.
  apply aligned_match_iff in H. destruct H as [_ [c0 [H _]]].
  apply ends_in_band in H. unfold in_band in H. lia.
Qed.

Lemma no_insert_row0 (x y c : Z) : y <= 0 -> ~ path StI x y c.
Proof.
  intros Hy H. replace y with (y - 1 + 1) in H by lia.
  apply aligned_insert_iff in H. destruct H as [_ [[c0 [H _]]|[c0 [H _]]]].
  - apply opens_in_band in H. unfold in_band in H. lia.
  - apply aligned_in_band in H. unfold in_band in H. lia.
Qed.

Lemma no_insert_edge (x y c : Z) : 2 * W - 1 <= x - y -> ~ path StI x y c.
Proof.
  intros Hy H. replace y with (y - 1 + 1) in H by lia.
  apply aligned_insert_iff in H. destruct H as [_ [[c0 [H _]]|[c0 [H _]]]].
  - apply opens_in_band in H. unfold in_band in H. lia.
  - apply aligned_in_band in H. unfold in_band in H. lia.
Qed.

Lemma no_delete_diagonal (x y c : Z) : x - y <= 0 -> ~ path StD x y c.
Proof.
  intros Hy H. replace x with (x - 1 + 1) in H by lia.
  apply aligned_delete_iff in H. destruct H as [_ [[c0 [[H|H] _]]|[c0 [H _]]]].
  - apply opens_in_band in H. unfold in_band in H. lia.
  - apply aligned_in_band in H. unfold in_band in H. lia.
  - apply aligned_in_band in H. unfold in_band in H. lia.
Qed.

Lemma no_path_below (st : State) (x y c : Z) : y < 0 -> ~ path st x y c.
Proof. intros Hy H. apply aligned_in_band in H. unfold in_band in H. lia. Qed.

(** No alignment begins with a deletion at truth offset 0. *)
Lemma no_delete_origin (c : Z) : ~ path StD 1 0 c.
Proof.
  intros H. change 1 with (0 + 1) in H.
  apply aligned_delete_iff in H. destruct H as [_ [[c0 [[[H|[_ [H|H]]]|H] _]]|[c0 [H _]]]].
  - exact (no_match_row0 0 0 c0 ltac:(lia) H).
  - discriminate H.
  - discriminate H.
  - exact (no_insert_row0 0 0 c0 ltac:(lia) H).
  - exact (no_delete_diagonal 0 0 c0 ltac:(lia) H).
Qed.

(** A gap opens after a match, or, in row 0, at an odd truth offset. *)
Lemma opens_even (x y c : Z) : Z.even (x + y) = true -> opens x y c <-> path StM x y c.
Proof.
  intros Hev. split; [|intros H; left; exact H].
  intros [H|[[-> _] [H|H]]]; [exact H | discriminate H |].
  rewrite Z.add_0_r, <- Z.negb_odd, H in Hev. discriminate Hev.
Qed.

Lemma opens_odd (x y c : Z) :
  Z.odd (x + y) = true -> opens x y c <-> (path StM x y c \/ at_start band_size x y c).
Proof.
  intros Hodd. split.
  - intros [H|[H _]]; [left|right]; exact H.
  - intros [H|H]; [left; exact H|]. right. split; [exact H|].
    right. destruct H as [-> _]. rewrite Z.add_0_r in Hodd. exact Hodd.
Qed.

(** *** Past the last target base *)

(** An alignment that reaches a row at or past the end of the target passed
    through row [Q_len] at no greater a penalty. *)
Lemma exit_before (st : State) (x y c : Z) :
  path st x y c -> Q_len <= y ->
  exists x' c', ends x' Q_len c' /\ c' <= c.
Proof.
  pose proof sizes as Hsz.
  assert (Hself : forall st x y c, path st x y c -> y = Q_len ->
                   exists x' c', ends x' Q_len c' /\ c' <= c).
  { intros st0 x0 y0 c0 H ->. exists x0, c0. split; [right; exists st0; exact H | lia]. }
  assert (Hstart : forall x c, begins_at band_size x -> Q_len = 0 -> 0 <= c ->
                   exists x' c', ends x' Q_len c' /\ c' <= c).
  { intros x0 c0 Hb HQ Hc. exists x0, 0. split; [|exact Hc].
    left. unfold at_start. auto. }
  intros H. induction H as [x Hb Hin|x Hb Hl Hin|x Hb Hl Hin|st x y c H IH Hin
                            |x y c H IH Hin|x y c H IH Hin|st x y c H IH Hst Hin
                            |x y c H IH Hin]; intros HQ.
  - destruct (Z.eq_dec 1 Q_len) as [E|E].
    + apply (Hself StM (x + 1) 1); [apply begin_match; assumption | exact E].
    + apply (Hstart x); [exact Hb | lia | apply emission_range; lia].
  - destruct (Z.eq_dec 1 Q_len) as [E|E].
    + apply (Hself StI x 1); [apply begin_insert; assumption | exact E].
    + apply (Hstart x); [exact Hb | lia |].
      unfold in_band in Hin. pose proof (open_range (x - 1)). lia.
  - apply (Hself StD (x + 1) 0); [apply begin_delete; assumption|]. lia.
  - destruct (Z.eq_dec (y + 1) Q_len) as [E|E].
    + apply (Hself StM (x + 1) (y + 1)); [eapply match_bases; eassumption | exact E].
    + destruct IH as [x' [c' [He Hc]]]; [lia|].
      exists x', c'. split; [exact He|].
      apply aligned_in_band in H. unfold in_band in H.
      pose proof (emission_range x y). lia.
  - destruct (Z.eq_dec (y + 1) Q_len) as [E|E].
    + apply (Hself StI x (y + 1)); [eapply insert_open; eassumption | exact E].
    + destruct IH as [x' [c' [He Hc]]]; [lia|].
      exists x', c'. split; [exact He|].
      unfold in_band in Hin. pose proof (open_range (x - 1)). lia.
  - destruct (Z.eq_dec (y + 1) Q_len) as [E|E].
    + apply (Hself StI x (y + 1)); [eapply insert_extend; eassumption | exact E].
    + destruct IH as [x' [c' [He Hc]]]; [lia|].
      exists x', c'. split; [exact He|].
      unfold in_band in Hin. pose proof (extend_value (x - 1)). lia.
  - destruct IH as [x' [c' [He Hc]]]; [lia|].
    exists x', c'. split; [exact He|].
    apply aligned_in_band in H. unfold in_band in H.
    pose proof (open_range x). lia.
  - destruct IH as [x' [c' [He Hc]]]; [lia|].
    exists x', c'. split; [exact He|].
    apply aligned_in_band in H. unfold in_band in H.
    pose proof (extend_value x). lia.
Qed.

Lemma exit_before_end (x y c : Z) :
  ends x y c -> Q_len <= y -> exists x' c', ends x' Q_len c' /\ c' <= c.
Proof.
  intros [(-> & Hb & ->)|[st H]] HQ.
  - pose proof sizes. exists x, 0. split; [|lia].
    replace Q_len with 0 by lia. left. unfold at_start. auto.
  - exact (exit_before st x y c H HQ).
Qed.

(** *** The invariant of the loop *)

Abbreviation windows_inv := (windows_inv band_size truth target qualities gap_open gap_extend Qm).

Abbreviation cells_inv := (cells_inv band_size truth target qualities gap_open gap_extend nuc_prior Qm Gm g).

Abbreviation exits_before := (exits_before band_size truth target qualities gap_open gap_extend nuc_prior).

Abbreviation minscore_inv := (minscore_inv band_size truth target qualities gap_open gap_extend nuc_prior).

(** *** Before the first iteration *)

Lemma lane_gap_window_init (p : Penalty) (k : nat) :
  (k < band_size)%nat ->
  (forall x, 0 <= x -> 0 <= 4 * penalty_at truth p x <= 32767) ->
  lane (vectorise_reverse_lshift band_size p trace_bits) k =
  4 * penalty_at truth p (0 + Z.of_nat k).
Proof.
  intros Hk Hr. pose proof sizes as Hsz.
  specialize (Hr (Z.of_nat k) ltac:(lia)). rewrite Z.add_0_l.
  destruct p as [source|source]; unfold vectorise_reverse_lshift.
  - unfold Simd.vectorise_reverse_lshift_ptr.
    rewrite (lane_map_seq (fun k => wrap16 (Z.shiftl (int8_at source (Z.of_nat k)) trace_bits)))
      by exact Hk.
    unfold penalty_at in *. unfold trace_bits. rewrite shiftl_2.
    replace (Z.of_nat k <? T_len) with true in * by (symmetry; apply Z.ltb_lt; unfold B in *; lia).
    apply wrap16_small. arith.
  - unfold Simd.vectorise_reverse_lshift_val. rewrite lane_vectorise by exact Hk.
    unfold penalty_at in *. unfold trace_bits. rewrite shiftl_2.
    apply wrap16_small. arith.
Qed.

Lemma length_gap_window_init (p : Penalty) :
  length (vectorise_reverse_lshift band_size p trace_bits) = band_size.
Proof.
  destruct p; unfold vectorise_reverse_lshift.
  - unfold Simd.vectorise_reverse_lshift_ptr. rewrite length_map, length_seq. reflexivity.
  - apply length_vectorise.
Qed.

Lemma open_fits (x : Z) : 0 <= x -> 0 <= 4 * gO x <= 32767.
Proof.
  intros Hx. pose proof (open_range x Hx). pose proof budget_parts.
  pose proof (extension_room (2 * W + 1)). pose proof sizes. arith.
Qed.

Lemma extend_fits (x : Z) : 0 <= x -> 0 <= 4 * gE x <= 32767.
Proof.
  intros Hx. rewrite (extend_value x Hx). pose proof budget_parts.
  pose proof (extension_room 1). pose proof (extension_room (2 * W + 1)).
  pose proof sizes. pose proof (open_range 0). arith.
Qed.

Lemma windows_init : windows_inv 0 (init_band band_size truth gap_open gap_extend).
Proof.
  pose proof sizes as Hsz.
  pose proof (init_band_truthnqual band_size truth gap_open gap_extend) as (Hl1 & Hl2 & _ & Hnq).
  split; try exact Hl1; try exact Hl2;
    try (cbn [init_band _m1 _i1 _d1 _m2 _i2 _d2 _initmask _initmask2 _targetwin
              _qualitieswin _gap_open _gap_extend];
         first [ apply length_vectorise | apply length_zero_set_last
               | apply length_gap_window_init ]).
  - intros k Hk. cbn [init_band _truthwin]. unfold Simd.vectorise_reverse.
    rewrite (lane_map_seq (fun k => char_to_int (char_at truth (Z.of_nat k)))) by exact Hk.
    unfold truth_base.
    replace (0 + Z.of_nat k <? T_len) with true by (symmetry; apply Z.ltb_lt; unfold B in *; lia).
    reflexivity.
  - exact Hnq.
  - intros k Hk. cbn [init_band _targetwin]. unfold _inf. rewrite lane_vectorise by exact Hk.
    apply wrap16_range.
  - intros k Hk. cbn [init_band _qualitieswin]. rewrite lane_vectorise by exact Hk.
    pose proof budget_parts. change (wrap16 (Z.shiftl max_n_quality trace_bits)) with 256. lia.
  - intros k Hk Hlt. lia.
  - intros k Hk Hlt. lia.
  - intros k Hk. cbn [init_band _gap_open].
    apply lane_gap_window_init; [exact Hk | exact open_fits].
  - intros k Hk. cbn [init_band _gap_extend].
    apply lane_gap_window_init; [exact Hk | exact extend_fits].
  - intros k Hk. cbn [init_band _initmask]. apply lane_zero_set_last. exact Hk.
  - intros k Hk. cbn [init_band _initmask2]. apply lane_zero_set_last. exact Hk.
Qed.

Lemma cells_init : cells_inv 0 (init_band band_size truth gap_open gap_extend).
Proof.
  pose proof budget_parts as Hb.
  assert (Hinf : forall k, (k < band_size)%nat -> lane (_inf band_size) k = infinity).
  { intros k Hk. unfold _inf. rewrite lane_vectorise by exact Hk. reflexivity. }
  assert (Hroom : forall k, (k < band_size)%nat ->
                  0 <= (2 * Z.of_nat k) * (4 * g) /\ 0 <= (2 * Z.of_nat k + 1) * (4 * g) /\
                  0 <= (2 * Z.of_nat k + 2) * (4 * g)).
  { intros k Hk. repeat split; apply Z.mul_nonneg_nonneg; lia. }
  split; intros k Hk; cbn [init_band _m1 _i1 _d1 _m2 _i2 _d2]; rewrite (Hinf k Hk);
    try (specialize (Hroom k Hk); arith);
    (apply tracks_empty; [intros c H|lia]).
  - refine (no_match_row0 _ _ _ _ H); lia.
  - refine (no_insert_row0 _ _ _ _ H); lia.
  - destruct k as [|k].
    + refine (no_delete_diagonal _ _ _ _ H); lia.
    + refine (no_path_below _ _ _ _ _ H); lia.
  - refine (no_match_row0 _ _ _ _ H); lia.
  - refine (no_insert_row0 _ _ _ _ H); lia.
  - destruct k as [|k].
    + exact (no_delete_origin c H).
    + refine (no_path_below _ _ _ _ _ H); lia.
Qed.

Lemma minscore_init : minscore_inv 0 infinity.
Proof.
  split; [|arith].
  apply tracks_empty; [|lia].
  intros c [x [H Hlt]]. apply ends_in_band in H. unfold in_band in H. lia.
Qed.

Lemma quality_fits_all (y : Z) :
  0 <= y -> 0 <= 4 * quality_at target qualities y <= 2047.
Proof.
  intros Hy. pose proof (quality_range y Hy). pose proof Hbudget.
  pose proof (extension_room (2 * W + 1)). pose proof sizes. pose proof (open_range 0). arith.
Qed.

(** *** The rules, by what a cell is reached from *)

Lemma match_sources (x y c' : Z) :
  path StM (x + 1) (y + 1) c' <-> exists c, ends x y c /\ c' = c + em x y.
Proof.
  rewrite aligned_match_iff. split.
  - intros [_ H]. exact H.
  - intros [c [H E]]. split; [|exists c; auto].
    apply ends_in_band in H. unfold in_band in *. lia.
Qed.

Lemma insert_sources (x y c' : Z) :
  1 <= x - y ->
  path StI x (y + 1) c' <->
  (exists c, path StI x y c /\ c' = c + (g + nuc_prior)) \/
  (exists c, opens x y c /\ c' = c + (gO (x - 1) + nuc_prior)).
Proof.
  intros Hoff. rewrite aligned_insert_iff. split.
  - intros [Hin [[c [H E]]|[c [H E]]]].
    + right. exists c. split; [exact H | lia].
    + left. exists c. split; [exact H|].
      pose proof (aligned_in_band _ _ _ _ _ _ _ _ _ _ _ _ H) as Hsrc.
      unfold in_band in Hsrc. rewrite extend_value in E by lia. lia.
  - intros [[c [H E]]|[c [H E]]].
    + pose proof (aligned_in_band _ _ _ _ _ _ _ _ _ _ _ _ H) as Hin. unfold in_band in Hin.
      split; [unfold in_band; lia|].
      right. exists c. split; [exact H|]. rewrite extend_value by lia. lia.
    + pose proof (opens_in_band _ _ _ H) as Hin. unfold in_band in Hin.
      split; [unfold in_band; lia|].
      left. exists c. split; [exact H | lia].
Qed.

Lemma delete_sources (x y c' : Z) :
  x - y + 1 <= 2 * W - 1 ->
  path StD (x + 1) y c' <->
  (exists c, path StD x y c /\ c' = c + g) \/
  (exists c, (opens x y c \/ path StI x y c) /\ c' = c + gO x).
Proof.
  intros Hoff. rewrite aligned_delete_iff. split.
  - intros [Hin [[c [H E]]|[c [H E]]]].
    + right. exists c. split; [exact H | lia].
    + left. exists c. split; [exact H|].
      apply aligned_in_band in H. unfold in_band in H. rewrite extend_value in E by lia. lia.
  - intros [[c [H E]]|[c [H E]]].
    + pose proof (aligned_in_band _ _ _ _ _ _ _ _ _ _ _ _ H) as Hin. unfold in_band in Hin.
      split; [unfold in_band; lia|].
      right. exists c. split; [exact H|]. rewrite extend_value by lia. lia.
    + assert (Hin : in_band band_size x y).
      { destruct H as [H|H]; [exact (opens_in_band _ _ _ H)|].
        exact (aligned_in_band _ _ _ _ _ _ _ _ _ _ _ _ H). }
      unfold in_band in Hin.
      split; [unfold in_band; lia|].
      left. exists c. split; [exact H | lia].
Qed.

Lemma match_step (v x y : Z) :
  tracks v (ends x y) -> 0 <= y -> tracks (v + 4 * em x y) (path StM (x + 1) (y + 1)).
Proof.
  intros Hv Hy.
  apply (tracks_iff _ (fun c' => exists c, ends x y c /\ c' = c + em x y)).
  - intros c'. symmetry. apply match_sources.
  - apply tracks_add; [exact Hv | apply emission_range, Hy].
Qed.

Lemma insert_step (vi vm x y : Z) :
  tracks vi (path StI x y) -> tracks vm (opens x y) -> 1 <= x - y -> 1 <= x ->
  tracks (Z.min (vi + 4 * g) (vm + 4 * gO (x - 1)) + 4 * nuc_prior) (path StI x (y + 1)).
Proof.
  intros Hi Hm Hoff Hx.
  replace (Z.min (vi + 4 * g) (vm + 4 * gO (x - 1)) + 4 * nuc_prior)
    with (Z.min (vi + 4 * (g + nuc_prior)) (vm + 4 * (gO (x - 1) + nuc_prior))) by lia.
  eapply tracks_iff; [intros c'; symmetry; apply (insert_sources x y c' Hoff)|].
  pose proof (open_range (x - 1)).
  apply tracks_min; apply tracks_add; try assumption; lia.
Qed.

Lemma delete_step (vd vm vi x y : Z) :
  tracks vd (path StD x y) -> tracks vm (opens x y) -> tracks vi (path StI x y) ->
  0 <= x -> x - y + 1 <= 2 * W - 1 ->
  tracks (Z.min (vd + 4 * g) (Z.min vm vi + 4 * gO x)) (path StD (x + 1) y).
Proof.
  intros Hd Hm Hi Hx Hoff.
  eapply tracks_iff; [intros c'; symmetry; apply (delete_sources x y c' Hoff)|].
  pose proof (open_range x).
  apply tracks_min; apply tracks_add; try assumption; try lia.
  apply tracks_min; assumption.
Qed.

Lemma tracks_cell (v : Z) (st : State) (x y x' y' : Z) :
  tracks v (path st x y) -> x = x' -> y = y' -> tracks v (path st x' y').
Proof. intros H -> ->. exact H. Qed.

(** The penalty of a base pair, in lane units. *)
Lemma mismatch_value (tg tw qq nq x y : Z) :
  tw = char_to_int (truth_base truth x) -> nq = nqual_of tw ->
  tg = char_to_int (target_base target y) -> qq = 4 * quality_at target qualities y ->
  0 <= y ->
  Z.min (if tg =? tw then 0 else qq) nq = 4 * em x y.
Proof.
  intros -> -> -> -> Hy. unfold emission, nqual_of.
  pose proof (quality_fits_all y Hy) as Hq.
  change n_score with 8.
  destruct (_ =? _); [destruct (_ =? _); arith|].
  destruct (_ =? _); arith.
Qed.

Lemma mismatch_range (tg tw qq : Z) :
  0 <= qq <= 4 * Em -> 0 <= Z.min (if tg =? tw then 0 else qq) (nqual_of tw) <= 4 * Em.
Proof.
  intros Hq. unfold nqual_of. change n_score with 8. pose proof budget_parts.
  destruct (_ =? _); destruct (_ =? _); arith.
Qed.

(** *** One iteration: the windows *)

Section Step.

Variable t : Z.
Variable b : Band.
Hypothesis Ht : 0 <= t.
Hypothesis Hwin : windows_inv t b.

Lemma int16_lanes (v : VectorType) :
  length v = band_size ->
  (forall k, (k < band_size)%nat -> is_int16 (lane v k)) -> Forall is_int16 v.
Proof. intros Hl H. apply forall_lane. rewrite Hl. exact H. Qed.

Lemma targetwin_int16 : Forall is_int16 (_targetwin b).
Proof. apply int16_lanes; [apply (len_targetwin Hwin) | apply (win_target16 Hwin)]. Qed.

Lemma qualitieswin_int16 : Forall is_int16 (_qualitieswin b).
Proof.
  apply int16_lanes; [apply (len_qualitieswin Hwin)|].
  intros k Hk. pose proof (win_qual_range Hwin k Hk). pose proof Hbudget.
  pose proof (extension_room (2 * W + 1)). pose proof sizes. pose proof (open_range 0). arith.
Qed.

Lemma truthwin_int16 : Forall is_int16 (_truthwin b).
Proof.
  apply int16_lanes; [apply (len_truthwin Hwin)|].
  intros k Hk. rewrite (win_truth Hwin k Hk). apply char_to_int_int16.
Qed.

Lemma truthnqual_ok_now : truthnqual_ok band_size b.
Proof.
  repeat split.
  - apply (len_truthwin Hwin).
  - apply (len_truthnqual Hwin).
  - apply truthwin_int16.
  - apply (win_nqual Hwin).
Qed.

Lemma gap_open_int16 : Forall is_int16 (_gap_open b).
Proof.
  apply int16_lanes; [apply (len_gap_open Hwin)|].
  intros k Hk. rewrite (win_open Hwin k Hk).
  pose proof (open_fits (t + Z.of_nat k)). arith.
Qed.

Lemma gap_extend_int16 : Forall is_int16 (_gap_extend b).
Proof.
  apply int16_lanes; [apply (len_gap_extend Hwin)|].
  intros k Hk. rewrite (win_extend Hwin k Hk).
  pose proof (extend_fits (t + Z.of_nat k)). arith.
Qed.

Lemma initmask_int16 : Forall is_int16 (_initmask b).
Proof.
  apply int16_lanes; [apply (len_initmask Hwin)|].
  intros k Hk. rewrite (win_mask Hwin k Hk). destruct (_ =? _); arith.
Qed.

Lemma initmask2_int16 : Forall is_int16 (_initmask2 b).
Proof.
  apply int16_lanes; [apply (len_initmask2 Hwin)|].
  intros k Hk. rewrite (win_mask2 Hwin k Hk). destruct (_ =? _); arith.
Qed.

Lemma targetwin'_eq :
  targetwin' t b =
  _insert (_left_shift score_bytes (_targetwin b)) (char_to_int (target_base target t)) 0.
Proof. unfold targetwin', target_base. destruct (t <? Q_len); reflexivity. Qed.

Lemma qualitieswin'_eq :
  qualitieswin' t b =
  _insert (_left_shift score_bytes (_qualitieswin b))
          (Z.shiftl (quality_at target qualities t) trace_bits) 0.
Proof. unfold qualitieswin', quality_at. destruct (t <? Q_len); reflexivity. Qed.

Lemma length_targetwin' : length (targetwin' t b) = band_size.
Proof.
  rewrite targetwin'_eq, length_insert, length_left_shift. apply (len_targetwin Hwin).
Qed.

Lemma length_qualitieswin' : length (qualitieswin' t b) = band_size.
Proof.
  rewrite qualitieswin'_eq, length_insert, length_left_shift.
  apply (len_qualitieswin Hwin).
Qed.

Lemma lane_targetwin' (k : nat) :
  (k < band_size)%nat ->
  lane (targetwin' t b) k =
  match k with
  | O => char_to_int (target_base target t)
  | S j => lane (_targetwin b) j
  end.
Proof.
  intros Hk. pose proof (len_targetwin Hwin) as Hl.
  rewrite targetwin'_eq, lane_insert by (rewrite ?length_left_shift; lia).
  destruct k as [|j].
  - apply wrap16_small, char_to_int_int16.
  - destruct (Z.eqb_spec (Z.of_nat (S j)) 0); [lia|].
    apply lane_left_shift_slot; [apply targetwin_int16 | lia].
Qed.

Lemma quality_fits (y : Z) : 0 <= y -> is_int16 (4 * quality_at target qualities y).
Proof.
  intros Hy. pose proof (quality_range y Hy). pose proof Hbudget.
  pose proof (extension_room (2 * W + 1)). pose proof sizes. pose proof (open_range 0). arith.
Qed.

Lemma lane_qualitieswin' (k : nat) :
  (k < band_size)%nat ->
  lane (qualitieswin' t b) k =
  match k with
  | O => 4 * quality_at target qualities t
  | S j => lane (_qualitieswin b) j
  end.
Proof.
  intros Hk. pose proof (len_qualitieswin Hwin) as Hl.
  rewrite qualitieswin'_eq, lane_insert by (rewrite ?length_left_shift; lia).
  destruct k as [|j].
  - unfold trace_bits. rewrite shiftl_2. apply wrap16_small, quality_fits, Ht.
  - destruct (Z.eqb_spec (Z.of_nat (S j)) 0); [lia|].
    apply lane_left_shift_slot; [apply qualitieswin_int16 | lia].
Qed.

Lemma truth_windows' :
  length (truthwin' t b) = band_size /\ length (truthnqual' t b) = band_size /\
  Forall is_int16 (truthwin' t b) /\
  forall k, (k < band_size)%nat ->
            lane (truthnqual' t b) k = nqual_of (lane (truthwin' t b) k).
Proof.
  exact (advance_truthnqual band_size b (next_base t) _ _ truthnqual_ok_now eq_refl eq_refl).
Qed.

Lemma lane_truthwin' (k : nat) :
  (k < band_size)%nat ->
  lane (truthwin' t b) k = char_to_int (truth_base truth (t + 1 + Z.of_nat k)).
Proof.
  intros Hk. pose proof (len_truthwin Hwin) as Hl. pose proof sizes as Hsz.
  unfold truthwin'. rewrite lane_insert by (rewrite ?length_right_shift; lia).
  destruct (Z.eqb_spec (Z.of_nat k) (W - 1)) as [E|E].
  - rewrite wrap16_small by apply char_to_int_int16.
    unfold next_base, truth_base. replace (t + 1 + Z.of_nat k) with (W + t) by lia.
    reflexivity.
  - rewrite lane_right_shift_slot by apply truthwin_int16.
    rewrite (win_truth Hwin (S k)) by (unfold B in *; lia).
    f_equal. f_equal. lia.
Qed.

Lemma lane_update_gap_penalty (p : Penalty) (current : VectorType) (k : nat) :
  length current = band_size ->
  (forall j, (j < band_size)%nat -> lane current j = 4 * penalty_at truth p (t + Z.of_nat j)) ->
  (forall x, 0 <= x -> 0 <= 4 * penalty_at truth p x <= 32767) ->
  (k < band_size)%nat ->
  lane (update_gap_penalty band_size score_bytes current p (gap_idx t)) k =
  4 * penalty_at truth p (t + 1 + Z.of_nat k).
Proof.
  intros Hl Hcur Hfit Hk. pose proof sizes as Hsz.
  destruct p as [source|source]; unfold update_gap_penalty.
  - rewrite lane_insert by (rewrite ?length_right_shift; lia).
    destruct (Z.eqb_spec (Z.of_nat k) (W - 1)) as [E|E].
    + unfold score_bytes. rewrite shiftl_2.
      specialize (Hfit (W + t) ltac:(lia)).
      replace (t + 1 + Z.of_nat k) with (W + t) by lia.
      unfold penalty_at in *. unfold gap_idx.
      apply wrap16_small. arith.
    + rewrite lane_right_shift_slot.
      * rewrite (Hcur (S k)) by (unfold B in *; lia). f_equal. f_equal. lia.
      * apply int16_lanes; [exact Hl|].
        intros j Hj. rewrite (Hcur j Hj).
        specialize (Hfit (t + Z.of_nat j) ltac:(lia)). arith.
  - rewrite (Hcur k Hk). reflexivity.
Qed.

Lemma length_update_gap_penalty (p : Penalty) (current : VectorType) :
  length current = band_size ->
  length (update_gap_penalty band_size score_bytes current p (gap_idx t)) = band_size.
Proof.
  intros Hl. destruct p; unfold update_gap_penalty; [|exact Hl].
  rewrite length_insert, length_right_shift. exact Hl.
Qed.

Lemma lane_gap_open' (k : nat) :
  (k < band_size)%nat -> lane (gap_open' t b) k = 4 * gO (t + 1 + Z.of_nat k).
Proof.
  intros Hk. unfold gap_open'.
  apply lane_update_gap_penalty;
    [apply (len_gap_open Hwin) | apply (win_open Hwin) | exact open_fits | exact Hk].
Qed.

Lemma lane_gap_extend' (k : nat) :
  (k < band_size)%nat -> lane (gap_extend' t b) k = 4 * g.
Proof.
  intros Hk. unfold gap_extend'.
  rewrite lane_update_gap_penalty;
    [|apply (len_gap_extend Hwin) | apply (win_extend Hwin) | exact extend_fits | exact Hk].
  rewrite extend_value by lia. reflexivity.
Qed.

Lemma length_gap_open' : length (gap_open' t b) = band_size.
Proof. apply length_update_gap_penalty, (len_gap_open Hwin). Qed.

Lemma length_gap_extend' : length (gap_extend' t b) = band_size.
Proof. apply length_update_gap_penalty, (len_gap_extend Hwin). Qed.

Lemma lane_mask_shifted (v : VectorType) (x : Z) (k : nat) :
  length v = band_size ->
  (forall j, (j < band_size)%nat -> lane v j = if Z.of_nat j =? t then x else 0) ->
  is_int16 x ->
  (k < band_size)%nat ->
  lane (_left_shift score_bytes v) k = if Z.of_nat k =? t + 1 then x else 0.
Proof.
  intros Hl Hv Hx Hk.
  rewrite lane_left_shift_slot.
  - destruct k as [|j].
    + destruct (Z.eqb_spec (Z.of_nat 0) (t + 1)); [lia | reflexivity].
    + rewrite (Hv j) by lia.
      destruct (Z.eqb_spec (Z.of_nat j) t); destruct (Z.eqb_spec (Z.of_nat (S j)) (t + 1));
        try reflexivity; lia.
  - apply int16_lanes; [exact Hl|].
    intros j Hj. rewrite (Hv j Hj). destruct (_ =? _); [exact Hx | arith].
  - lia.
Qed.

(** *** One iteration: the cells *)

Hypothesis Hcell : cells_inv t b.

Ltac room k :=
  pose proof budget_parts; pose proof Hbudget; pose proof sizes;
  pose proof (extension_room (2 * Z.of_nat k) ltac:(unfold B in *; lia));
  pose proof (extension_room (2 * Z.of_nat k + 1) ltac:(unfold B in *; lia));
  pose proof (extension_room (2 * Z.of_nat k + 2) ltac:(unfold B in *; lia));
  pose proof (extension_room (2 * Z.of_nat k + 3) ltac:(unfold B in *; lia)).

Lemma lane_nuc_prior (k : nat) : (k < band_size)%nat -> lane NP k = 4 * nuc_prior.
Proof.
  intros Hk. unfold _nuc_prior. rewrite lane_vectorise by exact Hk.
  unfold trace_bits. rewrite shiftl_2. apply wrap16_small.
  room k. arith.
Qed.

Lemma length_nuc_prior : length NP = band_size.
Proof. apply length_vectorise. Qed.

Lemma lane_m1_patched (k : nat) :
  (k < band_size)%nat ->
  lane (m1_patched b) k = if Z.of_nat k =? t then - bitmask else lane (_m1 b) k.
Proof.
  intros Hk. destruct Hwin. apply lane_patch; auto; lia.
Qed.

Lemma lane_m2_patched (k : nat) :
  (k < band_size)%nat ->
  lane (m2_patched b) k = if Z.of_nat k =? t then - bitmask else lane (_m2 b) k.
Proof.
  intros Hk. destruct Hwin. apply lane_patch; auto; lia.
Qed.

Lemma length_m1_patched : length (m1_patched b) = band_size.
Proof. destruct Hwin. unfold m1_patched, _or, _andnot. rewrite !length_lanewise. lia. Qed.

Lemma length_m2_patched : length (m2_patched b) = band_size.
Proof. destruct Hwin. unfold m2_patched, _or, _andnot. rewrite !length_lanewise. lia. Qed.

Lemma m1_patched_tracks (k : nat) :
  (k < band_size)%nat ->
  tracks (lane (m1_patched b) k)
         (fun c => path StM (t + Z.of_nat k) (t - Z.of_nat k) c \/
                   at_start band_size (t + Z.of_nat k) (t - Z.of_nat k) c).
Proof.
  intros Hk. rewrite lane_m1_patched by exact Hk.
  destruct (Z.eqb_spec (Z.of_nat k) t) as [E|E].
  - apply (tracks_iff _ (fun c => c = 0)); [|exact tracks_start].
    intros c. split.
    + intros ->. right. unfold at_start, begins_at, B. repeat split; lia.
    + intros [H|(_ & _ & H)]; [|exact H].
      exfalso. refine (no_match_row0 _ _ _ _ H). lia.
  - apply (tracks_iff _ (path StM (t + Z.of_nat k) (t - Z.of_nat k)));
      [|exact (cell_m1 Hcell k Hk)].
    intros c. split; [intros H; left; exact H|].
    intros [H|(H & _)]; [exact H | lia].
Qed.

Lemma m2_patched_tracks (k : nat) :
  (k < band_size)%nat ->
  tracks (lane (m2_patched b) k) (opens (t + Z.of_nat k + 1) (t - Z.of_nat k)).
Proof.
  intros Hk. rewrite lane_m2_patched by exact Hk.
  assert (Hodd : Z.odd (t + Z.of_nat k + 1 + (t - Z.of_nat k)) = true).
  { replace (t + Z.of_nat k + 1 + (t - Z.of_nat k)) with (2 * t + 1) by lia.
    apply Z.odd_odd. }
  destruct (Z.eqb_spec (Z.of_nat k) t) as [E|E].
  - apply (tracks_iff _ (fun c => c = 0)); [|exact tracks_start].
    intros c. rewrite (opens_odd _ _ _ Hodd). split.
    + intros ->. right. unfold at_start, begins_at, B. repeat split; lia.
    + intros [H|(_ & _ & H)]; [|exact H].
      exfalso. refine (no_match_row0 _ _ _ _ H). lia.
  - apply (tracks_iff _ (path StM (t + Z.of_nat k + 1) (t - Z.of_nat k)));
      [|exact (cell_m2 Hcell k Hk)].
    intros c. rewrite (opens_odd _ _ _ Hodd). split; [intros H; left; exact H|].
    intros [H|(H & _)]; [exact H | lia].
Qed.

Lemma m1_patched_room (k : nat) :
  (k < band_size)%nat ->
  - bitmask <= lane (m1_patched b) k <= infinity + (2 * Z.of_nat k) * (4 * g) + 4 * Em.
Proof.
  intros Hk. rewrite lane_m1_patched by exact Hk.
  pose proof (room_m1 Hcell k Hk). room k. destruct (_ =? _); arith.
Qed.

Lemma m2_patched_room (k : nat) :
  (k < band_size)%nat ->
  - bitmask <= lane (m2_patched b) k <= infinity + (2 * Z.of_nat k + 1) * (4 * g) + 4 * Em.
Proof.
  intros Hk. rewrite lane_m2_patched by exact Hk.
  pose proof (room_m2 Hcell k Hk). room k. destruct (_ =? _); arith.
Qed.

(** [_min(_m1, _min(_i1, _d1))]: all that ends in the cell. *)
Lemma lane_best1 (k : nat) :
  (k < band_size)%nat ->
  lane (best1 b) k =
  Z.min (lane (m1_patched b) k) (Z.min (lane (_i1 b) k) (lane (_d1 b) k)).
Proof.
  intros Hk. pose proof length_m1_patched. destruct Hwin.
  unfold best1. rewrite lane_min by (unfold _min; rewrite ?length_lanewise; lia).
  rewrite lane_min by lia. reflexivity.
Qed.

Lemma lane_best2 (k : nat) :
  (k < band_size)%nat ->
  lane (best2 b) k =
  Z.min (lane (m2_patched b) k) (Z.min (lane (_i2 b) k) (lane (_d2 b) k)).
Proof.
  intros Hk. pose proof length_m2_patched. destruct Hwin.
  unfold best2. rewrite lane_min by (unfold _min; rewrite ?length_lanewise; lia).
  rewrite lane_min by lia. reflexivity.
Qed.

Lemma length_best1 : length (best1 b) = band_size.
Proof.
  pose proof length_m1_patched. destruct Hwin.
  unfold best1, _min. rewrite !length_lanewise. lia.
Qed.

Lemma length_best2 : length (best2 b) = band_size.
Proof.
  pose proof length_m2_patched. destruct Hwin.
  unfold best2, _min. rewrite !length_lanewise. lia.
Qed.

Lemma best1_tracks (k : nat) :
  (k < band_size)%nat ->
  tracks (lane (best1 b) k) (ends (t + Z.of_nat k) (t - Z.of_nat k)).
Proof.
  intros Hk. rewrite lane_best1 by exact Hk.
  eapply tracks_iff;
    [|exact (tracks_min _ _ _ _ (m1_patched_tracks k Hk)
                        (tracks_min _ _ _ _ (cell_i1 Hcell k Hk) (cell_d1 Hcell k Hk)))].
  intros c. cbv beta. unfold any_end. split.
  - intros [[H|H]|[H|H]]; [right; exists StM | left | right; exists StI | right; exists StD];
      exact H.
  - intros [H|[[] H]]; auto.
Qed.

Lemma best2_tracks (k : nat) :
  (k < band_size)%nat ->
  tracks (lane (best2 b) k) (ends (t + Z.of_nat k + 1) (t - Z.of_nat k)).
Proof.
  intros Hk. rewrite lane_best2 by exact Hk.
  eapply tracks_iff;
    [|exact (tracks_min _ _ _ _ (m2_patched_tracks k Hk)
                        (tracks_min _ _ _ _ (cell_i2 Hcell k Hk) (cell_d2 Hcell k Hk)))].
  intros c. cbv beta. unfold any_end, gap_source. split.
  - intros [[H|[H _]]|[H|H]]; [right; exists StM | left | right; exists StI | right; exists StD];
      exact H.
  - intros [H|[[] H]]; auto.
    left. right. split; [exact H|]. right. destruct H as [Hy _].
    replace (t + Z.of_nat k + 1) with (2 * t + 1) by lia. apply Z.odd_odd.
Qed.

Lemma best1_room (k : nat) :
  (k < band_size)%nat ->
  - bitmask <= lane (best1 b) k <= infinity + (2 * Z.of_nat k) * (4 * g).
Proof.
  intros Hk. rewrite lane_best1 by exact Hk.
  pose proof (m1_patched_room k Hk). pose proof (room_i1 Hcell k Hk).
  pose proof (room_d1 Hcell k Hk). lia.
Qed.

Lemma best2_room (k : nat) :
  (k < band_size)%nat ->
  - bitmask <= lane (best2 b) k <= infinity + (2 * Z.of_nat k + 1) * (4 * g).
Proof.
  intros Hk. rewrite lane_best2 by exact Hk.
  pose proof (m2_patched_room k Hk). pose proof (room_i2 Hcell k Hk).
  pose proof (room_d2 Hcell k Hk). lia.
Qed.

(** The target-side windows of this iteration. *)
Lemma targetwin'_value (k : nat) :
  (k < band_size)%nat -> Z.of_nat k <= t ->
  lane (targetwin' t b) k = char_to_int (target_base target (t - Z.of_nat k)).
Proof.
  intros Hk Hle. rewrite lane_targetwin' by exact Hk.
  destruct k as [|j].
  - rewrite Z.sub_0_r. reflexivity.
  - rewrite (win_target Hwin j) by lia. f_equal. f_equal. lia.
Qed.

Lemma qualitieswin'_value (k : nat) :
  (k < band_size)%nat -> Z.of_nat k <= t ->
  lane (qualitieswin' t b) k = 4 * quality_at target qualities (t - Z.of_nat k).
Proof.
  intros Hk Hle. rewrite lane_qualitieswin' by exact Hk.
  destruct k as [|j].
  - rewrite Z.sub_0_r. reflexivity.
  - rewrite (win_qual Hwin j) by lia. f_equal. f_equal. lia.
Qed.

Lemma qualitieswin'_range (k : nat) :
  (k < band_size)%nat -> 0 <= lane (qualitieswin' t b) k <= 4 * Em.
Proof.
  intros Hk. rewrite lane_qualitieswin' by exact Hk.
  destruct k as [|j].
  - pose proof (quality_range t Ht). lia.
  - apply (win_qual_range Hwin). lia.
Qed.

(** **** The even half-step *)

Lemma lane_m1' (k : nat) :
  (k < band_size)%nat ->
  lane (m1' t b) k =
  lane (best1 b) k +
  Z.min (if lane (targetwin' t b) k =? lane (_truthwin b) k
         then 0 else lane (qualitieswin' t b) k)
        (nqual_of (lane (_truthwin b) k)).
Proof.
  intros Hk. pose proof length_best1. pose proof length_targetwin'.
  pose proof length_qualitieswin'.
  pose proof (len_truthwin Hwin). pose proof (len_truthnqual Hwin).
  unfold m1'.
  rewrite lane_add by (unfold _min, _andnot, _cmpeq; rewrite ?length_lanewise; lia).
  rewrite lane_mismatch by lia.
  rewrite (win_nqual Hwin k Hk).
  apply wrap16_small.
  pose proof (best1_room k Hk).
  pose proof (mismatch_range (lane (targetwin' t b) k) (lane (_truthwin b) k)
                             (lane (qualitieswin' t b) k) (qualitieswin'_range k Hk)).
  room k. arith.
Qed.

Lemma length_m1' : length (m1' t b) = band_size.
Proof.
  pose proof length_best1. pose proof length_targetwin'.
  pose proof length_qualitieswin'.
  pose proof (len_truthwin Hwin). pose proof (len_truthnqual Hwin).
  unfold m1', _add, _min, _andnot, _cmpeq. rewrite !length_lanewise. lia.
Qed.

Lemma m1'_room (k : nat) :
  (k < band_size)%nat ->
  - bitmask <= lane (m1' t b) k <= infinity + (2 * Z.of_nat k) * (4 * g) + 4 * Em.
Proof.
  intros Hk. rewrite lane_m1' by exact Hk.
  pose proof (best1_room k Hk).
  pose proof (mismatch_range (lane (targetwin' t b) k) (lane (_truthwin b) k)
                             (lane (qualitieswin' t b) k) (qualitieswin'_range k Hk)).
  lia.
Qed.

Lemma m1'_tracks (k : nat) :
  (k < band_size)%nat ->
  tracks (lane (m1' t b) k) (path StM (t + 1 + Z.of_nat k) (t + 1 - Z.of_nat k)).
Proof.
  intros Hk. rewrite lane_m1' by exact Hk.
  destruct (Z.le_gt_cases (Z.of_nat k) t) as [Hle|Hgt].
  - rewrite (mismatch_value _ _ _ _ (t + Z.of_nat k) (t - Z.of_nat k));
      [|apply (win_truth Hwin k Hk) | reflexivity | apply (targetwin'_value k Hk Hle)
       |apply (qualitieswin'_value k Hk Hle) | lia].
    apply (tracks_cell _ StM (t + Z.of_nat k + 1) (t - Z.of_nat k + 1)); [|lia|lia].
    apply match_step; [apply best1_tracks, Hk | lia].
  - pose proof (mismatch_range (lane (targetwin' t b) k) (lane (_truthwin b) k)
                               (lane (qualitieswin' t b) k) (qualitieswin'_range k Hk)).
    assert (Hno : forall c, ~ ends (t + Z.of_nat k) (t - Z.of_nat k) c).
    { intros c H'. apply ends_in_band in H'. unfold in_band in H'. lia. }
    pose proof (tracks_saturated _ _ Hno (best1_tracks k Hk)).
    apply tracks_empty; [|lia].
    intros c H'.
    replace (t + 1 + Z.of_nat k) with (t + Z.of_nat k + 1) in H' by lia.
    replace (t + 1 - Z.of_nat k) with (t - Z.of_nat k + 1) in H' by lia.
    apply match_sources in H'. destruct H' as [c0 [Hsrc _]]. exact (Hno c0 Hsrc).
Qed.

Lemma length_d1_unshifted : length (d1_unshifted b) = band_size.
Proof.
  pose proof length_m2_patched. destruct Hwin.
  unfold d1_unshifted, _add, _min. rewrite !length_lanewise, length_right_shift. lia.
Qed.

Lemma lane_d1_unshifted_raw (j : nat) :
  (j < band_size)%nat ->
  lane (d1_unshifted b) j =
  Z.min (wrap16 (lane (_d2 b) j + lane (_gap_extend b) j))
        (wrap16 (Z.min (lane (m2_patched b) j) (lane (_i2 b) j) +
                 lane (_right_shift score_bytes (_gap_open b)) j)).
Proof.
  intros Hj. pose proof length_m2_patched. destruct Hwin.
  unfold d1_unshifted.
  rewrite lane_min by (unfold _add, _min; rewrite ?length_lanewise, ?length_right_shift; lia).
  rewrite lane_add by lia.
  rewrite lane_add by (unfold _min; rewrite ?length_lanewise, ?length_right_shift; lia).
  rewrite lane_min by lia. reflexivity.
Qed.

Lemma d1_unshifted_int16 : Forall is_int16 (d1_unshifted b).
Proof.
  apply int16_lanes; [apply length_d1_unshifted|].
  intros j Hj. rewrite lane_d1_unshifted_raw by exact Hj.
  pose proof (wrap16_range (lane (_d2 b) j + lane (_gap_extend b) j)).
  pose proof (wrap16_range (Z.min (lane (m2_patched b) j) (lane (_i2 b) j) +
                            lane (_right_shift score_bytes (_gap_open b)) j)).
  unfold is_int16 in *. lia.
Qed.

Lemma lane_d1_unshifted (j : nat) :
  (S j < band_size)%nat ->
  lane (d1_unshifted b) j =
  Z.min (lane (_d2 b) j + 4 * g)
        (Z.min (lane (m2_patched b) j) (lane (_i2 b) j) + 4 * gO (t + Z.of_nat j + 1)).
Proof.
  intros Hj. rewrite lane_d1_unshifted_raw by lia.
  rewrite lane_right_shift_slot by apply gap_open_int16.
  rewrite (win_open Hwin (S j) Hj), (win_extend Hwin j) by lia.
  rewrite extend_value by lia.
  replace (t + Z.of_nat (S j)) with (t + Z.of_nat j + 1) by lia.
  pose proof (room_d2 Hcell j ltac:(lia)).
  pose proof (room_i2 Hcell j ltac:(lia)).
  pose proof (m2_patched_room j ltac:(lia)).
  pose proof (open_range (t + Z.of_nat j + 1) ltac:(lia)).
  room j.
  rewrite !wrap16_small by arith. reflexivity.
Qed.

Lemma lane_d1' (k : nat) :
  (k < band_size)%nat ->
  lane (d1' b) k = match k with O => infinity | S j => lane (d1_unshifted b) j end.
Proof.
  intros Hk. pose proof length_d1_unshifted.
  unfold d1'. rewrite lane_insert by (rewrite ?length_left_shift; lia).
  destruct k as [|j]; [reflexivity|].
  destruct (Z.eqb_spec (Z.of_nat (S j)) 0); [lia|].
  apply lane_left_shift_slot; [apply d1_unshifted_int16 | lia].
Qed.

Lemma length_d1' : length (d1' b) = band_size.
Proof. unfold d1'. rewrite length_insert, length_left_shift. apply length_d1_unshifted. Qed.

Lemma d1'_tracks (k : nat) :
  (k < band_size)%nat ->
  tracks (lane (d1' b) k) (path StD (t + 1 + Z.of_nat k) (t + 1 - Z.of_nat k)).
Proof.
  intros Hk. rewrite lane_d1' by exact Hk.
  destruct k as [|j].
  - apply tracks_empty; [|lia].
    intros c H. refine (no_delete_diagonal _ _ _ _ H). lia.
  - rewrite lane_d1_unshifted by exact Hk.
    apply (tracks_cell _ StD (t + Z.of_nat j + 1 + 1) (t - Z.of_nat j)); [|lia|lia].
    apply delete_step.
    + apply (cell_d2 Hcell). lia.
    + apply m2_patched_tracks. lia.
    + apply (cell_i2 Hcell). lia.
    + lia.
    + unfold B. lia.
Qed.

Lemma d1'_room (k : nat) :
  (k < band_size)%nat ->
  - bitmask <= lane (d1' b) k <= infinity + (2 * Z.of_nat k) * (4 * g).
Proof.
  intros Hk. rewrite lane_d1' by exact Hk. room k.
  destruct k as [|j]; [arith|].
  rewrite lane_d1_unshifted by exact Hk.
  pose proof (room_d2 Hcell j ltac:(lia)).
  pose proof (room_i2 Hcell j ltac:(lia)).
  pose proof (m2_patched_room j ltac:(lia)).
  pose proof (open_range (t + Z.of_nat j + 1) ltac:(lia)).
  lia.
Qed.

Lemma lane_i1' (k : nat) :
  (k < band_size)%nat ->
  lane (i1' b) k =
  Z.min (lane (_i2 b) k + 4 * g) (lane (m2_patched b) k + 4 * gO (t + Z.of_nat k))
  + 4 * nuc_prior.
Proof.
  intros Hk. pose proof length_m2_patched. pose proof length_nuc_prior.
  pose proof (len_i2 Hwin). pose proof (len_gap_extend Hwin).
  pose proof (len_gap_open Hwin).
  unfold i1'.
  rewrite lane_add by (unfold _add, _min; rewrite ?length_lanewise; lia).
  rewrite lane_min by (unfold _add; rewrite ?length_lanewise; lia).
  rewrite !lane_add by lia.
  rewrite lane_nuc_prior, (win_open Hwin k Hk), (win_extend Hwin k Hk) by exact Hk.
  rewrite extend_value by lia.
  pose proof (room_i2 Hcell k Hk).
  pose proof (m2_patched_room k Hk).
  pose proof (open_range (t + Z.of_nat k) ltac:(lia)).
  room k.
  rewrite (wrap16_small (lane (_i2 b) k + 4 * g)) by arith.
  rewrite (wrap16_small (lane (m2_patched b) k + 4 * gO (t + Z.of_nat k))) by arith.
  rewrite wrap16_small by arith. reflexivity.
Qed.

Lemma length_i1' : length (i1' b) = band_size.
Proof.
  pose proof length_m2_patched. pose proof length_nuc_prior. destruct Hwin.
  unfold i1', _add, _min. rewrite !length_lanewise. lia.
Qed.

Lemma i1'_tracks (k : nat) :
  (k < band_size)%nat ->
  tracks (lane (i1' b) k) (path StI (t + 1 + Z.of_nat k) (t + 1 - Z.of_nat k)).
Proof.
  intros Hk. rewrite lane_i1' by exact Hk.
  replace (t + Z.of_nat k) with (t + Z.of_nat k + 1 - 1) at 1 by lia.
  apply (tracks_cell _ StI (t + Z.of_nat k + 1) (t - Z.of_nat k + 1)); [|lia|lia].
  apply insert_step.
  - apply (cell_i2 Hcell k Hk).
  - apply m2_patched_tracks, Hk.
  - lia.
  - lia.
Qed.

Lemma i1'_room (k : nat) :
  (k < band_size)%nat ->
  - bitmask <= lane (i1' b) k <=
  infinity + (2 * Z.of_nat k + 1) * (4 * g) + 4 * Em + 4 * Gm + 4 * nuc_prior.
Proof.
  intros Hk. rewrite lane_i1' by exact Hk.
  pose proof (room_i2 Hcell k Hk).
  pose proof (m2_patched_room k Hk).
  pose proof (open_range (t + Z.of_nat k) ltac:(lia)).
  room k. lia.
Qed.

(** **** The odd half-step *)

Lemma lane_m2' (k : nat) :
  (k < band_size)%nat ->
  lane (m2' t b) k =
  lane (best2 b) k +
  Z.min (if lane (targetwin' t b) k =? lane (truthwin' t b) k
         then 0 else lane (qualitieswin' t b) k)
        (nqual_of (lane (truthwin' t b) k)).
Proof.
  intros Hk. pose proof length_best2. pose proof length_targetwin'.
  pose proof length_qualitieswin'.
  destruct truth_windows' as (Hl1 & Hl2 & _ & Hnq).
  unfold m2'.
  rewrite lane_add by (unfold _min, _andnot, _cmpeq; rewrite ?length_lanewise; lia).
  rewrite lane_mismatch by lia.
  rewrite (Hnq k Hk).
  apply wrap16_small.
  pose proof (best2_room k Hk).
  pose proof (mismatch_range (lane (targetwin' t b) k) (lane (truthwin' t b) k)
                             (lane (qualitieswin' t b) k) (qualitieswin'_range k Hk)).
  room k. arith.
Qed.

Lemma length_m2' : length (m2' t b) = band_size.
Proof.
  pose proof length_best2. pose proof length_targetwin'.
  pose proof length_qualitieswin'.
  destruct truth_windows' as (Hl1 & Hl2 & _ & Hnq).
  unfold m2', _add, _min, _andnot, _cmpeq. rewrite !length_lanewise. lia.
Qed.

Lemma m2'_room (k : nat) :
  (k < band_size)%nat ->
  - bitmask <= lane (m2' t b) k <= infinity + (2 * Z.of_nat k + 1) * (4 * g) + 4 * Em.
Proof.
  intros Hk. rewrite lane_m2' by exact Hk.
  pose proof (best2_room k Hk).
  pose proof (mismatch_range (lane (targetwin' t b) k) (lane (truthwin' t b) k)
                             (lane (qualitieswin' t b) k) (qualitieswin'_range k Hk)).
  lia.
Qed.

Lemma m2'_tracks (k : nat) :
  (k < band_size)%nat ->
  tracks (lane (m2' t b) k) (path StM (t + 1 + Z.of_nat k + 1) (t + 1 - Z.of_nat k)).
Proof.
  intros Hk. rewrite lane_m2' by exact Hk.
  destruct (Z.le_gt_cases (Z.of_nat k) t) as [Hle|Hgt].
  - rewrite (mismatch_value _ _ _ _ (t + 1 + Z.of_nat k) (t - Z.of_nat k));
      [|apply (lane_truthwin' k Hk) | reflexivity | apply (targetwin'_value k Hk Hle)
       |apply (qualitieswin'_value k Hk Hle) | lia].
    replace (t + 1 + Z.of_nat k) with (t + Z.of_nat k + 1) by lia.
    apply (tracks_cell _ StM (t + Z.of_nat k + 1 + 1) (t - Z.of_nat k + 1)); [|lia|lia].
    apply match_step; [apply best2_tracks, Hk | lia].
  - pose proof (mismatch_range (lane (targetwin' t b) k) (lane (truthwin' t b) k)
                               (lane (qualitieswin' t b) k) (qualitieswin'_range k Hk)).
    assert (Hno : forall c, ~ ends (t + Z.of_nat k + 1) (t - Z.of_nat k) c).
    { intros c H'. apply ends_in_band in H'. unfold in_band in H'. lia. }
    pose proof (tracks_saturated _ _ Hno (best2_tracks k Hk)).
    apply tracks_empty; [|lia].
    intros c H'.
    replace (t + 1 + Z.of_nat k + 1) with (t + Z.of_nat k + 1 + 1) in H' by lia.
    replace (t + 1 - Z.of_nat k) with (t - Z.of_nat k + 1) in H' by lia.
    apply match_sources in H'. destruct H' as [c0 [Hsrc _]]. exact (Hno c0 Hsrc).
Qed.

Lemma m1'_opens (k : nat) :
  (k < band_size)%nat ->
  tracks (lane (m1' t b) k) (opens (t + 1 + Z.of_nat k) (t + 1 - Z.of_nat k)).
Proof.
  intros Hk. eapply tracks_iff; [|exact (m1'_tracks k Hk)].
  intros c. symmetry. apply opens_even.
  replace (t + 1 + Z.of_nat k + (t + 1 - Z.of_nat k)) with (2 * (t + 1)) by lia.
  apply Z.even_even.
Qed.

Lemma lane_d2' (k : nat) :
  (k < band_size)%nat ->
  lane (d2' t b) k =
  Z.min (lane (d1' b) k + 4 * g)
        (Z.min (lane (m1' t b) k) (lane (i1' b) k) + 4 * gO (t + 1 + Z.of_nat k)).
Proof.
  intros Hk. pose proof length_d1'. pose proof length_m1'. pose proof length_i1'.
  pose proof length_gap_open'. pose proof length_gap_extend'.
  unfold d2'.
  rewrite lane_min by (unfold _add, _min; rewrite ?length_lanewise; lia).
  rewrite lane_add by lia.
  rewrite lane_add by (unfold _min; rewrite ?length_lanewise; lia).
  rewrite lane_min by lia.
  rewrite lane_gap_open', lane_gap_extend' by exact Hk.
  pose proof (d1'_room k Hk). pose proof (m1'_room k Hk). pose proof (i1'_room k Hk).
  pose proof (open_range (t + 1 + Z.of_nat k) ltac:(lia)).
  room k.
  rewrite !wrap16_small by arith. reflexivity.
Qed.

Lemma length_d2' : length (d2' t b) = band_size.
Proof.
  pose proof length_d1'. pose proof length_m1'. pose proof length_i1'.
  pose proof length_gap_open'. pose proof length_gap_extend'.
  unfold d2', _add, _min. rewrite !length_lanewise. lia.
Qed.

Lemma d2'_tracks (k : nat) :
  (k < band_size)%nat ->
  tracks (lane (d2' t b) k) (path StD (t + 1 + Z.of_nat k + 1) (t + 1 - Z.of_nat k)).
Proof.
  intros Hk. rewrite lane_d2' by exact Hk.
  apply delete_step.
  - apply d1'_tracks, Hk.
  - apply m1'_opens, Hk.
  - apply i1'_tracks, Hk.
  - lia.
  - unfold B. lia.
Qed.

Lemma d2'_room (k : nat) :
  (k < band_size)%nat ->
  - bitmask <= lane (d2' t b) k <= infinity + (2 * Z.of_nat k + 1) * (4 * g).
Proof.
  intros Hk. rewrite lane_d2' by exact Hk.
  pose proof (d1'_room k Hk). pose proof (m1'_room k Hk). pose proof (i1'_room k Hk).
  pose proof (open_range (t + 1 + Z.of_nat k) ltac:(lia)).
  room k. lia.
Qed.

Lemma m1'_int16 : Forall is_int16 (m1' t b).
Proof.
  apply int16_lanes; [apply length_m1'|].
  intros k Hk. pose proof (m1'_room k Hk). room k. arith.
Qed.

Lemma i1'_int16 : Forall is_int16 (i1' b).
Proof.
  apply int16_lanes; [apply length_i1'|].
  intros k Hk. pose proof (i1'_room k Hk). room k. arith.
Qed.

Lemma lane_i2' (k : nat) :
  (k < band_size)%nat ->
  lane (i2' t b) k =
  if Z.of_nat k =? W - 1 then infinity
  else Z.min (lane (i1' b) (S k) + 4 * g) (lane (m1' t b) (S k) + 4 * gO (t + 1 + Z.of_nat k))
       + 4 * nuc_prior.
Proof.
  intros Hk. pose proof length_m1'. pose proof length_i1'.
  pose proof length_gap_open'. pose proof length_gap_extend'. pose proof length_nuc_prior.
  unfold i2'.
  rewrite lane_insert
    by (unfold _add, _min; rewrite ?length_lanewise, ?length_right_shift; unfold B; lia).
  destruct (Z.eqb_spec (Z.of_nat k) (W - 1)) as [E|E]; [reflexivity|].
  assert (HS : (S k < band_size)%nat) by (unfold B in E; lia).
  rewrite lane_add by (unfold _add, _min; rewrite ?length_lanewise, ?length_right_shift; lia).
  rewrite lane_min by (unfold _add; rewrite ?length_lanewise, ?length_right_shift; lia).
  rewrite !lane_add by (rewrite ?length_right_shift; lia).
  rewrite (lane_right_shift_slot (i1' b)) by apply i1'_int16.
  rewrite (lane_right_shift_slot (m1' t b)) by apply m1'_int16.
  rewrite lane_nuc_prior, lane_gap_open', lane_gap_extend' by exact Hk.
  pose proof (m1'_room (S k) HS). pose proof (i1'_room (S k) HS).
  pose proof (open_range (t + 1 + Z.of_nat k) ltac:(lia)).
  room (S k).
  rewrite (wrap16_small (lane (i1' b) (S k) + 4 * g)) by arith.
  rewrite (wrap16_small (lane (m1' t b) (S k) + 4 * gO (t + 1 + Z.of_nat k))) by arith.
  rewrite wrap16_small by arith. reflexivity.
Qed.

Lemma length_i2' : length (i2' t b) = band_size.
Proof.
  pose proof length_m1'. pose proof length_i1'.
  pose proof length_gap_open'. pose proof length_gap_extend'. pose proof length_nuc_prior.
  unfold i2', _add, _min. rewrite length_insert, !length_lanewise, !length_right_shift. lia.
Qed.

Lemma i2'_tracks (k : nat) :
  (k < band_size)%nat ->
  tracks (lane (i2' t b) k) (path StI (t + 1 + Z.of_nat k + 1) (t + 1 - Z.of_nat k)).
Proof.
  intros Hk. rewrite lane_i2' by exact Hk.
  destruct (Z.eqb_spec (Z.of_nat k) (W - 1)) as [E|E].
  - apply tracks_empty; [|lia].
    intros c H. refine (no_insert_edge _ _ _ _ H). lia.
  - assert (HS : (S k < band_size)%nat) by (unfold B in E; lia).
    replace (t + 1 + Z.of_nat k) with (t + 1 + Z.of_nat (S k) - 1) at 1 by lia.
    apply (tracks_cell _ StI (t + 1 + Z.of_nat (S k)) (t + 1 - Z.of_nat (S k) + 1)); [|lia|lia].
    apply insert_step.
    + apply i1'_tracks, HS.
    + apply m1'_opens, HS.
    + lia.
    + lia.
Qed.

Lemma i2'_room (k : nat) :
  (k < band_size)%nat ->
  - bitmask <= lane (i2' t b) k <=
  infinity + (2 * Z.of_nat k + 2) * (4 * g) + 4 * Em + 4 * Gm + 4 * nuc_prior.
Proof.
  intros Hk. rewrite lane_i2' by exact Hk. room k.
  destruct (Z.eqb_spec (Z.of_nat k) (W - 1)) as [E|E]; [arith|].
  assert (HS : (S k < band_size)%nat) by (unfold B in E; lia).
  pose proof (m1'_room (S k) HS). pose proof (i1'_room (S k) HS).
  pose proof (open_range (t + 1 + Z.of_nat k) ltac:(lia)).
  lia.
Qed.

(** **** The invariant after the iteration *)

Lemma windows_step : windows_inv (t + 1) (band' t b).
Proof.
  destruct truth_windows' as (Hl1 & Hl2 & _ & Hnq).
  split; cbn [band' _m1 _i1 _d1 _m2 _i2 _d2 _initmask _initmask2 _truthwin _targetwin
              _qualitieswin _gap_open _gap_extend _truthnqual].
  - apply length_m1'.
  - apply length_i1'.
  - apply length_d1'.
  - apply length_m2'.
  - apply length_i2'.
  - apply length_d2'.
  - rewrite length_left_shift. apply (len_initmask Hwin).
  - rewrite length_left_shift. apply (len_initmask2 Hwin).
  - exact Hl1.
  - apply length_targetwin'.
  - apply length_qualitieswin'.
  - apply length_gap_open'.
  - apply length_gap_extend'.
  - exact Hl2.
  - exact lane_truthwin'.
  - exact Hnq.
  - intros k Hk. rewrite lane_targetwin' by exact Hk.
    destruct k as [|j]; [apply char_to_int_int16 | apply (win_target16 Hwin); lia].
  - exact qualitieswin'_range.
  - intros k Hk Hlt. rewrite targetwin'_value by (try exact Hk; lia).
    f_equal. f_equal. lia.
  - intros k Hk Hlt. rewrite qualitieswin'_value by (try exact Hk; lia).
    f_equal. f_equal. lia.
  - exact lane_gap_open'.
  - intros k Hk. rewrite lane_gap_extend', extend_value by (try exact Hk; lia). reflexivity.
  - intros k Hk.
    apply lane_mask_shifted;
      [apply (len_initmask Hwin) | apply (win_mask Hwin) | arith | exact Hk].
  - intros k Hk.
    apply lane_mask_shifted;
      [apply (len_initmask2 Hwin) | apply (win_mask2 Hwin) | arith | exact Hk].
Qed.

Lemma cells_step : cells_inv (t + 1) (band' t b).
Proof.
  split; cbn [band' _m1 _i1 _d1 _m2 _i2 _d2].
  - exact m1'_tracks.
  - exact i1'_tracks.
  - exact d1'_tracks.
  - exact m2'_tracks.
  - exact i2'_tracks.
  - exact d2'_tracks.
  - exact m1'_room.
  - exact i1'_room.
  - exact d1'_room.
  - exact m2'_room.
  - exact i2'_room.
  - exact d2'_room.
Qed.

(** **** [minscore] *)

(** A lane index outside the register reads one of its lanes. *)
Hypothesis Hoob : forall v n, length v = band_size -> In (extract_oob v n) v.

Lemma extract_lane (v : VectorType) (n : Z) :
  length v = band_size -> Forall is_int16 v ->
  exists k, (k < band_size)%nat /\ _extract band_size extract_oob v n = lane v k /\
            (0 <= n < W -> Z.of_nat k = n).
Proof.
  intros Hl Hv. unfold _extract.
  destruct (Z.leb_spec 0 n) as [H0|H0]; destruct (Z.ltb_spec n (Z.of_nat band_size)) as [H1|H1];
    cbn [andb].
  1: { exists (Z.to_nat n). repeat split; lia. }
  all: destruct (In_nth v _ 0 (Hoob v n Hl)) as [k [Hk E]].
  all: exists k; rewrite Hl in Hk; unfold lane; rewrite E.
  all: (split; [exact Hk|split; [|unfold B; lia]]).
  all: apply wrap16_small; rewrite Forall_forall in Hv; apply Hv, Hoob, Hl.
Qed.

Lemma best1_int16 : Forall is_int16 (best1 b).
Proof.
  apply int16_lanes; [apply length_best1|].
  intros k Hk. pose proof (best1_room k Hk). room k. arith.
Qed.

Lemma best2_int16 : Forall is_int16 (best2 b).
Proof.
  apply int16_lanes; [apply length_best2|].
  intros k Hk. pose proof (best2_room k Hk). room k. arith.
Qed.

Lemma exits_reach (x c : Z) : ends x Q_len c -> Q_len <= x <= Q_len + 2 * W - 1.
Proof. intros H. apply ends_in_band in H. unfold in_band in H. lia. Qed.

Lemma minscore_step (minscore : Z) :
  minscore_inv t minscore -> minscore_inv (t + 1) (minscore' t b minscore).
Proof.
  intros [Htr Hrng]. pose proof sizes as Hsz.
  unfold minscore'. rewrite Z.geb_leb.
  destruct (Z.leb_spec Q_len t) as [Hge|Hlt].
  - replace (Z.max 0 (t - Q_len)) with (t - Q_len) by lia.
    destruct (extract_lane (best1 b) (t - Q_len) length_best1 best1_int16)
      as [k1 [Hk1 [-> Hi1]]].
    destruct (extract_lane (best2 b) (t - Q_len) length_best2 best2_int16)
      as [k2 [Hk2 [-> Hi2]]].
    pose proof (best1_room k1 Hk1). pose proof (best2_room k2 Hk2).
    split; [|lia].
    destruct (Z.lt_ge_cases (t - Q_len) W) as [Hin|Hout].
    + specialize (Hi1 ltac:(lia)). specialize (Hi2 ltac:(lia)).
      eapply tracks_iff;
        [|exact (tracks_min _ _ _ _ (best2_tracks k2 Hk2)
                            (tracks_min _ _ _ _ (best1_tracks k1 Hk1) Htr))].
      intros c. cbv beta. unfold exits_before.
      replace (t + Z.of_nat k2 + 1) with (2 * t + 1 - Q_len) by lia.
      replace (t - Z.of_nat k2) with Q_len by lia.
      replace (t + Z.of_nat k1) with (2 * t - Q_len) by lia.
      replace (t - Z.of_nat k1) with Q_len by lia.
      split.
      * intros [H'|[H'|[x [H' Hx]]]].
        -- exists (2 * t + 1 - Q_len). split; [exact H' | lia].
        -- exists (2 * t - Q_len). split; [exact H' | lia].
        -- exists x. split; [exact H' | lia].
      * intros [x [H' Hx]].
        destruct (Z.eq_dec x (2 * t + 1 - Q_len)) as [->|N1]; [left; exact H'|].
        destruct (Z.eq_dec x (2 * t - Q_len)) as [->|N2]; [right; left; exact H'|].
        right. right. exists x. split; [exact H' | lia].
    + assert (Hdom : forall x y c, ends x y c -> Q_len <= y ->
                     exists c', exits_before t c' /\ c' <= c).
      { intros x y c H' Hy. destruct (exit_before_end x y c H' Hy) as [x' [c' [He Hle]]].
        exists c'. split; [|exact Hle]. exists x'. split; [exact He|].
        pose proof (exits_reach x' c' He). lia. }
      apply (tracks_iff _ (exits_before t)).
      * intros c. unfold exits_before. split; intros [x [H' Hx]]; exists x; (split; [exact H'|]).
        -- lia.
        -- pose proof (exits_reach x c H'). lia.
      * eapply tracks_min_dominated; [|exact (best2_tracks k2 Hk2)|].
        -- eapply tracks_min_dominated; [exact Htr | exact (best1_tracks k1 Hk1)|].
           intros c H'. apply (Hdom _ _ c H'). unfold B in *. lia.
        -- intros c H'. apply (Hdom _ _ c H'). unfold B in *. lia.
  - split; [|exact Hrng].
    apply (tracks_iff _ (exits_before t)); [|exact Htr].
    intros c. unfold exits_before.
    split; intros [x [H' Hx]]; pose proof (exits_reach x c H'); lia.
Qed.

End Step.

(** *** The loop *)

Hypothesis Hoob : forall v n, length v = band_size -> In (extract_oob v n) v.

Abbreviation loop :=
  (score_loop band_size extract_oob truth target qualities gap_open gap_extend nuc_prior).

Lemma score_loop_minscore (n : nat) :
  forall t b minscore,
    0 <= t -> windows_inv t b -> cells_inv t b -> minscore_inv t minscore ->
    minscore_inv (t + Z.of_nat n) (snd (loop n (2 * t) (b, minscore))).
Proof.
  induction n as [|n IH]; intros t b minscore Ht Hwin Hcell Hmin.
  - cbn [score_loop snd]. rewrite Z.add_0_r. exact Hmin.
  - cbn [score_loop]. rewrite score_step_eq.
    replace (2 * t + 2) with (2 * (t + 1)) by lia.
    replace (t + Z.of_nat (S n)) with (t + 1 + Z.of_nat n) by lia.
    apply IH.
    + lia.
    + apply windows_step; assumption.
    + apply cells_step; assumption.
    + apply minscore_step; assumption.
Qed.

Lemma exits_all (c : Z) :
  exits_before (Q_len + W + 1) c <->
  alignment_cost band_size truth target qualities gap_open gap_extend nuc_prior false c.
Proof.
  pose proof sizes as Hsz. unfold exits_before, alignment_cost. split.
  - intros [x [[(HQ & _ & ->)|[st H]] _]].
    + left. split; [|reflexivity].
      unfold target_len in HQ. destruct target; [reflexivity | discriminate HQ].
    + right. exists st, x. exact H.
  - intros [[HQ ->]|[st [x H]]].
    + exists 0. split; [|lia].
      left. unfold at_start, begins_at. rewrite HQ.
      split; [reflexivity|]. split; [lia | reflexivity].
    + exists x. split; [right; exists st; exact H|].
      apply aligned_in_band in H. unfold in_band in H. lia.
Qed.

Lemma align_score_least :
  exists r,
    align_score band_size extract_oob truth target qualities gap_open gap_extend nuc_prior
    = Returned r /\
    r <= score_ceiling /\
    (forall c, alignment_cost band_size truth target qualities gap_open gap_extend
                              nuc_prior false c -> r <= c) /\
    (r < score_ceiling ->
     alignment_cost band_size truth target qualities gap_open gap_extend nuc_prior false r).
Proof.
  pose proof sizes as Hsz.
  pose proof (score_loop_minscore (iterations band_size target) 0 _ infinity
                                  (Z.le_refl 0) windows_init cells_init minscore_init)
    as [[Hlow Hatt] Hrng].
  unfold align_score. rewrite Hshape.
  change (2 * 0) with 0 in *.
  destruct (score_loop _ _ _ _ _ _ _ _ _ _ _) as [b minscore].
  cbn [snd] in *.
  replace (0 + Z.of_nat (iterations band_size target)) with (Q_len + W + 1) in *
    by (unfold iterations; lia).
  exists (Z.shiftr (minscore + bitmask) trace_bits). split; [reflexivity|].
  change score_ceiling with 15872.
  unfold trace_bits. rewrite Z.shiftr_div_pow2 by lia. change (2 ^ 2) with 4.
  destruct (Z.lt_ge_cases minscore infinity) as [Hlt|Hge].
  - destruct (Hatt Hlt) as [c0 [Hc0 E]]. unfold enc in E.
    replace ((minscore + bitmask) / 4) with c0
      by (apply (Z.div_unique _ 4 c0 0); lia).
    split; [arith|]. split.
    + intros c Hc. apply exits_all in Hc. specialize (Hlow c Hc). unfold enc in Hlow. arith.
    + intros _. apply exits_all. exact Hc0.
  - replace minscore with infinity by lia.
    change ((infinity + bitmask) / 4) with 15872.
    split; [lia|]. split; [|lia].
    intros c Hc. apply exits_all in Hc. specialize (Hlow c Hc). unfold enc in Hlow. arith.
Qed.

End Recurrence.

Lemma penalty_within_at (truth : list ascii) (p : Penalty) (lo hi x : Z) :
  penalty_within (length truth) p lo hi -> 0 <= x < truth_len truth ->
  lo <= penalty_at truth p x <= hi.
Proof.
  intros Hp Hx. destruct p as [source|source]; [|exact Hp].
  destruct Hp as [Hl Hall]. unfold penalty_at, int8_at.
  replace (x <? truth_len truth) with true by (symmetry; apply Z.ltb_lt; lia).
  rewrite Forall_forall in Hall. apply Hall, nth_In.
  unfold truth_len in Hx. lia.
Qed.


(** * Further properties of the aligner *)

(** ** Sixteen-bit values under the bit operations *)

Lemma land_upper (a b : Z) : 0 <= a -> 0 <= Z.land a b <= a.
Proof.
  intros Ha. split; [apply Z.land_nonneg; left; exact Ha|].
  pose proof (Z.sub_land_same_l a b) as E.
  assert (0 <= Z.land a (Z.lnot b)) by (apply Z.land_nonneg; left; exact Ha).
  lia.
Qed.

Lemma lor_below (a b n : Z) :
  0 <= n -> 0 <= a < 2 ^ n -> 0 <= b < 2 ^ n -> 0 <= Z.lor a b < 2 ^ n.
Proof.
  intros Hn Ha Hb. split; [apply Z.lor_nonneg; lia|].
  destruct (Z.eq_dec a 0) as [->|Na]; [rewrite Z.lor_0_l; lia|].
  destruct (Z.eq_dec b 0) as [->|Nb]; [rewrite Z.lor_0_r; lia|].
  assert (0 < Z.lor a b).
  { assert (0 <= Z.lor a b) by (apply Z.lor_nonneg; lia).
    assert (Z.lor a b <> 0) by (intros E; apply Z.lor_eq_0_iff in E; lia).
    lia. }
  apply Z.log2_lt_pow2; [assumption|].
  rewrite Z.log2_lor by lia.
  assert (Z.log2 a < n) by (apply Z.log2_lt_pow2; lia).
  assert (Z.log2 b < n) by (apply Z.log2_lt_pow2; lia).
  lia.
Qed.

Lemma int16_lnot (x : Z) : is_int16 x -> is_int16 (Z.lnot x).
Proof. unfold is_int16, Z.lnot. lia. Qed.

Lemma int16_land (x y : Z) : is_int16 x -> is_int16 y -> is_int16 (Z.land x y).
Proof.
  intros Hx Hy. unfold is_int16 in *.
  destruct (Z.le_gt_cases 0 x) as [Px|Nx].
  - pose proof (land_upper x y Px). lia.
  - destruct (Z.le_gt_cases 0 y) as [Py|Ny].
    + pose proof (land_upper y x Py) as H. rewrite Z.land_comm in H. lia.
    + assert (Z.land x y < 0) by (apply Z.land_neg; lia).
      pose proof (Z.lnot_land x y) as E.
      pose proof (lor_below (Z.lnot x) (Z.lnot y) 15 ltac:(lia)) as H1.
      unfold Z.lnot in *. change (2 ^ 15) with 32768 in H1. lia.
Qed.

Lemma int16_lor (x y : Z) : is_int16 x -> is_int16 y -> is_int16 (Z.lor x y).
Proof.
  intros Hx Hy.
  rewrite <- (Z.lnot_involutive (Z.lor x y)), Z.lnot_lor.
  apply int16_lnot, int16_land; apply int16_lnot; assumption.
Qed.

Lemma forall_lanewise (P : Z -> Prop) (f : Z -> Z -> Z) (a b : VectorType) :
  (forall x y, P x -> P y -> P (f x y)) ->
  Forall P a -> Forall P b -> Forall P (lanewise f a b).
Proof.
  intros Hf Ha Hb. apply Forall_forall. intros z Hz.
  apply in_lanewise in Hz. destruct Hz as (x & y & Hx & Hy & ->).
  rewrite Forall_forall in Ha, Hb. auto.
Qed.

Lemma forall_add (a b : VectorType) : Forall is_int16 (_add a b).
Proof.
  apply Forall_forall. intros z Hz.
  apply in_lanewise in Hz. destruct Hz as (x & y & _ & _ & ->). apply wrap16_range.
Qed.

Lemma forall_min (a b : VectorType) :
  Forall is_int16 a -> Forall is_int16 b -> Forall is_int16 (_min a b).
Proof. apply forall_lanewise. intros x y Hx Hy. unfold is_int16 in *. lia. Qed.

Lemma forall_or (a b : VectorType) :
  Forall is_int16 a -> Forall is_int16 b -> Forall is_int16 (_or a b).
Proof. apply forall_lanewise. exact int16_lor. Qed.

Lemma forall_andnot (a b : VectorType) :
  Forall is_int16 a -> Forall is_int16 b -> Forall is_int16 (_andnot a b).
Proof.
  apply forall_lanewise. intros x y Hx Hy. apply int16_land; [apply int16_lnot|]; assumption.
Qed.

Lemma forall_insert (v : VectorType) (x n : Z) :
  Forall is_int16 v -> Forall is_int16 (_insert v x n).
Proof. intros Hv. apply forall_set_lane; [exact Hv | apply wrap16_range]. Qed.

Lemma forall_vectorise (n : nat) (x : Z) : Forall is_int16 (vectorise n x).
Proof.
  apply Forall_forall. intros z Hz. apply repeat_spec in Hz. subst z. apply wrap16_range.
Qed.

Lemma forall_zero_set_last (n : nat) (x : Z) : Forall is_int16 (vectorise_zero_set_last n x).
Proof.
  unfold vectorise_zero_set_last. destruct n as [|n]; constructor.
  - apply wrap16_range.
  - apply Forall_forall. intros z Hz. apply repeat_spec in Hz. subst z.
    unfold is_int16. lia.
Qed.

Lemma int16_lane (v : VectorType) (k : nat) : Forall is_int16 v -> is_int16 (lane v k).
Proof.
  intros Hv. unfold lane. destruct (nth_in_or_default k v 0) as [Hin|E].
  - rewrite Forall_forall in Hv. exact (Hv _ Hin).
  - rewrite E. unfold is_int16. lia.
Qed.

Lemma int16_extract (band_size : nat) (extract_oob : VectorType -> Z -> Z)
      (v : VectorType) (n : Z) :
  Forall is_int16 v -> is_int16 (_extract band_size extract_oob v n).
Proof.
  intros Hv. unfold _extract.
  destruct (_ && _); [apply int16_lane, Hv | apply wrap16_range].
Qed.

(** The patched minimum the exit scores are read from. *)
Lemma forall_best (im im2 m i d : VectorType) :
  Forall is_int16 im -> Forall is_int16 im2 -> Forall is_int16 m ->
  Forall is_int16 i -> Forall is_int16 d ->
  Forall is_int16 (_min (_or im2 (_andnot im m)) (_min i d)).
Proof.
  intros. apply forall_min; [apply forall_or; [|apply forall_andnot] | apply forall_min];
    assumption.
Qed.

Section Ranges.

Variable band_size : nat.
Variable extract_oob : VectorType -> Z -> Z.
Variables truth target : list ascii.
Variable qualities : list Z.
Variables gap_open gap_extend : Penalty.
Variable nuc_prior : Z.

Lemma init_band_int16 : dp_int16 (init_band band_size truth gap_open gap_extend).
Proof.
  unfold dp_int16, init_band; cbn [_m1 _i1 _d1 _m2 _i2 _d2 _initmask _initmask2].
  repeat split; first [apply forall_vectorise | apply forall_zero_set_last].
Qed.

Lemma forall_three : Forall is_int16 (_three band_size).
Proof. apply forall_vectorise. Qed.

Lemma score_step_int16 (s : Z) (b : Band) (minscore : Z) :
  dp_int16 (fst (score_step band_size extract_oob truth target qualities gap_open
                            gap_extend nuc_prior s (b, minscore))).
Proof.
  unfold dp_int16, score_step; cbn [fst _m1 _i1 _d1 _m2 _i2 _d2 _initmask _initmask2].
  repeat split;
    first [ apply forall_add | apply forall_of_register
          | apply forall_insert; first [apply forall_add | apply forall_of_register]
          | apply forall_min; apply forall_add ].
Qed.

Lemma score_step_minscore (s : Z) (b : Band) (minscore : Z) :
  dp_int16 b -> minscore_range minscore ->
  minscore_range (snd (score_step band_size extract_oob truth target qualities gap_open
                                  gap_extend nuc_prior s (b, minscore))).
Proof.
  intros (Hm1 & Hi1 & Hd1 & Hm2 & Hi2 & Hd2 & Him & Him2) Hr.
  unfold score_step; cbn [snd].
  pose proof (int16_extract band_size extract_oob _ (Z.max 0 (s / 2 - target_len target))
                            (forall_best _ _ _ _ _ Him Him2 Hm1 Hi1 Hd1)) as H1.
  pose proof (int16_extract band_size extract_oob _ (s / 2 - target_len target)
                            (forall_best _ _ _ _ _ Him Him2 Hm2 Hi2 Hd2)) as H2.
  unfold minscore_range, is_int16, bitmask in *.
  destruct (s / 2 >=? target_len target); lia.
Qed.

Lemma score_loop_range (n : nat) :
  forall s b minscore,
    dp_int16 b -> minscore_range minscore ->
    minscore_range (snd (score_loop band_size extract_oob truth target qualities gap_open
                                    gap_extend nuc_prior n s (b, minscore))).
Proof.
  induction n as [|n IH]; intros s b minscore Hb Hr; [exact Hr|].
  cbn [score_loop].
  pose proof (score_step_int16 s b minscore) as Hb'.
  pose proof (score_step_minscore s b minscore Hb Hr) as Hr'.
  destruct (score_step _ _ _ _ _ _ _ _ s (b, minscore)) as [b' m'].
  exact (IH _ _ _ Hb' Hr').
Qed.

End Ranges.

(** X1: whatever the penalties, on every input of the required shape the
    score-only overload returns a score between 0 and [score_ceiling] =
    15872: its running minimum starts at [infinity], only falls, and is a
    16-bit lane value. *)
Theorem score_only_range :
  forall (band_size : nat) (extract_oob : VectorType -> Z -> Z)
         (truth target : list ascii) (qualities : list Z)
         (gap_open gap_extend : Penalty) (nuc_prior : Z),
    shape_ok band_size truth target = true ->
    exists r,
      align_score band_size extract_oob truth target qualities gap_open gap_extend nuc_prior
      = Returned r /\ 0 <= r <= score_ceiling.
Proof.
  intros band_size extract_oob truth target qualities gap_open gap_extend nuc_prior Hshape.
  unfold align_score. rewrite Hshape.
  pose proof (score_loop_range band_size extract_oob truth target qualities gap_open
                gap_extend nuc_prior (iterations band_size target) 0 _ infinity
                (init_band_int16 band_size truth gap_open gap_extend)) as Hr.
  destruct (score_loop _ _ _ _ _ _ _ _ _ _ _) as [b minscore]. cbn [snd] in Hr.
  specialize (Hr ltac:(unfold minscore_range, bitmask, infinity; lia)).
  eexists. split; [reflexivity|].
  change score_ceiling with 15872. unfold trace_bits.
  rewrite Z.shiftr_div_pow2 by lia. change (2 ^ 2) with 4.
  unfold minscore_range, bitmask, infinity in *.
  split; [apply Z.div_pos; lia | apply Z.div_le_upper_bound; lia].
Qed.

(** ** The main loop of the alignment overload *)

Section TraceRanges.

Variable band_size : nat.
Variable extract_oob : VectorType -> Z -> Z.
Variables truth target : list ascii.
Variable qualities : list Z.
Variables gap_open gap_extend : Penalty.
Variable nuc_prior : Z.

Abbreviation step :=
  (align_step band_size extract_oob truth target qualities gap_open gap_extend nuc_prior).
Abbreviation loop :=
  (align_loop band_size extract_oob truth target qualities gap_open gap_extend nuc_prior).

Lemma forall_label_m (v : VectorType) :
  Forall is_int16 v -> Forall is_int16 (label_m band_size v).
Proof. intros Hv. apply forall_andnot; [apply forall_three | exact Hv]. Qed.

Lemma forall_label_i (v : VectorType) :
  Forall is_int16 v -> Forall is_int16 (label_i band_size v).
Proof.
  intros Hv. apply forall_or; [|apply forall_of_register].
  apply forall_andnot; [apply forall_three | exact Hv].
Qed.

Lemma forall_label_d (v : VectorType) :
  Forall is_int16 v -> Forall is_int16 (label_d band_size v).
Proof.
  intros Hv. apply forall_or; [|apply forall_three].
  apply forall_andnot; [apply forall_three | exact Hv].
Qed.

Lemma align_step_ok (s : Z) (st : Trace) : trace_ok st -> trace_ok (step s st).
Proof.
  intros ((Hm1 & Hi1 & Hd1 & Hm2 & Hi2 & Hd2 & Him & Him2) & Hr & Hidx).
  pose proof (int16_extract band_size extract_oob _ (s / 2 - target_len target)
                            (forall_best _ _ _ _ _ Him Him2 Hm1 Hi1 Hd1)) as H1.
  pose proof (int16_extract band_size extract_oob _ (s / 2 - target_len target)
                            (forall_best _ _ _ _ _ Him Him2 Hm2 Hi2 Hd2)) as H2.
  unfold trace_ok, align_step. cbv zeta.
  match type of H1 with is_int16 ?e => set (c1 := e) in * end.
  match type of H2 with is_int16 ?e => set (c2 := e) in * end.
  assert (Hband : forall (a1 a2 a3 a4 a5 a6 a7 a8 a9 a10 a11 a12 im im2 : VectorType)
                          (x y : Z) tw tg qq go ge tn,
             dp_int16 (mkBand (label_m band_size (_add a1 a2))
                              (label_i band_size (_add a3 a4))
                              (label_d band_size (_insert (_left_shift score_bytes a5) x 0))
                              (label_m band_size (_add a6 a7))
                              (label_i band_size (_insert (_add a8 a9) y (B band_size - 1)))
                              (label_d band_size (_min (_add a10 a11) (_add a12 go)))
                              (_left_shift score_bytes im) (_left_shift score_bytes im2)
                              tw tg qq go ge tn)).
  { intros. unfold dp_int16; cbn [_m1 _i1 _d1 _m2 _i2 _d2 _initmask _initmask2].
    repeat split;
      first [ apply forall_of_register
            | apply forall_label_m, forall_add
            | apply forall_label_i, forall_add
            | apply forall_label_i, forall_insert, forall_add
            | apply forall_label_d, forall_insert, forall_of_register
            | apply forall_label_d, forall_min; apply forall_add ]. }
  unfold minscore_range, is_int16, bitmask in *.
  destruct (s / 2 >=? target_len target).
  - destruct (c1 <? t_minscore st) eqn:E1.
    + apply Z.ltb_lt in E1.
      destruct (c2 <? c1) eqn:E2; [apply Z.ltb_lt in E2 | apply Z.ltb_ge in E2];
        cbv beta iota; cbn [t_band t_minscore t_minscoreidx];
        (split; [apply Hband | split; intros; lia]).
    + apply Z.ltb_ge in E1.
      destruct (c2 <? t_minscore st) eqn:E2; [apply Z.ltb_lt in E2 | apply Z.ltb_ge in E2];
        cbv beta iota; cbn [t_band t_minscore t_minscoreidx];
        (split; [apply Hband | split; [lia|]]).
      * intros; lia.
      * exact Hidx.
  - cbv beta iota; cbn [t_band t_minscore t_minscoreidx].
    split; [apply Hband | split; [lia | exact Hidx]].
Qed.

Lemma align_loop_ok (n : nat) : forall s st, trace_ok st -> trace_ok (loop n s st).
Proof.
  induction n as [|n IH]; intros s st Hst; [exact Hst|].
  cbn [align_loop]. apply IH, align_step_ok, Hst.
Qed.

Lemma init_trace_ok : trace_ok (init_trace band_size truth gap_open gap_extend).
Proof.
  unfold trace_ok, init_trace; cbn [t_band t_minscore t_minscoreidx].
  split; [apply init_band_int16|].
  unfold minscore_range, bitmask, infinity. lia.
Qed.

Lemma main_loop_end_ok :
  trace_ok (main_loop_end band_size extract_oob truth target qualities gap_open
                          gap_extend nuc_prior).
Proof. apply align_loop_ok, init_trace_ok. Qed.

End TraceRanges.

(** ** The variables of the backtrace *)

Lemma land_1 (z : Z) : Z.land z 1 = z mod 2.
Proof. change 1 with (Z.ones 1) at 1. rewrite Z.land_ones by lia. reflexivity. Qed.

Lemma load_runs {A : Type} (p : list A) (k : Z) :
  0 <= k < Z.of_nat (length p) -> exists a, load p k = Returned a.
Proof.
  intros Hk. unfold load.
  replace ((0 <=? k) && (k <? Z.of_nat (length p))) with true
    by (symmetry; apply andb_true_iff; split; [apply Z.leb_le | apply Z.ltb_lt]; lia).
  destruct (nth_error p (Z.to_nat k)) as [a|] eqn:E; [exists a; reflexivity|].
  apply nth_error_None in E. lia.
Qed.

Lemma store_runs (b : buffer) (k : Z) (c : ascii) :
  0 <= k < capacity b ->
  exists b', store b k c = Returned b' /\ capacity b' = capacity b.
Proof.
  intros Hk. destruct b as [l|]; [|simpl in Hk; lia].
  unfold store. cbn [capacity] in *.
  replace ((0 <=? k) && (k <? Z.of_nat (length l))) with true
    by (symmetry; apply andb_true_iff; split; [apply Z.leb_le | apply Z.ltb_lt]; lia).
  eexists. split; [reflexivity|]. cbn [capacity]. rewrite update_length. reflexivity.
Qed.

Lemma store_capacity (b b' : buffer) (k : Z) (c : ascii) :
  store b k c = Returned b' -> capacity b' = capacity b.
Proof.
  intros H. apply store_returned in H. destruct H as [l [-> [_ ->]]].
  cbn [capacity]. rewrite update_length. reflexivity.
Qed.

Section Walks.

Variable band_size : nat.
Variables truth target : list ascii.
Variable backpointers : list VectorType.
Variable x0 : Z.

Abbreviation body := (walk_body band_size truth target backpointers).
Abbreviation walk := (fun fuel => backtrace band_size truth target fuel backpointers).
Abbreviation inv := (walk_inv target x0).
Abbreviation T_len := (truth_len truth).
Abbreviation Q_len := (target_len target).

(** One iteration keeps [walk_inv]. *)
Lemma walk_body_inv (w w' : Walk) :
  inv w -> 0 < w_y w -> 0 <= w_s w -> 0 <= w_i w ->
  body w = Returned w' -> inv w'.
Proof.
  intros (Hs & Hpar & Hy & Hx & Ha & Hsum) Hy0 Hs0 Hi0 Hbody.
  unfold walk_body in Hbody. rewrite land_1 in *.
  destruct (w_state w =? match_label).
  - bind_inv Hbody. bind_inv Hbody. bind_inv Hbody. bind_inv Hbody.
    injection Hbody as <-.
    unfold walk_inv; cbn [w_s w_i w_x w_y w_alnidx]. rewrite land_1.
    Z.div_mod_to_equations. lia.
  - destruct (w_state w =? insert_label).
    + bind_inv Hbody. bind_inv Hbody. bind_inv Hbody.
      injection Hbody as <-.
      unfold walk_inv; cbn [w_s w_i w_x w_y w_alnidx]. rewrite land_1.
      Z.div_mod_to_equations. lia.
    + rewrite land_1 in Hbody.
      bind_inv Hbody. bind_inv Hbody. bind_inv Hbody.
      injection Hbody as <-.
      unfold walk_inv; cbn [w_s w_i w_x w_y w_alnidx]. rewrite land_1.
      Z.div_mod_to_equations. lia.
Qed.

(** With the reads of the truth below [T_len] and room in the buffers, one
    iteration reads and writes inside its arrays. *)
Lemma walk_body_runs (w : Walk) :
  inv w -> 0 < w_y w -> 0 <= w_s w -> 0 <= w_i w ->
  x0 <= T_len ->
  x0 + Q_len < capacity (w_align1 w) -> x0 + Q_len < capacity (w_align2 w) ->
  exists w', body w = Returned w' /\
             capacity (w_align1 w') = capacity (w_align1 w) /\
             capacity (w_align2 w') = capacity (w_align2 w).
Proof.
  intros (Hs & Hpar & Hy & Hx & Ha & Hsum) Hy0 Hs0 Hi0 HT Hc1 Hc2.
  rewrite land_1 in Hpar.
  assert (Hxy : w_y w <= w_x w) by (Z.div_mod_to_equations; lia).
  destruct (load_runs truth (w_x w - 1)) as [c1 L1]; [unfold truth_len in HT; lia|].
  destruct (load_runs target (w_y w - 1)) as [c2 L2]; [unfold target_len in Hy; lia|].
  unfold walk_body.
  destruct (w_state w =? match_label).
  - destruct (store_runs (w_align1 w) (w_alnidx w) c1) as [a1 [S1 C1]]; [lia|].
    destruct (store_runs (w_align2 w) (w_alnidx w) c2) as [a2 [S2 C2]]; [lia|].
    rewrite L1; cbn [bind]. rewrite S1; cbn [bind]. rewrite L2; cbn [bind].
    rewrite S2; cbn [bind].
    eexists. split; [reflexivity|]. cbn [w_align1 w_align2]. split; assumption.
  - destruct (w_state w =? insert_label).
    + destruct (store_runs (w_align1 w) (w_alnidx w) gap_label) as [a1 [S1 C1]]; [lia|].
      destruct (store_runs (w_align2 w) (w_alnidx w) c2) as [a2 [S2 C2]]; [lia|].
      rewrite S1; cbn [bind]. rewrite L2; cbn [bind]. rewrite S2; cbn [bind].
      eexists. split; [reflexivity|]. cbn [w_align1 w_align2]. split; assumption.
    + destruct (store_runs (w_align1 w) (w_alnidx w) c1) as [a1 [S1 C1]]; [lia|].
      destruct (store_runs (w_align2 w) (w_alnidx w) gap_label) as [a2 [S2 C2]]; [lia|].
      rewrite L1; cbn [bind]. rewrite S1; cbn [bind]. rewrite S2; cbn [bind].
      eexists. split; [reflexivity|]. cbn [w_align1 w_align2]. split; assumption.
Qed.

Lemma backtrace_inv (fuel : nat) :
  forall w w', inv w -> walk fuel w = Completed w' -> inv w' /\ w_y w' = 0.
Proof.
  induction fuel as [|fuel IH]; intros w w' Hinv Hbt; [discriminate|].
  cbn [backtrace] in Hbt.
  destruct (w_y w >? 0) eqn:Hy.
  - apply Z.gtb_lt in Hy.
    destruct ((w_s w <? 0) || (w_i w <? 0)) eqn:Hov; [discriminate|].
    apply orb_false_iff in Hov. destruct Hov as [Hs Hi].
    apply Z.ltb_ge in Hs, Hi.
    destruct (body w) as [w1| | |] eqn:Hbody; try discriminate.
    exact (IH _ _ (walk_body_inv _ _ Hinv Hy Hs Hi Hbody) Hbt).
  - injection Hbt as <-. split; [exact Hinv|].
    rewrite Z.gtb_ltb in Hy. apply Z.ltb_ge in Hy.
    destruct Hinv as (_ & _ & Hy' & _). lia.
Qed.

Lemma backtrace_runs (fuel : nat) :
  forall w,
    inv w -> x0 <= T_len ->
    x0 + Q_len < capacity (w_align1 w) -> x0 + Q_len < capacity (w_align2 w) ->
    walk fuel w <> Faulted /\
    forall w', walk fuel w = Completed w' ->
               capacity (w_align1 w') = capacity (w_align1 w) /\
               capacity (w_align2 w') = capacity (w_align2 w).
Proof.
  induction fuel as [|fuel IH]; intros w Hinv HT Hc1 Hc2;
    [split; [discriminate | intros w' H; discriminate]|].
  cbn [backtrace].
  destruct (w_y w >? 0) eqn:Hy.
  - apply Z.gtb_lt in Hy.
    destruct ((w_s w <? 0) || (w_i w <? 0)) eqn:Hov;
      [split; [discriminate | intros w' H; discriminate]|].
    apply orb_false_iff in Hov. destruct Hov as [Hs Hi].
    apply Z.ltb_ge in Hs, Hi.
    destruct (walk_body_runs w Hinv Hy Hs Hi HT Hc1 Hc2) as (w1 & Hbody & C1 & C2).
    rewrite Hbody.
    destruct (IH w1 (walk_body_inv _ _ Hinv Hy Hs Hi Hbody) HT
                 ltac:(rewrite C1; exact Hc1) ltac:(rewrite C2; exact Hc2)) as [Hnf Hcap].
    split; [exact Hnf|].
    intros w' Hw'. destruct (Hcap w' Hw') as [E1 E2]. rewrite E1, E2. split; assumption.
  - split; [discriminate|]. intros w' H. injection H as <-. split; reflexivity.
Qed.

End Walks.

Lemma start_walk_inv (band_size : nat) (target : list ascii) (st : Trace)
      (buf1 buf2 : buffer) :
  2 * target_len target <= t_minscoreidx st ->
  walk_inv target (t_minscoreidx st - target_len target)
           (start_walk band_size target st buf1 buf2).
Proof.
  intros Hidx. unfold walk_inv, start_walk; cbn [w_s w_i w_x w_y w_alnidx].
  rewrite land_1. pose proof (Zle_0_nat (length target)).
  unfold target_len in *. Z.div_mod_to_equations. lia.
Qed.

(** X2: a call of the alignment overload that returns tells failure from
    success by the sign of the score: either the score and [first_pos] are
    both -1, or the score is between 0 and 15871 and [first_pos] is not
    negative. *)
Theorem align_result_range :
  forall (band_size : nat) (extract_oob : VectorType -> Z -> Z)
         (truth target : list ascii) (qualities : list Z)
         (gap_open gap_extend : Penalty) (nuc_prior : Z) (buf1 buf2 : buffer)
         (r : Alignment),
    align band_size extract_oob truth target qualities gap_open gap_extend
          nuc_prior buf1 buf2 = Returned r ->
    (score r = -1 /\ first_pos r = -1) \/
    (0 <= score r < score_ceiling /\ 0 <= first_pos r).
Proof.
  intros band_size extract_oob truth target qualities gap_open gap_extend nuc_prior
         buf1 buf2 r.
  unfold align. destruct (shape_ok band_size truth target); [|discriminate].
  fold (main_loop_end band_size extract_oob truth target qualities
                      gap_open gap_extend nuc_prior).
  pose proof (main_loop_end_ok band_size extract_oob truth target qualities
                               gap_open gap_extend nuc_prior) as (_ & Hr & Hlt).
  pose proof (main_loop_end_minscoreidx band_size extract_oob truth target qualities
                gap_open gap_extend nuc_prior) as Hbound.
  set (st := main_loop_end _ _ _ _ _ _ _ _) in *.
  unfold finish.
  destruct (t_minscoreidx st <? 0) eqn:Hidx.
  { intros H; injection H as <-. left. split; reflexivity. }
  destruct (ptr_outside band_size target st).
  { intros H; injection H as <-. left. split; reflexivity. }
  apply Z.ltb_ge in Hidx. destruct Hbound as [Hbound|Hbound]; [lia|].
  set (w0 := start_walk band_size target st buf1 buf2).
  destruct (backtrace band_size truth target (walk_fuel (w_s w0)) (t_backpointers st) w0)
    as [w|w| |] eqn:Hbt; try discriminate.
  2:{ intros H; injection H as <-. left. split; reflexivity. }
  destruct (backtrace_inv band_size truth target (t_backpointers st)
              (t_minscoreidx st - target_len target) _ w0 w
              (start_walk_inv band_size target st buf1 buf2 ltac:(lia)) Hbt)
    as [(_ & _ & _ & Hx & _) _].
  intros H. bind_inv H. bind_inv H.
  destruct a as [l1|]; [|discriminate]. destruct a0 as [l2|]; [|discriminate].
  destruct (reverse_loop _ _ _ _ _) as [r1 r2]. injection H as <-.
  right. cbn [score first_pos]. split; [|lia].
  change score_ceiling with 15872. unfold trace_bits.
  rewrite Z.shiftr_div_pow2 by lia. change (2 ^ 2) with 4.
  specialize (Hlt Hidx). unfold minscore_range, bitmask, infinity in *.
  split; [apply Z.div_pos; lia | apply Z.div_lt_upper_bound; lia].
Qed.

(** X6: with buffers of at least [|T| + |Q| + 1] characters (the unit tests
    pass [2 |T| + 1]) a call of the alignment overload on an input of the
    required shape returns, with every read of the truth and the target and
    every write to the two buffers inside its array, provided the minimum
    was not last lowered in the final iteration of the main loop (the one
    that extracts lane [band_size]). *)
Theorem align_stays_in_bounds :
  forall (band_size : nat) (extract_oob : VectorType -> Z -> Z)
         (truth target : list ascii) (qualities : list Z)
         (gap_open gap_extend : Penalty) (nuc_prior : Z) (buf1 buf2 : buffer),
    shape_ok band_size truth target = true ->
    (2 <= band_size)%nat ->
    truth_len truth + target_len target + 1 <= capacity buf1 ->
    truth_len truth + target_len target + 1 <= capacity buf2 ->
    t_minscoreidx (main_loop_end band_size extract_oob truth target qualities
                                 gap_open gap_extend nuc_prior)
    < 2 * (target_len target + B band_size) ->
    exists r,
      align band_size extract_oob truth target qualities gap_open gap_extend
            nuc_prior buf1 buf2 = Returned r.
Proof.
  intros band_size extract_oob truth target qualities gap_open gap_extend nuc_prior
         buf1 buf2 Hshape HB Hc1 Hc2 Hlast.
  pose proof (shape_ok_true band_size truth target Hshape) as [HTW HT].
  pose proof (main_loop_end_minscoreidx band_size extract_oob truth target qualities
                gap_open gap_extend nuc_prior) as Hbound.
  pose proof (ptr_inside band_size extract_oob truth target qualities gap_open gap_extend
                         nuc_prior Hshape HB) as Hptr.
  unfold align. rewrite Hshape.
  fold (main_loop_end band_size extract_oob truth target qualities
                      gap_open gap_extend nuc_prior).
  set (st := main_loop_end _ _ _ _ _ _ _ _) in *.
  unfold finish.
  destruct (t_minscoreidx st <? 0) eqn:Hidx; [eexists; reflexivity|].
  apply Z.ltb_ge in Hidx. rewrite (Hptr Hidx).
  destruct Hbound as [Hbound|Hbound]; [lia|].
  set (w0 := start_walk band_size target st buf1 buf2).
  set (x0 := t_minscoreidx st - target_len target).
  assert (Hinv0 : walk_inv target x0 w0)
    by (apply start_walk_inv; lia).
  assert (Hx0 : x0 <= truth_len truth) by (unfold x0; lia).
  assert (Hr1 : x0 + target_len target < capacity (w_align1 w0))
    by (unfold w0, start_walk; cbn [w_align1]; lia).
  assert (Hr2 : x0 + target_len target < capacity (w_align2 w0))
    by (unfold w0, start_walk; cbn [w_align2]; lia).
  destruct (backtrace_runs band_size truth target (t_backpointers st) x0
                           (walk_fuel (w_s w0)) w0 Hinv0 Hx0 Hr1 Hr2) as [Hnf Hcap].
  pose proof (backtrace_enough_fuel band_size truth target (t_backpointers st)
                                    (walk_fuel (w_s w0)) w0 (Nat.le_refl _)) as Hfuel.
  destruct (backtrace band_size truth target (walk_fuel (w_s w0)) (t_backpointers st) w0)
    as [w|w| |] eqn:Hbt; try contradiction.
  2:{ eexists; reflexivity. }
  destruct (Hcap w eq_refl) as [E1 E2].
  destruct (backtrace_inv band_size truth target (t_backpointers st) x0 _ w0 w Hinv0 Hbt)
    as [(_ & _ & Hy & Hx & Ha & Hsum) _].
  destruct (store_runs (w_align1 w) (w_alnidx w) zero) as [a1 [S1 _]]; [lia|].
  destruct (store_runs (w_align2 w) (w_alnidx w) zero) as [a2 [S2 _]]; [lia|].
  rewrite S1; cbn [bind]. rewrite S2; cbn [bind].
  apply store_returned in S1, S2.
  destruct S1 as [l1 [_ [_ ->]]]. destruct S2 as [l2 [_ [_ ->]]].
  destruct (reverse_loop _ _ _ _ _) as [r1 r2].
  eexists; reflexivity.
Qed.

(** ** The columns of the alignment *)


Section Columns.

Variable band_size : nat.
Variables truth target : list ascii.
Variable backpointers : list VectorType.
Variable x0 : Z.

Hypothesis truth_bases : bases truth.
Hypothesis target_bases : bases target.



End Columns.


(** ** The back-pointer buffer *)

(** X3: after the main loop of the alignment overload, for a register of at
    least two lanes, the test of lines 255-256 on [ptr + i] never holds: once
    [minscoreidx] is set, the word the backtrace starts from lies inside the
    back-pointer buffer, and the return of lines 257-258 is never taken. *)
Theorem range_check_never_fails :
  forall (band_size : nat) (extract_oob : VectorType -> Z -> Z)
         (truth target : list ascii) (qualities : list Z)
         (gap_open gap_extend : Penalty) (nuc_prior : Z),
    shape_ok band_size truth target = true ->
    (2 <= band_size)%nat ->
    let st := main_loop_end band_size extract_oob truth target qualities
                            gap_open gap_extend nuc_prior in
    0 <= t_minscoreidx st ->
    ptr_outside band_size target st = false /\
    t_minscoreidx st < Z.of_nat (length (t_backpointers st)).
Proof.
  intros band_size extract_oob truth target qualities gap_open gap_extend nuc_prior
         Hshape HB st Hidx.
  split; [exact (ptr_inside band_size extract_oob truth target qualities gap_open
                            gap_extend nuc_prior Hshape HB Hidx)|].
  pose proof (main_loop_end_minscoreidx band_size extract_oob truth target qualities
                gap_open gap_extend nuc_prior) as Hbound.
  pose proof (main_loop_end_backpointers band_size extract_oob truth target qualities
                gap_open gap_extend nuc_prior) as Hlen.
  pose proof (shape_ok_true band_size truth target Hshape) as [HTW HT].
  fold st in Hbound, Hlen. unfold B in *. lia.
Qed.

Lemma lane_left_shift_words (k : Z) (v : VectorType) (n : nat) :
  lane (_left_shift_words k v) n = wrap16 (Z.shiftl (lane v n) k).
Proof.
  unfold _left_shift_words, lane.
  rewrite <- (map_nth (fun x => wrap16 (Z.shiftl x k)) v 0 n).
  rewrite Z.shiftl_0_l. reflexivity.
Qed.

Lemma land_3_cases (x : Z) :
  Z.land 3 x = 0 \/ Z.land 3 x = 1 \/ Z.land 3 x = 2 \/ Z.land 3 x = 3.
Proof. pose proof (land_upper 3 x ltac:(lia)). lia. Qed.

(** The word of lane [k] of a packed back-pointer vector, and its three
    fields. *)
Lemma lane_pack_backpointer (band_size : nat) (m i d : VectorType) (k : nat) :
  length m = band_size -> length i = band_size -> length d = band_size ->
  (k < band_size)%nat ->
  let word := lane (pack_backpointer band_size m i d) k in
  Z.land (Z.shiftr word (2 * match_label)) 3 = Z.land (lane m k) 3 /\
  Z.land (Z.shiftr word (2 * insert_label)) 3 = Z.land (lane i k) 3 /\
  Z.land (Z.shiftr word (2 * delete_label)) 3 = Z.land (lane d k) 3.
Proof.
  intros Hm Hi Hd Hk word. unfold word, pack_backpointer, _or, _and, _three.
  pose proof (length_vectorise band_size 3) as H3.
  rewrite lane_lanewise
    by (unfold _left_shift_words; rewrite ?length_lanewise, ?length_map, ?length_lanewise; lia).
  rewrite lane_lanewise
    by (unfold _left_shift_words; rewrite ?length_lanewise, ?length_map, ?length_lanewise; lia).
  rewrite !lane_left_shift_words.
  rewrite !lane_lanewise by lia.
  rewrite lane_vectorise by exact Hk. change (wrap16 3) with 3.
  rewrite (Z.land_comm (lane m k) 3), (Z.land_comm (lane i k) 3), (Z.land_comm (lane d k) 3).
  destruct (land_3_cases (lane m k)) as [->|[->|[->| ->]]];
    destruct (land_3_cases (lane i k)) as [->|[->|[->| ->]]];
    destruct (land_3_cases (lane d k)) as [->|[->|[->| ->]]];
    repeat split; reflexivity.
Qed.

(** The buffer read as one array of words: word [i] of vector [s]. *)
Lemma backpointer_at_lane (band_size : nat) (backpointers : list VectorType) (s i : nat) :
  Forall (fun v => length v = band_size) backpointers ->
  (i < band_size)%nat ->
  backpointer_at band_size backpointers (Z.of_nat s) (Z.of_nat i)
  = lane (nth s backpointers []) i.
Proof.
  intros Hall Hi. unfold backpointer_at, B, lane.
  replace (Z.to_nat (Z.of_nat s * Z.of_nat band_size + Z.of_nat i))
    with (s * band_size + i)%nat by lia.
  revert s. induction Hall as [|v r Hv _ IH]; intros s.
  - simpl. destruct (s * band_size + i)%nat; destruct s; destruct i; reflexivity.
  - destruct s as [|s]; cbn [concat nth].
    + rewrite Nat.mul_0_l, Nat.add_0_l. apply app_nth1. lia.
    + rewrite app_nth2 by lia.
      replace (S s * band_size + i - length v)%nat with (s * band_size + i)%nat by lia.
      apply IH.
Qed.

Lemma nth_update_same {A : Type} (l : list A) (k : nat) (a d : A) :
  (k < length l)%nat -> nth k (update l k a) d = a.
Proof.
  revert k; induction l as [|b l IH]; intros [|k] Hk; simpl in *; try lia; [reflexivity|].
  apply IH. lia.
Qed.

Lemma forall_update {A : Type} (P : A -> Prop) (l : list A) (k : nat) (a : A) :
  Forall P l -> P a -> Forall P (update l k a).
Proof.
  intros Hl Ha. revert k; induction Hl as [|b l Hb Hl IH]; intros [|k]; simpl;
    constructor; auto.
Qed.

(** X4: what the backtrace decodes is what the main loop packed.  After
    [_backpointers[s]] is written from the vectors [m], [i], [d], the word the
    backtrace reads at [(s, k)], shifted by twice a state label and masked
    with 3, is the low two bits of lane [k] of [m] (label 0), of [i] (label 1)
    or of [d] (label 3). *)
Theorem backpointer_round_trip :
  forall (band_size : nat) (backpointers : list VectorType) (s : nat)
         (m i d : VectorType) (k : nat),
    Forall (fun v => length v = band_size) backpointers ->
    (s < length backpointers)%nat ->
    length m = band_size -> length i = band_size -> length d = band_size ->
    (k < band_size)%nat ->
    let written := update backpointers s (pack_backpointer band_size m i d) in
    let decoded state :=
      Z.land (Z.shiftr (backpointer_at band_size written (Z.of_nat s) (Z.of_nat k))
                       (2 * state)) 3 in
    decoded match_label = Z.land (lane m k) 3 /\
    decoded insert_label = Z.land (lane i k) 3 /\
    decoded delete_label = Z.land (lane d k) 3.
Proof.
  intros band_size backpointers s m i d k Hall Hs Hm Hi Hd Hk written decoded.
  assert (Hlen : length (pack_backpointer band_size m i d) = band_size).
  { pose proof (length_vectorise band_size 3) as H3.
    unfold pack_backpointer, _or, _and, _three, _left_shift_words.
    rewrite ?length_lanewise, ?length_map, ?length_lanewise. lia. }
  unfold decoded, written.
  rewrite backpointer_at_lane by (try apply forall_update; assumption).
  rewrite nth_update_same by exact Hs.
  exact (lane_pack_backpointer band_size m i d k Hm Hi Hd Hk).
Qed.

(** ** The reversal of the buffers *)

(** X5: the last loop of the alignment overload turns the first [n]
    characters of the two buffers around in place and leaves the rest (the
    terminator it has just written included) where it is; run a second time
    it puts the buffers back. *)
Theorem reversal_in_place :
  forall (n : nat) (l1 l2 : list ascii),
    (n <= length l1)%nat -> (n <= length l2)%nat ->
    let turned := reverse_loop n 0 (Z.of_nat n - 1) l1 l2 in
    turned = (rev (firstn n l1) ++ skipn n l1, rev (firstn n l2) ++ skipn n l2) /\
    reverse_loop n 0 (Z.of_nat n - 1) (fst turned) (snd turned) = (l1, l2).
Proof.
  intros n l1 l2 H1 H2.
  assert (Hturn : forall a b : list ascii,
             length a = n -> length b = n ->
             forall ra rb, reverse_loop n 0 (Z.of_nat n - 1) (a ++ ra) (b ++ rb)
                           = (rev a ++ ra, rev b ++ rb)).
  { intros a b Ha Hb ra rb.
    apply (reverse_loop_spec n [] a ra [] b rb 0 (Z.of_nat n - 1));
      cbn [length]; lia. }
  assert (F1 : length (firstn n l1) = n) by (rewrite length_firstn; lia).
  assert (F2 : length (firstn n l2) = n) by (rewrite length_firstn; lia).
  pose proof (Hturn _ _ F1 F2 (skipn n l1) (skipn n l2)) as E.
  rewrite !firstn_skipn in E.
  cbv zeta. rewrite E. split; [reflexivity|]. cbn [fst snd].
  rewrite (Hturn (rev (firstn n l1)) (rev (firstn n l2)))
    by (rewrite length_rev; assumption).
  rewrite !rev_involutive, !firstn_skipn. reflexivity.
Qed.

(** ** What the least penalty tells *)

Lemma char_to_int_inj (c d : ascii) : char_to_int c = char_to_int d -> c = d.
Proof.
  intros H. rewrite <- (ascii_N_embedding c), <- (ascii_N_embedding d).
  f_equal. pose proof (N_ascii_bounded c). pose proof (N_ascii_bounded d).
  unfold char_to_int in H. cbv zeta in H.
  destruct (Z.ltb_spec (Z.of_N (N_of_ascii c)) 128);
    destruct (Z.ltb_spec (Z.of_N (N_of_ascii d)) 128); lia.
Qed.

Section LeastPenalty.

Variable band_size : nat.
Variables truth target : list ascii.
Variable qualities : list Z.
Variables gap_open gap_extend : Penalty.
Variable nuc_prior : Z.
Variables Qm Gm g : Z.

Abbreviation W := (B band_size).
Abbreviation T_len := (truth_len truth).
Abbreviation Q_len := (target_len target).
Abbreviation em := (emission truth target qualities).
Abbreviation gO := (penalty_at truth gap_open).
Abbreviation gE := (penalty_at truth gap_extend).
Abbreviation cost :=
  (alignment_cost band_size truth target qualities gap_open gap_extend nuc_prior).

Hypothesis Hshape : shape_ok band_size truth target = true.
Hypothesis Hfit :
  penalties_fit band_size truth target qualities gap_open gap_extend nuc_prior Qm Gm g.

Lemma fit_sizes : W < T_len /\ T_len = Q_len + 2 * W - 1 /\ 0 <= Q_len /\ 0 <= W.
Proof.
  pose proof (shape_ok_true band_size truth target Hshape).
  unfold B, target_len in *. lia.
Qed.

Lemma penalty_at_within (p : Penalty) (lo hi x : Z) :
  penalty_within (length truth) p lo hi -> 0 <= x -> lo <= penalty_at truth p x <= hi.
Proof.
  intros Hp Hx. pose proof fit_sizes as Hsz.
  destruct p as [source|source]; [|exact Hp].
  destruct Hp as [Hl Hall]. unfold penalty_at, int8_at.
  rewrite Forall_forall in Hall. apply Hall, nth_In.
  unfold truth_len in *. destruct (Z.ltb_spec x (Z.of_nat (length truth))); lia.
Qed.

Lemma quality_at_within (lo hi y : Z) :
  Forall (fun q => lo <= q <= hi) qualities -> 0 <= y ->
  Z.min lo max_n_quality <= quality_at target qualities y <= Z.max hi max_n_quality.
Proof.
  intros Hall Hy. destruct Hfit as (Hlen & _).
  unfold quality_at, int8_at.
  destruct (Z.ltb_spec y Q_len) as [H|H]; [|lia].
  rewrite Forall_forall in Hall.
  assert (lo <= nth (Z.to_nat y) qualities 0 <= hi)
    by (apply Hall, nth_In; unfold target_len in H; lia).
  lia.
Qed.

Lemma emission_nonneg (x y : Z) : 0 <= y -> 0 <= em x y.
Proof.
  intros Hy. destruct Hfit as (_ & Hq & _).
  pose proof (quality_at_within 0 Qm y Hq Hy). unfold max_n_quality in *.
  unfold emission. destruct (_ =? _); [lia|]. destruct (_ =? _); lia.
Qed.

Lemma open_nonneg (x : Z) : 0 <= x -> 0 <= gO x.
Proof.
  intros Hx. destruct Hfit as (_ & _ & Ho & _).
  pose proof (penalty_at_within gap_open 0 Gm x Ho Hx). lia.
Qed.

Lemma extend_nonneg (x : Z) : 0 <= x -> 0 <= gE x.
Proof.
  intros Hx. destruct Hfit as (_ & _ & _ & He & Hg & _).
  pose proof (penalty_at_within gap_extend g g x He Hx). lia.
Qed.

(** No alignment has a negative penalty. *)
Lemma aligned_nonneg (lead_gap : bool) (st : State) (x y c : Z) :
  aligned band_size truth target qualities gap_open gap_extend nuc_prior lead_gap st x y c ->
  0 <= c.
Proof.
  destruct Hfit as (_ & _ & _ & _ & _ & Hprior & _).
  intros H. induction H as [x Hb Hin|x Hb Hl Hin|x Hb Hl Hin|st x y c H IH Hin
                            |x y c H IH Hin|x y c H IH Hin|st x y c H IH Hst Hin
                            |x y c H IH Hin].
  - apply emission_nonneg. lia.
  - unfold in_band in Hin. pose proof (open_nonneg (x - 1)). lia.
  - unfold begins_at in Hb. pose proof (open_nonneg x). lia.
  - apply aligned_in_band in H. unfold in_band in H. pose proof (emission_nonneg x y). lia.
  - apply aligned_in_band in H. unfold in_band in H, Hin.
    pose proof (open_nonneg (x - 1)). lia.
  - apply aligned_in_band in H. unfold in_band in H, Hin.
    pose proof (extend_nonneg (x - 1)). lia.
  - apply aligned_in_band in H. unfold in_band in H. pose proof (open_nonneg x). lia.
  - apply aligned_in_band in H. unfold in_band in H. pose proof (extend_nonneg x). lia.
Qed.

Lemma cost_nonneg (lead_gap : bool) (c : Z) : cost lead_gap c -> 0 <= c.
Proof.
  intros [[_ ->]|[st [x H]]]; [lia | exact (aligned_nonneg _ _ _ _ _ H)].
Qed.

(** The target laid along the truth from offset [p] on, without a gap. *)
Lemma ungapped_path (lead_gap : bool) (p : Z) (n : nat) :
  0 <= p <= 2 * W - 1 ->
  aligned band_size truth target qualities gap_open gap_extend nuc_prior lead_gap
          StM (p + Z.of_nat (S n)) (Z.of_nat (S n))
          (ungapped_penalty truth target qualities p (S n)).
Proof.
  intros Hp. induction n as [|n IH].
  - cbn [ungapped_penalty]. rewrite Z.add_0_l.
    change (Z.of_nat 1) with (0 + 1). rewrite Z.add_assoc. change (Z.of_nat 0) with 0.
    apply begin_match; unfold begins_at, in_band; lia.
  - cbn [ungapped_penalty] in *.
    replace (p + Z.of_nat (S (S n))) with (p + Z.of_nat (S n) + 1) by lia.
    replace (Z.of_nat (S (S n))) with (Z.of_nat (S n) + 1) by lia.
    eapply match_bases; [exact IH|]. unfold in_band. lia.
Qed.

Lemma ungapped_cost (lead_gap : bool) (p : Z) :
  0 <= p <= 2 * W - 1 ->
  cost lead_gap (ungapped_penalty truth target qualities p (length target)).
Proof.
  intros Hp. unfold alignment_cost.
  destruct target as [|c q] eqn:E; [left; split; reflexivity|].
  right. exists StM, (p + Z.of_nat (S (length q))). rewrite <- E.
  replace (target_len target) with (Z.of_nat (S (length q)))
    by (unfold target_len; rewrite E; reflexivity).
  replace (length target) with (S (length q)) by (rewrite E; reflexivity).
  apply ungapped_path. exact Hp.
Qed.

(** The target read in the truth, position by position. *)
Lemma occurs_at_bases (p : Z) :
  0 <= p -> p + Q_len <= T_len ->
  occurs_at truth target p <->
  forall j, 0 <= j < Q_len -> char_at truth (p + j) = char_at target j.
Proof.
  intros Hp HpQ. unfold occurs_at, substring, target_len, truth_len, char_at in *. split.
  - intros E j Hj. rewrite <- E at 1.
    rewrite nth_firstn, nth_skipn.
    replace (Z.to_nat j <? length target)%nat with true
      by (symmetry; apply Nat.ltb_lt; lia).
    f_equal. lia.
  - intros H. apply (nth_ext _ _ zero zero).
    + rewrite length_firstn, length_skipn. lia.
    + intros n Hn. rewrite length_firstn, length_skipn in Hn.
      rewrite nth_firstn, nth_skipn.
      replace (n <? length target)%nat with true by (symmetry; apply Nat.ltb_lt; lia).
      specialize (H (Z.of_nat n) ltac:(lia)).
      rewrite Nat2Z.id in H. rewrite <- H. f_equal. lia.
Qed.

Lemma ungapped_zero (p : Z) (n : nat) :
  0 <= p -> p + Q_len <= T_len -> (n <= length target)%nat ->
  occurs_at truth target p ->
  ungapped_penalty truth target qualities p n = 0.
Proof.
  intros Hp HpQ Hn Hocc. rewrite (occurs_at_bases p Hp HpQ) in Hocc.
  induction n as [|n IH]; [reflexivity|].
  cbn [ungapped_penalty]. rewrite IH by lia.
  unfold emission, truth_base, target_base.
  replace (Z.of_nat n <? Q_len) with true
    by (symmetry; apply Z.ltb_lt; unfold target_len; lia).
  replace (p + Z.of_nat n <? T_len) with true
    by (symmetry; apply Z.ltb_lt; unfold target_len in *; lia).
  rewrite (Hocc (Z.of_nat n)) by (unfold target_len; lia).
  rewrite Z.eqb_refl. reflexivity.
Qed.

(** *** The score-only overload *)

Variable extract_oob : VectorType -> Z -> Z.
Hypothesis Hoob : forall v n, length v = band_size -> In (extract_oob v n) v.

Abbreviation the_score :=
  (align_score band_size extract_oob truth target qualities gap_open gap_extend nuc_prior).

Lemma fit_least :
  exists r,
    the_score = Returned r /\ r <= score_ceiling /\
    (forall c, cost false c -> r <= c) /\
    (r < score_ceiling -> cost false r).
Proof.
  destruct Hfit as (Hlen & Hq & Ho & He & Hg & Hprior & Hbudget).
  apply (align_score_least band_size extract_oob truth target qualities gap_open gap_extend
                           nuc_prior Qm Gm g); try assumption.
  - destruct band_size as [|n]; [|lia].
    destruct (Hoob [] 0 eq_refl).
  - intros y Hy. unfold int8_at.
    rewrite Forall_forall in Hq. apply Hq, nth_In.
    unfold target_len in Hy. lia.
  - intros x Hx. exact (penalty_within_at truth gap_open 0 Gm x Ho Hx).
  - intros x Hx. pose proof (penalty_within_at truth gap_extend g g x He Hx). lia.
Qed.

Lemma score_at_most_ungapped (p r : Z) :
  0 <= p <= 2 * W - 1 -> the_score = Returned r ->
  r <= ungapped_penalty truth target qualities p (length target).
Proof.
  intros Hp Hr. destruct fit_least as (r' & Hr' & _ & Hlow & _).
  rewrite Hr in Hr'. injection Hr' as <-.
  apply Hlow, ungapped_cost, Hp.
Qed.

Lemma score_zero_of_occurrence (p : Z) :
  0 <= p <= 2 * W - 1 -> occurs_at truth target p -> the_score = Returned 0.
Proof.
  intros Hp Hocc. pose proof fit_sizes as Hsz.
  destruct fit_least as (r & Hr & _ & Hlow & Hatt).
  pose proof (Hlow _ (ungapped_cost false p Hp)) as Hle.
  rewrite (ungapped_zero p (length target)) in Hle by (try exact Hocc; lia).
  assert (0 <= r).
  { destruct (Z.lt_ge_cases r score_ceiling) as [Hlt|Hge].
    - exact (cost_nonneg false r (Hatt Hlt)).
    - change score_ceiling with 15872 in Hge. lia. }
  replace r with 0 in Hr by lia. exact Hr.
Qed.

(** *** When every edit costs something *)

Hypothesis Hquality : Forall (fun q => 0 < q) qualities.
Hypothesis Hopen : penalty_within (length truth) gap_open 1 Gm.
Hypothesis Hextend : 0 < g.

Lemma emission_zero (x y : Z) :
  0 <= y -> em x y = 0 -> truth_base truth x = target_base target y.
Proof.
  intros Hy. unfold emission.
  destruct (Z.eqb_spec (char_to_int (target_base target y)) (char_to_int (truth_base truth x)))
    as [E|E].
  - intros _. symmetry. apply char_to_int_inj, E.
  - assert (Hq : Forall (fun q => 1 <= q <= Z.max Qm 1) qualities).
    { destruct Hfit as (_ & Hq & _). rewrite Forall_forall in *.
      intros q Hin. specialize (Hq q Hin). specialize (Hquality q Hin). lia. }
    pose proof (quality_at_within 1 (Z.max Qm 1) y Hq Hy). unfold max_n_quality in *.
    destruct (_ =? _); lia.
Qed.

(** An alignment that costs nothing is the target read off the truth. *)
Lemma zero_path (st : State) (x y c : Z) :
  aligned band_size truth target qualities gap_open gap_extend nuc_prior false st x y c ->
  c = 0 ->
  0 <= x - y <= 2 * W - 1 /\
  forall j, 0 <= j < y -> truth_base truth (x - y + j) = target_base target j.
Proof.
  destruct Hfit as (_ & _ & _ & He & _ & Hprior & _).
  intros H. induction H as [x Hb Hin|x Hb Hl Hin|x Hb Hl Hin|st x y c H IH Hin
                            |x y c H IH Hin|x y c H IH Hin|st x y c H IH Hst Hin
                            |x y c H IH Hin]; intros Hc.
  - unfold begins_at in Hb. split; [lia|].
    intros j Hj. replace (x + 1 - 1 + j) with x by lia. replace j with 0 by lia.
    apply emission_zero; [lia | exact Hc].
  - unfold in_band in Hin.
    pose proof (penalty_at_within gap_open 1 Gm (x - 1) Hopen). lia.
  - unfold begins_at in Hb.
    pose proof (penalty_at_within gap_open 1 Gm x Hopen). lia.
  - pose proof (aligned_nonneg _ _ _ _ _ H) as Hn.
    pose proof (aligned_in_band _ _ _ _ _ _ _ _ _ _ _ _ H) as Hb. unfold in_band in Hb.
    pose proof (emission_nonneg x y ltac:(lia)) as He0.
    destruct (IH ltac:(lia)) as [Hoff Hpath].
    split; [lia|]. intros j Hj.
    destruct (Z.eq_dec j y) as [->|Hne].
    + replace (x + 1 - (y + 1) + y) with x by lia. apply emission_zero; lia.
    + replace (x + 1 - (y + 1) + j) with (x - y + j) by lia. apply Hpath. lia.
  - pose proof (aligned_nonneg _ _ _ _ _ H) as Hn.
    pose proof (aligned_in_band _ _ _ _ _ _ _ _ _ _ _ _ H) as Hb. unfold in_band in Hb, Hin.
    pose proof (penalty_at_within gap_open 1 Gm (x - 1) Hopen). lia.
  - pose proof (aligned_nonneg _ _ _ _ _ H) as Hn.
    pose proof (aligned_in_band _ _ _ _ _ _ _ _ _ _ _ _ H) as Hb. unfold in_band in Hb, Hin.
    pose proof (penalty_at_within gap_extend g g (x - 1) He). lia.
  - pose proof (aligned_nonneg _ _ _ _ _ H) as Hn.
    pose proof (aligned_in_band _ _ _ _ _ _ _ _ _ _ _ _ H) as Hb. unfold in_band in Hb.
    pose proof (penalty_at_within gap_open 1 Gm x Hopen). lia.
  - pose proof (aligned_nonneg _ _ _ _ _ H) as Hn.
    pose proof (aligned_in_band _ _ _ _ _ _ _ _ _ _ _ _ H) as Hb. unfold in_band in Hb.
    pose proof (penalty_at_within gap_extend g g x He). lia.
Qed.

Lemma occurrence_of_score_zero :
  the_score = Returned 0 -> exists p, 0 <= p <= 2 * W - 1 /\ occurs_at truth target p.
Proof.
  intros Hr. pose proof fit_sizes as Hsz.
  destruct fit_least as (r & Hr' & _ & _ & Hatt).
  rewrite Hr in Hr'. injection Hr' as <-.
  destruct (Hatt ltac:(change score_ceiling with 15872; lia)) as [[HQ _]|[st [x H]]].
  - exists 0. split.
    + unfold target_len in Hsz. rewrite HQ in Hsz. cbn [length] in Hsz. lia.
    + unfold occurs_at, substring. rewrite HQ. reflexivity.
  - destruct (zero_path _ _ _ _ H eq_refl) as [Hoff Hpath].
    exists (x - Q_len). split; [exact Hoff|].
    apply occurs_at_bases; [lia | lia |].
    intros j Hj. specialize (Hpath j Hj). unfold truth_base, target_base in Hpath.
    replace (x - Q_len + j <? T_len) with true in Hpath by (symmetry; apply Z.ltb_lt; lia).
    replace (j <? Q_len) with true in Hpath by (symmetry; apply Z.ltb_lt; lia).
    exact Hpath.
Qed.

End LeastPenalty.

(** X8: with penalties the lanes have room for, and when every mismatch and
    every gap costs something (base qualities, gap-open penalties and the
    gap-extension penalty all positive), the score-only overload returns 0
    exactly when the target is read verbatim in the truth from one of the
    [2 B] offsets of the band. *)
Theorem zero_score_iff_occurrence :
  forall (band_size : nat) (extract_oob : VectorType -> Z -> Z)
         (truth target : list ascii) (qualities : list Z)
         (gap_open gap_extend : Penalty) (nuc_prior Qm Gm g : Z),
    shape_ok band_size truth target = true ->
    (forall v n, length v = band_size -> In (extract_oob v n) v) ->
    penalties_fit band_size truth target qualities gap_open gap_extend nuc_prior Qm Gm g ->
    Forall (fun q => 0 < q) qualities ->
    penalty_within (length truth) gap_open 1 Gm ->
    0 < g ->
    (align_score band_size extract_oob truth target qualities gap_open gap_extend nuc_prior
     = Returned 0
     <-> exists p, 0 <= p <= 2 * B band_size - 1 /\ occurs_at truth target p).
Proof.
  intros band_size extract_oob truth target qualities gap_open gap_extend nuc_prior
         Qm Gm g Hshape Hoob Hfit Hq Ho Hg.
  split.
  - intros Hr. eapply occurrence_of_score_zero; eassumption.
  - intros [p [Hp Hocc]]. eapply score_zero_of_occurrence; eassumption.
Qed.

(** X9: with penalties the lanes have room for, the score the score-only
    overload returns is at most the penalty of the target laid along the
    truth without a gap, at whichever offset of the band. *)
Theorem score_at_most_ungapped_penalty :
  forall (band_size : nat) (extract_oob : VectorType -> Z -> Z)
         (truth target : list ascii) (qualities : list Z)
         (gap_open gap_extend : Penalty) (nuc_prior Qm Gm g p r : Z),
    shape_ok band_size truth target = true ->
    (forall v n, length v = band_size -> In (extract_oob v n) v) ->
    penalties_fit band_size truth target qualities gap_open gap_extend nuc_prior Qm Gm g ->
    0 <= p <= 2 * B band_size - 1 ->
    align_score band_size extract_oob truth target qualities gap_open gap_extend nuc_prior
    = Returned r ->
    r <= ungapped_penalty truth target qualities p (length target).
Proof.
  intros band_size extract_oob truth target qualities gap_open gap_extend nuc_prior
         Qm Gm g p r Hshape Hoob Hfit Hp Hr.
  eapply score_at_most_ungapped; eassumption.
Qed.

(** X10: with penalties the lanes have room for, the score of the score-only
    overload does not depend on what the backend answers when a lane past
    the register is extracted (as the last iteration of the loop does), as
    long as the answer is some lane of the register. *)
Theorem score_same_on_all_backends :
  forall (band_size : nat) (oob1 oob2 : VectorType -> Z -> Z)
         (truth target : list ascii) (qualities : list Z)
         (gap_open gap_extend : Penalty) (nuc_prior Qm Gm g : Z),
    shape_ok band_size truth target = true ->
    (forall v n, length v = band_size -> In (oob1 v n) v) ->
    (forall v n, length v = band_size -> In (oob2 v n) v) ->
    penalties_fit band_size truth target qualities gap_open gap_extend nuc_prior Qm Gm g ->
    align_score band_size oob1 truth target qualities gap_open gap_extend nuc_prior
    = align_score band_size oob2 truth target qualities gap_open gap_extend nuc_prior.
Proof.
  intros band_size oob1 oob2 truth target qualities gap_open gap_extend nuc_prior
         Qm Gm g Hshape H1 H2 Hfit.
  destruct (fit_least band_size truth target qualities gap_open gap_extend nuc_prior
                      Qm Gm g Hshape Hfit oob1 H1) as (r1 & E1 & C1 & L1 & A1).
  destruct (fit_least band_size truth target qualities gap_open gap_extend nuc_prior
                      Qm Gm g Hshape Hfit oob2 H2) as (r2 & E2 & C2 & L2 & A2).
  rewrite E1, E2. f_equal.
  destruct (Z.lt_ge_cases r1 score_ceiling) as [Lt1|Ge1];
    destruct (Z.lt_ge_cases r2 score_ceiling) as [Lt2|Ge2].
  - pose proof (L2 _ (A1 Lt1)). pose proof (L1 _ (A2 Lt2)). lia.
  - pose proof (L2 _ (A1 Lt1)). lia.
  - pose proof (L1 _ (A2 Lt2)). lia.
  - lia.
Qed.

(** ** The windows of the band *)

Section Slides.

Variable band_size : nat.

(** [_insert(_right_shift<score_bytes>(v), x, band_size - 1)]: the window
    moves one lane down and takes [x] in at the top. *)
Lemma slide_down (v : VectorType) (x : Z) (f f' : nat -> Z) :
  window band_size v (fun _ => True) f ->
  (forall k, (S k < band_size)%nat -> f' k = f (S k)) ->
  (forall k, S k = band_size -> f' k = wrap16 x) ->
  window band_size (_insert (_right_shift score_bytes v) x (B band_size - 1))
         (fun _ => True) f'.
Proof.
  intros (Hl & Hv & Hf) Hlow Htop. split; [|split].
  - rewrite length_insert, length_right_shift. exact Hl.
  - apply forall_insert, forall_of_register.
  - intros k Hk _.
    rewrite lane_insert by (rewrite ?length_right_shift; unfold B; lia).
    destruct (Z.eqb_spec (Z.of_nat k) (B band_size - 1)) as [E|E].
    + symmetry. apply Htop. unfold B in E. lia.
    + rewrite lane_right_shift_slot by exact Hv.
      unfold B in E. rewrite Hlow by lia. apply Hf; [lia | exact I].
Qed.

(** [_insert(_left_shift<score_bytes>(v), x, 0)]: the window moves one lane
    up and takes [x] in at the bottom. *)
Lemma slide_up (v : VectorType) (x : Z) (valid valid' : nat -> Prop) (f f' : nat -> Z) :
  window band_size v valid f ->
  (forall k, valid' (S k) -> valid k /\ f' (S k) = f k) ->
  (valid' 0%nat -> f' 0%nat = wrap16 x) ->
  window band_size (_insert (_left_shift score_bytes v) x 0) valid' f'.
Proof.
  intros (Hl & Hv & Hf) Hup Hbottom. split; [|split].
  - rewrite length_insert, length_left_shift. exact Hl.
  - apply forall_insert, forall_of_register.
  - intros k Hk Hvalid.
    rewrite lane_insert by (rewrite ?length_left_shift; lia).
    destruct k as [|j].
    + symmetry. apply Hbottom, Hvalid.
    + destruct (Z.eqb_spec (Z.of_nat (S j)) 0); [lia|].
      rewrite lane_left_shift_slot by (try exact Hv; lia).
      destruct (Hup j Hvalid) as [Hj E]. rewrite E. apply Hf; [lia | exact Hj].
Qed.

(** [_left_shift<score_bytes>(v)]: one lane up, zero at the bottom. *)
Lemma slide_up_zero (v : VectorType) (f f' : nat -> Z) :
  window band_size v (fun _ => True) f ->
  (forall k, f' (S k) = f k) -> f' 0%nat = 0 ->
  window band_size (_left_shift score_bytes v) (fun _ => True) f'.
Proof.
  intros (Hl & Hv & Hf) Hup Hbottom. split; [|split].
  - rewrite length_left_shift. exact Hl.
  - apply forall_of_register.
  - intros k Hk _.
    rewrite lane_left_shift_slot by (try exact Hv; lia).
    destruct k as [|j]; [symmetry; exact Hbottom|].
    rewrite Hup. apply Hf; [lia | exact I].
Qed.

End Slides.

Lemma int8_at_within (p : list Z) (k lo hi : Z) :
  lo <= 0 <= hi -> Forall (fun v => lo <= v <= hi) p -> lo <= int8_at p k <= hi.
Proof.
  intros H0 Hp. unfold int8_at.
  destruct (nth_in_or_default (Z.to_nat k) p 0) as [Hin|E].
  - rewrite Forall_forall in Hp. apply Hp, Hin.
  - rewrite E. exact H0.
Qed.

Lemma wrap16_times_four (q : Z) :
  -128 <= q <= 127 -> wrap16 (Z.shiftl q trace_bits) = 4 * q.
Proof.
  intros Hq. unfold trace_bits. rewrite Z.shiftl_mul_pow2 by lia.
  rewrite wrap16_small by (unfold is_int16; lia). change (2 ^ 2) with 4. lia.
Qed.

Section Windows.

Variable band_size : nat.
Variable extract_oob : VectorType -> Z -> Z.
Variables truth target : list ascii.
Variable qualities : list Z.
Variables gap_open gap_extend : Penalty.
Variable nuc_prior : Z.

Hypothesis Hshape : shape_ok band_size truth target = true.

Local Abbreviation score_step :=
  (score_step band_size extract_oob truth target qualities gap_open gap_extend nuc_prior).
Local Abbreviation align_step :=
  (align_step band_size extract_oob truth target qualities gap_open gap_extend nuc_prior).
Local Abbreviation score_loop :=
  (score_loop band_size extract_oob truth target qualities gap_open gap_extend nuc_prior).
Local Abbreviation align_loop :=
  (align_loop band_size extract_oob truth target qualities gap_open gap_extend nuc_prior).
Local Abbreviation band' :=
  (band' band_size truth target qualities gap_open gap_extend nuc_prior).
Local Abbreviation windows_at := (windows_at band_size truth target qualities).
Local Abbreviation gap_windows_at := (gap_windows_at band_size truth gap_open gap_extend).

(** The alignment overload moves its windows as the score-only one does. *)
Lemma align_step_windows (t : Z) (st : Trace) :
  let b1 := t_band (align_step (2 * t) st) in
  let b2 := band' t (t_band st) in
  _truthwin b1 = _truthwin b2 /\ _targetwin b1 = _targetwin b2 /\
  _qualitieswin b1 = _qualitieswin b2 /\ _initmask b1 = _initmask b2 /\
  _initmask2 b1 = _initmask2 b2 /\ _gap_open b1 = _gap_open b2 /\
  _gap_extend b1 = _gap_extend b2.
Proof.
  unfold align_step, band'.
  replace (2 * t / 2) with t by (rewrite Z.mul_comm, Z.div_mul; lia).
  cbv zeta.
  destruct (t >=? target_len target);
    repeat (match goal with
            | |- context [if ?c <? ?d then (_, _) else (_, _)] => destruct (c <? d)
            end; cbv beta iota);
    cbn [t_band _truthwin _targetwin _qualitieswin _initmask _initmask2 _gap_open _gap_extend];
    repeat split.
Qed.

Lemma window_same (v : VectorType) (valid : nat -> Prop) (f f' : nat -> Z) :
  window band_size v valid f -> (forall k, f' k = f k) -> window band_size v valid f'.
Proof.
  intros (Hl & Hv & Hf) E. split; [exact Hl | split; [exact Hv|]].
  intros k Hk Hvalid. rewrite E. apply Hf; assumption.
Qed.

Lemma sequence_windows_init : windows_at 0 (init_band band_size truth gap_open gap_extend).
Proof.
  destruct (shape_ok_true _ _ _ Hshape) as [HT _]. unfold B, truth_len in HT.
  unfold init_band.
  unfold windows_at, window;
    cbn [_truthwin _targetwin _qualitieswin _initmask _initmask2].
  repeat split.
  - apply length_vectorise_reverse.
  - apply Forall_forall. intros z Hz. unfold vectorise_reverse in Hz.
    apply in_map_iff in Hz. destruct Hz as (k & <- & _). apply char_to_int_int16.
  - intros k Hk _. unfold vectorise_reverse. rewrite lane_map_seq by exact Hk.
    unfold truth_base, truth_len.
    destruct (Z.ltb_spec (0 + Z.of_nat k) (Z.of_nat (length truth))); [|lia].
    reflexivity.
  - apply length_vectorise.
  - apply forall_vectorise.
  - intros k _ Hk. lia.
  - apply length_vectorise.
  - apply forall_vectorise.
  - intros k _ Hk. lia.
  - unfold vectorise_zero_set_last. destruct band_size; cbn [length]; [reflexivity|].
    rewrite repeat_length. reflexivity.
  - apply forall_zero_set_last.
  - intros k Hk _. rewrite lane_zero_set_last by exact Hk. reflexivity.
  - unfold vectorise_zero_set_last. destruct band_size; cbn [length]; [reflexivity|].
    rewrite repeat_length. reflexivity.
  - apply forall_zero_set_last.
  - intros k Hk _. rewrite lane_zero_set_last by exact Hk. reflexivity.
Qed.

Lemma sequence_windows_step (t : Z) (b : Band) :
  Forall (fun q => -128 <= q <= 127) qualities ->
  0 <= t -> windows_at t b -> windows_at (t + 1) (band' t b).
Proof.
  intros Hq Ht (Htruth & Htarget & Hqual & Hmask & Hmask2).
  unfold band', windows_at;
    cbn [_truthwin _targetwin _qualitieswin _initmask _initmask2].
  split; [|split; [|split; [|split]]].
  - unfold truthwin'. eapply slide_down; [exact Htruth | |].
    + intros k _. cbv beta.
      replace (t + 1 + Z.of_nat k) with (t + Z.of_nat (S k)) by lia. reflexivity.
    + intros k Hk. cbv beta. rewrite wrap16_small by apply char_to_int_int16.
      unfold next_base, truth_base, B, truth_len.
      replace (t + 1 + Z.of_nat k) with (Z.of_nat band_size + t) by lia.
      reflexivity.
  - unfold targetwin'.
    destruct (t <? target_len target) eqn:E;
      (eapply slide_up; [exact Htarget | |]);
      try (intros k Hk; cbv beta;
           replace (t + 1 - 1 - Z.of_nat (S k)) with (t - 1 - Z.of_nat k) by lia;
           split; [lia | reflexivity]);
      intros _; cbv beta; rewrite wrap16_small by apply char_to_int_int16;
      unfold target_base; replace (t + 1 - 1 - Z.of_nat 0) with t by lia;
      rewrite E; reflexivity.
  - unfold qualitieswin'.
    destruct (t <? target_len target) eqn:E;
      (eapply slide_up; [exact Hqual | |]);
      try (intros k Hk; cbv beta;
           replace (t + 1 - 1 - Z.of_nat (S k)) with (t - 1 - Z.of_nat k) by lia;
           split; [lia | reflexivity]);
      intros _; cbv beta; unfold quality_at; replace (t + 1 - 1 - Z.of_nat 0) with t by lia;
      rewrite E; symmetry; apply wrap16_times_four.
    + apply int8_at_within; [lia | exact Hq].
    + unfold max_n_quality; lia.
  - eapply slide_up_zero; [exact Hmask | |].
    + intros k. destruct (Z.eqb_spec (Z.of_nat (S k)) (t + 1));
        destruct (Z.eqb_spec (Z.of_nat k) t); lia.
    + destruct (Z.eqb_spec (Z.of_nat 0) (t + 1)); lia.
  - eapply slide_up_zero; [exact Hmask2 | |].
    + intros k. destruct (Z.eqb_spec (Z.of_nat (S k)) (t + 1));
        destruct (Z.eqb_spec (Z.of_nat k) t); lia.
    + destruct (Z.eqb_spec (Z.of_nat 0) (t + 1)); lia.
Qed.

Lemma gap_window_init (p : Penalty) :
  penalty_within (length truth) p (-128) 127 ->
  window band_size (vectorise_reverse_lshift band_size p trace_bits) (fun _ => True)
         (fun k => 4 * penalty_at truth p (0 + Z.of_nat k)).
Proof.
  destruct (shape_ok_true _ _ _ Hshape) as [HT _]. unfold B, truth_len in HT.
  intros Hp. unfold vectorise_reverse_lshift, window.
  destruct p as [source|source]; cbn [penalty_within penalty_at] in *.
  - destruct Hp as [_ Hp]. repeat split.
    + unfold vectorise_reverse_lshift_ptr. rewrite length_map, length_seq. reflexivity.
    + apply Forall_forall. intros z Hz. unfold vectorise_reverse_lshift_ptr in Hz.
      apply in_map_iff in Hz. destruct Hz as (k & <- & _). apply wrap16_range.
    + intros k Hk _. unfold vectorise_reverse_lshift_ptr.
      rewrite lane_map_seq by exact Hk.
      rewrite wrap16_times_four by (apply int8_at_within; [lia | exact Hp]).
      unfold truth_len.
      destruct (Z.ltb_spec (0 + Z.of_nat k) (Z.of_nat (length truth))); [|lia].
      reflexivity.
  - repeat split.
    + apply length_vectorise.
    + apply forall_vectorise.
    + intros k Hk _. unfold vectorise_reverse_lshift_val.
      rewrite lane_vectorise by exact Hk. apply wrap16_times_four, Hp.
Qed.

Lemma gap_window_step (p : Penalty) (t : Z) (v : VectorType) :
  penalty_within (length truth) p (-128) 127 ->
  window band_size v (fun _ => True) (fun k => 4 * penalty_at truth p (t + Z.of_nat k)) ->
  window band_size (update_gap_penalty band_size score_bytes v p (gap_idx band_size truth t))
         (fun _ => True) (fun k => 4 * penalty_at truth p (t + 1 + Z.of_nat k)).
Proof.
  intros Hp Hv. unfold update_gap_penalty.
  destruct p as [source|source]; cbn [penalty_within penalty_at] in *.
  - destruct Hp as [_ Hp]. eapply slide_down; [exact Hv | |].
    + intros k _. cbv beta.
      replace (t + 1 + Z.of_nat k) with (t + Z.of_nat (S k)) by lia. reflexivity.
    + intros k Hk. cbv beta.
      change score_bytes with trace_bits.
      rewrite wrap16_times_four by (apply int8_at_within; [lia | exact Hp]).
      unfold gap_idx, B.
      replace (t + 1 + Z.of_nat k) with (Z.of_nat band_size + t) by lia.
      reflexivity.
  - eapply window_same; [exact Hv|]. reflexivity.
Qed.

Lemma gap_windows_init :
  penalty_within (length truth) gap_open (-128) 127 ->
  penalty_within (length truth) gap_extend (-128) 127 ->
  gap_windows_at 0 (init_band band_size truth gap_open gap_extend).
Proof.
  intros Ho He. split; cbn [init_band _gap_open _gap_extend]; apply gap_window_init; assumption.
Qed.

Lemma gap_windows_step (t : Z) (b : Band) :
  penalty_within (length truth) gap_open (-128) 127 ->
  penalty_within (length truth) gap_extend (-128) 127 ->
  gap_windows_at t b -> gap_windows_at (t + 1) (band' t b).
Proof.
  intros Ho He [Hgo Hge].
  split; cbn [band' _gap_open _gap_extend]; apply gap_window_step; assumption.
Qed.

(** The windows are the same fields in both loops. *)
Lemma windows_at_same (t : Z) (b1 b2 : Band) :
  _truthwin b1 = _truthwin b2 /\ _targetwin b1 = _targetwin b2 /\
  _qualitieswin b1 = _qualitieswin b2 /\ _initmask b1 = _initmask b2 /\
  _initmask2 b1 = _initmask2 b2 /\ _gap_open b1 = _gap_open b2 /\
  _gap_extend b1 = _gap_extend b2 ->
  (windows_at t b2 -> windows_at t b1) /\ (gap_windows_at t b2 -> gap_windows_at t b1).
Proof.
  intros (E1 & E2 & E3 & E4 & E5 & E6 & E7).
  unfold windows_at, gap_windows_at.
  rewrite E1, E2, E3, E4, E5, E6, E7. split; auto.
Qed.

Lemma score_loop_windows (P : Z -> Band -> Prop) :
  (forall t b, 0 <= t -> P t b -> P (t + 1) (band' t b)) ->
  forall (n : nat) (t : Z) (b : Band) (minscore : Z),
    0 <= t -> P t b -> P (t + Z.of_nat n) (fst (score_loop n (2 * t) (b, minscore))).
Proof.
  intros Hstep n. induction n as [|n IH]; intros t b minscore Ht Hb.
  - cbn [score_loop fst]. replace (t + Z.of_nat 0) with t by lia. exact Hb.
  - cbn [score_loop]. rewrite score_step_eq.
    replace (2 * t + 2) with (2 * (t + 1)) by lia.
    replace (t + Z.of_nat (S n)) with (t + 1 + Z.of_nat n) by lia.
    apply IH; [lia | apply Hstep; assumption].
Qed.

Lemma align_loop_windows (P : Z -> Band -> Prop) :
  (forall t b, 0 <= t -> P t b -> P (t + 1) (band' t b)) ->
  (forall t st, P (t + 1) (band' t (t_band st)) ->
                P (t + 1) (t_band (align_step (2 * t) st))) ->
  forall (n : nat) (t : Z) (st : Trace),
    0 <= t -> P t (t_band st) -> P (t + Z.of_nat n) (t_band (align_loop n (2 * t) st)).
Proof.
  intros Hstep Hsame n. induction n as [|n IH]; intros t st Ht Hb.
  - cbn [align_loop]. replace (t + Z.of_nat 0) with t by lia. exact Hb.
  - cbn [align_loop].
    replace (2 * t + 2) with (2 * (t + 1)) by lia.
    replace (t + Z.of_nat (S n)) with (t + 1 + Z.of_nat n) by lia.
    apply IH; [lia | apply Hsame, Hstep; assumption].
Qed.

Lemma score_windows (n : nat) :
  Forall (fun q => -128 <= q <= 127) qualities ->
  windows_at (Z.of_nat n)
             (fst (score_loop n 0 (init_band band_size truth gap_open gap_extend, infinity))).
Proof.
  intros Hq.
  apply (score_loop_windows windows_at
           (fun t b Ht Hb => sequence_windows_step t b Hq Ht Hb) n 0 _ infinity);
    [lia | apply sequence_windows_init].
Qed.

Lemma align_windows (n : nat) :
  Forall (fun q => -128 <= q <= 127) qualities ->
  windows_at (Z.of_nat n)
             (t_band (align_loop n 0 (init_trace band_size truth gap_open gap_extend))).
Proof.
  intros Hq.
  apply (align_loop_windows windows_at
           (fun t b Ht Hb => sequence_windows_step t b Hq Ht Hb)
           (fun t st => proj1 (windows_at_same (t + 1) _ _ (align_step_windows t st)))
           n 0 (init_trace band_size truth gap_open gap_extend));
    [lia | apply sequence_windows_init].
Qed.

Lemma score_gap_windows (n : nat) :
  penalty_within (length truth) gap_open (-128) 127 ->
  penalty_within (length truth) gap_extend (-128) 127 ->
  gap_windows_at (Z.of_nat n)
                 (fst (score_loop n 0 (init_band band_size truth gap_open gap_extend, infinity))).
Proof.
  intros Ho He.
  apply (score_loop_windows gap_windows_at
           (fun t b _ Hb => gap_windows_step t b Ho He Hb) n 0 _ infinity);
    [lia | apply gap_windows_init; assumption].
Qed.

Lemma align_gap_windows (n : nat) :
  penalty_within (length truth) gap_open (-128) 127 ->
  penalty_within (length truth) gap_extend (-128) 127 ->
  gap_windows_at (Z.of_nat n)
                 (t_band (align_loop n 0 (init_trace band_size truth gap_open gap_extend))).
Proof.
  intros Ho He.
  apply (align_loop_windows gap_windows_at
           (fun t b _ Hb => gap_windows_step t b Ho He Hb)
           (fun t st => proj2 (windows_at_same (t + 1) _ _ (align_step_windows t st)))
           n 0 (init_trace band_size truth gap_open gap_extend));
    [lia | apply gap_windows_init; assumption].
Qed.

End Windows.

(** X11: Both main loops keep the sequence windows on the diagonal of the
    band: after [n] iterations, lane [k] of the truth window holds the base
    of truth position [n + k] ('N' past the end of the truth), lanes
    [k < n] of the target and quality windows hold the base of target
    position [n - 1 - k] and its quality times 4 ('0' and 256 past the end
    of the target), and the two masks are set in lane [n] only.  (The base
    qualities are [int8_t].) *)
Theorem windows_follow_the_sequences
        (band_size : nat) (extract_oob : VectorType -> Z -> Z)
        (truth target : list ascii) (qualities : list Z)
        (gap_open gap_extend : Penalty) (nuc_prior : Z) (n : nat) :
  shape_ok band_size truth target = true ->
  Forall (fun q => -128 <= q <= 127) qualities ->
  windows_at band_size truth target qualities (Z.of_nat n)
    (fst (score_loop band_size extract_oob truth target qualities gap_open gap_extend
                     nuc_prior n 0
                     (init_band band_size truth gap_open gap_extend, infinity))) /\
  windows_at band_size truth target qualities (Z.of_nat n)
    (t_band (align_loop band_size extract_oob truth target qualities gap_open gap_extend
                        nuc_prior n 0
                        (init_trace band_size truth gap_open gap_extend))).
Proof.
  intros Hshape Hq. split; [apply score_windows | apply align_windows]; assumption.
Qed.

(** X12: [update_gap_penalty] keeps the gap windows on the truth: after [n]
    iterations of either main loop, lane [k] of the gap-open and gap-extend
    windows holds 4 times the penalty of truth position [n + k], the last
    position standing in for those past the end of the truth; a scalar
    penalty stays in every lane.  (The penalties are [int8_t], one per
    truth position when given as an array.) *)
Theorem gap_windows_follow_the_truth
        (band_size : nat) (extract_oob : VectorType -> Z -> Z)
        (truth target : list ascii) (qualities : list Z)
        (gap_open gap_extend : Penalty) (nuc_prior : Z) (n : nat) :
  shape_ok band_size truth target = true ->
  penalty_within (length truth) gap_open (-128) 127 ->
  penalty_within (length truth) gap_extend (-128) 127 ->
  gap_windows_at band_size truth gap_open gap_extend (Z.of_nat n)
    (fst (score_loop band_size extract_oob truth target qualities gap_open gap_extend
                     nuc_prior n 0
                     (init_band band_size truth gap_open gap_extend, infinity))) /\
  gap_windows_at band_size truth gap_open gap_extend (Z.of_nat n)
    (t_band (align_loop band_size extract_oob truth target qualities gap_open gap_extend
                        nuc_prior n 0
                        (init_trace band_size truth gap_open gap_extend))).
Proof.
  intros Hshape Ho He.
  split; [apply score_gap_windows | apply align_gap_windows]; assumption.
Qed.

(** ** What the alignment overload leaves of the buffers *)



Section Frame.

Variable band_size : nat.
Variables truth target : list ascii.
Variable backpointers : list VectorType.
Variables l1 l2 : list ascii.



End Frame.




(** ** The empty target *)

Section EmptyTarget.

Variable band_size : nat.
Variable extract_oob : VectorType -> Z -> Z.
Variable truth : list ascii.
Variable qualities : list Z.
Variables gap_open gap_extend : Penalty.
Variable nuc_prior : Z.

Hypothesis Hshape : shape_ok band_size truth [] = true.

Local Abbreviation score_step :=
  (score_step band_size extract_oob truth [] qualities gap_open gap_extend nuc_prior).
Local Abbreviation score_loop :=
  (score_loop band_size extract_oob truth [] qualities gap_open gap_extend nuc_prior).
Local Abbreviation align_step :=
  (align_step band_size extract_oob truth [] qualities gap_open gap_extend nuc_prior).
Local Abbreviation align_loop :=
  (align_loop band_size extract_oob truth [] qualities gap_open gap_extend nuc_prior).
Local Abbreviation init_band := (init_band band_size truth gap_open gap_extend).
Local Abbreviation init_trace := (init_trace band_size truth gap_open gap_extend).
Local Abbreviation main_loop_end :=
  (main_loop_end band_size extract_oob truth [] qualities gap_open gap_extend nuc_prior).

Lemma two_lanes : (2 <= band_size)%nat.
Proof.
  destruct (shape_ok_true _ _ _ Hshape) as [H1 H2].
  unfold truth_len, target_len, B in *. cbn [length] in *. lia.
Qed.

Lemma loop_runs : iterations band_size [] = S band_size.
Proof.
  unfold iterations, target_len, B. cbn [length]. lia.
Qed.

(** In the first iteration the exit lane is lane 0, where the masks put
    the score of an alignment that has not begun. *)
Lemma first_exit :
  _extract band_size extract_oob
           (_min (_or (_initmask2 init_band) (_andnot (_initmask init_band) (_m1 init_band)))
                 (_min (_i1 init_band) (_d1 init_band))) 0
  = - bitmask.
Proof.
  pose proof two_lanes as HB.
  unfold _extract.
  replace ((0 <=? 0) && (0 <? Z.of_nat band_size)) with true
    by (symmetry; apply andb_true_iff; split; [apply Z.leb_le | apply Z.ltb_lt]; lia).
  cbn [PairHMM.init_band _initmask2 _initmask _m1 _i1 _d1]. change (Z.to_nat 0) with 0%nat.
  assert (forall x, (0 < length (vectorise_zero_set_last band_size x))%nat) as Hz
      by (intros x; rewrite length_zero_set_last; lia).
  assert (0 < length (_inf band_size))%nat as Hi
      by (unfold _inf; rewrite length_vectorise; lia).
  assert (0 < length (_min (_inf band_size) (_inf band_size)))%nat as Hm
      by (unfold _min; rewrite length_lanewise; lia).
  rewrite lane_min;
    [|unfold _or, _andnot; rewrite !length_lanewise;
      pose proof (Hz (-1)); pose proof (Hz (- bitmask)); lia | exact Hm].
  rewrite (lane_patch _ _ _ _ true);
    [|apply Hz | apply Hz | exact Hi
     |rewrite lane_zero_set_last by lia; reflexivity
     |rewrite lane_zero_set_last by lia; reflexivity].
  rewrite lane_min by exact Hi.
  unfold _inf. rewrite lane_vectorise by lia.
  reflexivity.
Qed.

Lemma score_step_falls (s : Z) (b : Band) (minscore : Z) :
  snd (score_step s (b, minscore)) <= minscore.
Proof.
  unfold PairHMM.score_step; cbn [snd]. destruct (s / 2 >=? target_len []); lia.
Qed.

Lemma score_loop_falls (n : nat) :
  forall s b minscore, snd (score_loop n s (b, minscore)) <= minscore.
Proof.
  induction n as [|n IH]; intros s b minscore; [cbn; lia|].
  cbn [PairHMM.score_loop].
  pose proof (score_step_falls s b minscore) as H.
  destruct (score_step s (b, minscore)) as [b' m']. cbn [snd] in H.
  specialize (IH (s + 2) b' m'). lia.
Qed.

Lemma first_score_step : snd (score_step 0 (init_band, infinity)) <= - bitmask.
Proof.
  unfold PairHMM.score_step; cbn [snd].
  change (0 / 2) with 0. change (target_len []) with 0.
  change (0 >=? 0) with true. cbv iota.
  change (Z.max 0 (0 - 0)) with 0.
  rewrite first_exit. lia.
Qed.

Lemma score_of_empty_target :
  align_score band_size extract_oob truth [] qualities gap_open gap_extend nuc_prior
  = Returned 0.
Proof.
  unfold align_score. rewrite Hshape, loop_runs. cbn [PairHMM.score_loop].
  pose proof first_score_step as H1.
  pose proof (score_step_int16 band_size extract_oob truth [] qualities gap_open gap_extend
                nuc_prior 0 init_band infinity) as Hb.
  assert (minscore_range infinity) as Hinf
      by (unfold minscore_range, bitmask, infinity; lia).
  pose proof (score_step_minscore band_size extract_oob truth [] qualities gap_open
                gap_extend nuc_prior 0 init_band infinity
                (init_band_int16 band_size truth gap_open gap_extend) Hinf) as Hr.
  destruct (score_step 0 (init_band, infinity)) as [b1 m1]. cbn [snd fst] in H1, Hb, Hr.
  pose proof (score_loop_falls band_size (0 + 2) b1 m1) as H2.
  pose proof (score_loop_range band_size extract_oob truth [] qualities gap_open gap_extend
                nuc_prior band_size (0 + 2) b1 m1 Hb Hr) as H3.
  destruct (score_loop band_size (0 + 2) (b1, m1)) as [b2 m2]. cbn [snd] in H2, H3.
  f_equal.
  assert (m2 = - bitmask) as ->; [|reflexivity].
  unfold minscore_range in H3, Hr. lia.
Qed.

(** Once the minimum is at the floor of the lanes no later exit lowers
    it, and [minscoreidx] stays. *)
Lemma align_step_floor (s : Z) (st : Trace) :
  trace_ok st -> t_minscore st = - bitmask ->
  t_minscore (align_step s st) = - bitmask /\
  t_minscoreidx (align_step s st) = t_minscoreidx st.
Proof.
  intros ((Hm1 & Hi1 & Hd1 & Hm2 & Hi2 & Hd2 & Him & Him2) & _) Hmin.
  pose proof (int16_extract band_size extract_oob _ (s / 2 - target_len [])
                            (forall_best _ _ _ _ _ Him Him2 Hm1 Hi1 Hd1)) as H1.
  pose proof (int16_extract band_size extract_oob _ (s / 2 - target_len [])
                            (forall_best _ _ _ _ _ Him Him2 Hm2 Hi2 Hd2)) as H2.
  unfold PairHMM.align_step. cbv zeta.
  match type of H1 with is_int16 ?e => set (c1 := e) in * end.
  match type of H2 with is_int16 ?e => set (c2 := e) in * end.
  rewrite Hmin. unfold is_int16 in H1, H2.
  destruct (s / 2 >=? target_len []).
  - destruct (c1 <? - bitmask) eqn:E1; [apply Z.ltb_lt in E1; unfold bitmask in E1; lia|].
    destruct (c2 <? - bitmask) eqn:E2; [apply Z.ltb_lt in E2; unfold bitmask in E2; lia|].
    cbv beta iota; cbn [t_minscore t_minscoreidx]. split; reflexivity.
  - cbv beta iota; cbn [t_minscore t_minscoreidx]. split; reflexivity.
Qed.

Lemma align_loop_floor (n : nat) :
  forall s st,
    trace_ok st -> t_minscore st = - bitmask ->
    t_minscore (align_loop n s st) = - bitmask /\
    t_minscoreidx (align_loop n s st) = t_minscoreidx st.
Proof.
  induction n as [|n IH]; intros s st Hok Hmin; [split; [exact Hmin | reflexivity]|].
  cbn [PairHMM.align_loop].
  destruct (align_step_floor s st Hok Hmin) as [Hmin' Hidx'].
  destruct (IH (s + 2) (align_step s st)
               (align_step_ok band_size extract_oob truth [] qualities gap_open gap_extend
                              nuc_prior s st Hok) Hmin') as [H1 H2].
  split; [exact H1 | rewrite H2; exact Hidx'].
Qed.

Lemma first_align_step :
  t_minscore (align_step 0 init_trace) = - bitmask /\
  t_minscoreidx (align_step 0 init_trace) = 0.
Proof.
  pose proof (init_trace_ok band_size truth gap_open gap_extend)
    as ((Hm1 & Hi1 & Hd1 & Hm2 & Hi2 & Hd2 & Him & Him2) & _).
  pose proof (int16_extract band_size extract_oob _ (0 / 2 - target_len [])
                            (forall_best _ _ _ _ _ Him Him2 Hm2 Hi2 Hd2)) as H2.
  unfold PairHMM.align_step. cbv zeta.
  match type of H2 with is_int16 ?e => set (c2 := e) in * end.
  unfold PairHMM.init_trace; cbn [t_band t_minscore t_minscoreidx].
  change (0 / 2) with 0. change (target_len []) with 0.
  change (0 >=? 0) with true. cbv iota. change (0 - 0) with 0.
  rewrite first_exit.
  change (- bitmask <? infinity) with true. cbv iota.
  unfold is_int16 in H2.
  destruct (c2 <? - bitmask) eqn:E2; [apply Z.ltb_lt in E2; unfold bitmask in E2; lia|].
  cbv beta iota; cbn [t_minscore t_minscoreidx]. split; reflexivity.
Qed.

Lemma main_loop_end_floor :
  t_minscore main_loop_end = - bitmask /\ t_minscoreidx main_loop_end = 0.
Proof.
  unfold main_loop_end. rewrite loop_runs. cbn [PairHMM.align_loop].
  destruct first_align_step as [H1 H2].
  destruct (align_loop_floor band_size (0 + 2) (align_step 0 init_trace)
              (align_step_ok band_size extract_oob truth [] qualities gap_open gap_extend
                             nuc_prior 0 init_trace
                             (init_trace_ok band_size truth gap_open gap_extend)) H1)
    as [H3 H4].
  split; [exact H3 | rewrite H4; exact H2].
Qed.

Lemma alignment_of_empty_target (c1 c2 : ascii) (rest1 rest2 : list ascii) :
  align band_size extract_oob truth [] qualities gap_open gap_extend nuc_prior
        (Some (c1 :: rest1)) (Some (c2 :: rest2))
  = Returned (mkAlignment 0 0 (Some (zero :: rest1)) (Some (zero :: rest2))).
Proof.
  destruct main_loop_end_floor as [Hmin Hidx].
  pose proof (ptr_inside band_size extract_oob truth [] qualities gap_open gap_extend
                nuc_prior Hshape two_lanes) as Hptr.
  rewrite Hidx in Hptr. specialize (Hptr ltac:(lia)).
  unfold align. rewrite Hshape.
  fold main_loop_end.
  unfold finish. rewrite Hidx, Hptr, Hmin.
  change (0 <? 0) with false. cbv iota.
  unfold start_walk, walk_fuel. rewrite Hidx. cbn [w_s w_y backtrace].
  change (target_len [] >? 0) with false. cbv iota.
  cbn [w_align1 w_align2 w_alnidx w_x].
  reflexivity.
Qed.

End EmptyTarget.

(** X14: The empty target: when the target has no base (so the truth has
    [2 B - 1] of them), whatever the truth, the qualities and the penalties,
    the score-only overload returns 0, and the alignment overload returns 0
    with [first_pos] 0 and writes only the terminator at the head of each
    buffer: both alignment strings are empty. *)
Theorem empty_target_aligns_at_zero :
  forall (band_size : nat) (extract_oob : VectorType -> Z -> Z)
         (truth : list ascii) (qualities : list Z)
         (gap_open gap_extend : Penalty) (nuc_prior : Z)
         (c1 c2 : ascii) (rest1 rest2 : list ascii),
    shape_ok band_size truth [] = true ->
    align_score band_size extract_oob truth [] qualities gap_open gap_extend nuc_prior
    = Returned 0 /\
    align band_size extract_oob truth [] qualities gap_open gap_extend nuc_prior
          (Some (c1 :: rest1)) (Some (c2 :: rest2))
    = Returned (mkAlignment 0 0 (Some (zero :: rest1)) (Some (zero :: rest2))).
Proof.
  intros band_size extract_oob truth qualities gap_open gap_extend nuc_prior
         c1 c2 rest1 rest2 Hshape.
  split; [apply score_of_empty_target | apply alignment_of_empty_target]; exact Hshape.
Qed.
(** ** The unit tests *)

(** Runs a statement for each of the eight lanes a 128-bit backend may
    answer an out-of-range [extract] with. *)
Ltac each_lane k Hk :=
  do 8 (destruct k as [|k]; [vm_compute; repeat split; reflexivity|]);
  exfalso; lia.

(** Proves [Forall P (seq 0 8)] by running [tac] on each of the eight
    instances of [P]. *)
Ltac all_lanes tac :=
  repeat (apply Forall_cons; [cbv beta; tac|]); apply Forall_nil.

Ltac by_computation := vm_compute; first [reflexivity | discriminate].

(** C8: on test 3 of the unit tests both overloads return 71, and the
    alignment overload sets [first_pos] to 5 and leaves "CGAAGC" and
    "CG--GC" in the truth and query buffers; this holds whichever lane the
    backend answers an out-of-range [extract] with. *)
Theorem test3_alignment :
  forall k : nat, (k < 8)%nat ->
    sse2_align_score k "ACGTACGAAGCTACGTACG" "CGGC" [40; 40; 40; 40] test3_gap_open 1 4
    = Returned 71 /\
    sse2_align k "ACGTACGAAGCTACGTACG" "CGGC" [40; 40; 40; 40] test3_gap_open 1 4
    = Returned (71, 5, Some "CGAAGC"%string, Some "CG--GC"%string).
Proof.
  intros k Hk. each_lane k Hk.
Qed.

Lemma test3_alignment_witness :
  (0 < 8)%nat /\
  sse2_align_score 0 "ACGTACGAAGCTACGTACG" "CGGC" [40; 40; 40; 40] test3_gap_open 1 4
  = Returned 71 /\
  sse2_align 0 "ACGTACGAAGCTACGTACG" "CGGC" [40; 40; 40; 40] test3_gap_open 1 4
  = Returned (71, 5, Some "CGAAGC"%string, Some "CG--GC"%string).
Proof.
  split; [lia | apply (test3_alignment 0); lia].
Defined.

(** C2 (the code departs from the claim): a target with one inserted base.
    The score-only overload returns 14 (gap open 10 plus nuc_prior 4); the
    alignment overload returns 70 on the same input, because its insertion
    scores went through [label_i]. *)
Theorem score_overloads_disagree :
  forall k : nat, (k < 8)%nat ->
    sse2_align_score k "TTTTTTTTAGTTTTTTTTT" "ACGT" [40; 40; 40; 40] (repeat 10 19) 1 4
    = Returned 14 /\
    sse2_align k "TTTTTTTTAGTTTTTTTTT" "ACGT" [40; 40; 40; 40] (repeat 10 19) 1 4
    = Returned (70, 14, Some "TTTT"%string, Some "ACGT"%string).
Proof.
  intros k Hk. each_lane k Hk.
Qed.

Lemma score_overloads_disagree_witness :
  (0 < 8)%nat /\
  sse2_align_score 0 "TTTTTTTTAGTTTTTTTTT" "ACGT" [40; 40; 40; 40] (repeat 10 19) 1 4
  = Returned 14 /\
  sse2_align 0 "TTTTTTTTAGTTTTTTTTT" "ACGT" [40; 40; 40; 40] (repeat 10 19) 1 4
  = Returned (70, 14, Some "TTTT"%string, Some "ACGT"%string).
Proof.
  split; [lia | apply (score_overloads_disagree 0); lia].
Defined.

(** ** Counterexamples to the claims as they are worded *)

(** C9 as worded fails: with null buffers and a valid shape (test 1) no
    assertion stops the call; it runs the main loop and the backtrace then
    writes through the null pointer. *)
Lemma null_buffers_not_checked :
  shape_ok 8 (list_ascii_of_string "ACGTACGTACGTACGAAAA")
           (list_ascii_of_string "AAAA") = true /\
  Forall (fun k =>
            align 8 (lane_oob k) (list_ascii_of_string "ACGTACGTACGTACGAAAA")
                  (list_ascii_of_string "AAAA") [40; 40; 40; 40]
                  (PerPosition (repeat 10 19)) (Uniform 1) 4 None None = Undefined)
         (seq 0 8) /\
  @Undefined Alignment <> AssertionFailed.
Proof.
  split; [by_computation|]. split; [all_lanes by_computation | discriminate].
Qed.

(** C6 as worded fails on test 5 of the unit tests: the query alignment
    holds fifteen gap characters and the band size is 8. *)
Lemma test5_fifteen_gaps :
  Forall (fun k =>
            sse2_align k "CCCCACGTATATATATATATATGGGGACGT" "CCCCACGTGGGACGT"
                       (repeat 40 15) test5_gap_open 1 4
            = Returned (84, 0, Some "CCCCACGTATATATATATATATGGGGACGT"%string,
                        Some "CCCCACGT---------------GGGACGT"%string))
         (seq 0 8) /\
  count_gaps (list_ascii_of_string "CCCCACGT---------------GGGACGT") = 15 /\
  ~ (15 < B 8).
Proof.
  split; [all_lanes by_computation|].
  split; by_computation.
Qed.

(** C3 as worded fails when the target holds the gap character itself:
    the query alignment is the target, and deleting its '-' does not give
    the target back. *)
Lemma gap_character_in_target :
  Forall (fun k =>
            sse2_align k "ACGTACGTACGTACGA-AA" "A-AA" [40; 40; 40; 40] (repeat 10 19) 1 4
            = Returned (0, 15, Some "A-AA"%string, Some "A-AA"%string))
         (seq 0 8) /\
  strip_gaps (list_ascii_of_string "A-AA") <> list_ascii_of_string "A-AA".
Proof.
  split; [all_lanes by_computation | by_computation].
Qed.

(** C5 as worded fails: in the lanes whose truth base is 'N' the vector
    holds [n_score], and [infinity] in the others. *)
Lemma truthnqual_n_lane :
  let b := init_band 8 (list_ascii_of_string "NACGTACGTACGTACGTAC")
                     (Uniform 90) (Uniform 1) in
  lane (_truthwin b) 0 = char_to_int "N"%char /\
  lane (_truthnqual b) 0 = n_score /\
  lane (_truthwin b) 1 <> char_to_int "N"%char /\
  lane (_truthnqual b) 1 = infinity /\
  n_score <> infinity.
Proof.
  cbv zeta. repeat split; by_computation.
Qed.

(** C4 as worded fails: 128 mismatches at quality 127 saturate the scores;
    the backtrace gives up, the call returns -1 with [first_pos] -1, and the
    two buffers, passed in full of NUL characters, come back starting with
    "CC" and "A-" (shown for a backend that answers an out-of-range
    [extract] with its lowest lane, and for one that answers with its
    highest). *)
Lemma overflow_leaves_characters :
  Forall (fun k => observed (saturating_call k)
                   = Returned (-1, -1, Some "CC"%string, Some "A-"%string))
         [0%nat; 7%nat].
Proof.
  all_lanes by_computation.
Qed.


(** ** Instances of the theorems that have hypotheses *)

Ltac prove_bases :=
  vm_compute; repeat (apply Forall_cons; [split; discriminate|]); apply Forall_nil.

Lemma test3_call_returns : test3_call = Returned test3_result.
Proof. vm_compute. reflexivity. Qed.

Lemma alignment_consistency_witness :
  bases test3_truth /\ bases test3_target /\
  test3_call = Returned test3_result /\ 0 <= score test3_result /\
  exists l1 l2 : list ascii,
    align1 test3_result = Some l1 /\ align2 test3_result = Some l2 /\
    strip_gaps (c_str l2) = test3_target /\
    0 <= first_pos test3_result /\
    strip_gaps (c_str l1)
    = substring test3_truth (first_pos test3_result) (length (strip_gaps (c_str l1))).
Proof.
  assert (bases test3_truth) as HT by prove_bases.
  assert (bases test3_target) as HQ by prove_bases.
  assert (0 <= score test3_result) as Hs by (simpl; lia).
  pose proof test3_call_returns as Hc.
  repeat (split; [assumption|]).
  exact (alignment_consistency _ _ _ _ _ _ _ _ _ _ _ HT HQ Hc Hs).
Defined.

Lemma gaps_within_band_witness :
  bases test3_truth /\ bases test3_target /\
  test3_call = Returned test3_result /\ 0 <= score test3_result /\
  exists l1 l2 : list ascii,
    align1 test3_result = Some l1 /\ align2 test3_result = Some l2 /\
    count_gaps (c_str l2) <= count_gaps (c_str l1) + 2 * B 8 + 1.
Proof.
  assert (bases test3_truth) as HT by prove_bases.
  assert (bases test3_target) as HQ by prove_bases.
  assert (0 <= score test3_result) as Hs by (simpl; lia).
  pose proof test3_call_returns as Hc.
  repeat (split; [assumption|]).
  exact (gaps_within_band _ _ _ _ _ _ _ _ _ _ _ HT HQ Hc Hs).
Defined.

Lemma shape_violation_asserts_witness :
  shape_ok 8 test3_truth (list_ascii_of_string "CGG") = false /\
  align_score 8 (lane_oob 0) test3_truth (list_ascii_of_string "CGG") [40; 40; 40]
              (PerPosition test3_gap_open) (Uniform 1) 4 = AssertionFailed /\
  align 8 (lane_oob 0) test3_truth (list_ascii_of_string "CGG") [40; 40; 40]
        (PerPosition test3_gap_open) (Uniform 1) 4
        (fresh_buffer test3_truth) (fresh_buffer test3_truth) = AssertionFailed.
Proof.
  assert (shape_ok 8 test3_truth (list_ascii_of_string "CGG") = false) as H
      by (vm_compute; reflexivity).
  split; [exact H|].
  exact (shape_violation_asserts 8 (lane_oob 0) test3_truth (list_ascii_of_string "CGG")
           [40; 40; 40] (PerPosition test3_gap_open) (Uniform 1) 4
           (fresh_buffer test3_truth) (fresh_buffer test3_truth) H).
Defined.

Lemma truthnqual_invariant_witness :
  (0 < 8)%nat /\
  let b := fst (score_loop 8 (lane_oob 0) test3_truth test3_target test3_qualities
                           (PerPosition test3_gap_open) (Uniform 1) 4 1 0
                           (init_band 8 test3_truth (PerPosition test3_gap_open) (Uniform 1),
                            infinity)) in
  lane (_truthnqual b) 0
  = (if lane (_truthwin b) 0 =? char_to_int "N"%char then n_score else infinity).
Proof.
  split; [lia|]. intros b.
  refine (proj1 (truthnqual_invariant 8 (lane_oob 0) test3_truth test3_target
                   test3_qualities (PerPosition test3_gap_open) (Uniform 1) 4 1 b
                   (or_introl eq_refl) 0%nat _)).
  lia.
Defined.

Lemma backtrace_terminates_witness :
  let bp := [[0; 0; 0; 0; 0; 0; 0; 0]] in
  let T := ["A"%char] in
  let Q := ["A"%char] in
  let w := mkWalk 0 0 1 1 0 0 (Some [zero; zero]) (Some [zero; zero]) in
  let w' := mkWalk (-2) 0 0 0 1 0 (Some ["A"%char; zero]) (Some ["A"%char; zero]) in
  let v := mkWalk (-1) 0 1 1 0 0 (Some [zero; zero]) (Some [zero; zero]) in
  (walk_body 8 T Q bp w = Returned w' /\ w_s w' = w_s w - 2 /\ w_s w' < w_s w) /\
  (w_y w' <= 0 /\ backtrace 8 T Q 1 bp w' = Completed w') /\
  (0 < w_y v /\ (w_s v < 0 \/ w_i v < 0) /\ backtrace 8 T Q 1 bp v = Overflowed v) /\
  ((walk_fuel (w_s w) <= 2)%nat /\ backtrace 8 T Q 2 bp w <> Exhausted).
Proof.
  intros bp T Q w w' v.
  assert (walk_body 8 T Q bp w = Returned w') as Hbody by reflexivity.
  assert (w_y w' <= 0) as Hy by (simpl; lia).
  assert (0 < w_y v) as Hv by (simpl; lia).
  assert (w_s v < 0 \/ w_i v < 0) as Hneg by (left; simpl; lia).
  assert (walk_fuel (w_s w) <= 2)%nat as Hfuel by (vm_compute; lia).
  split; [split; [exact Hbody
                 | exact (proj1 (backtrace_terminates 8 T Q bp w) w' Hbody)]|].
  split; [split; [exact Hy
                 | exact (proj1 (proj2 (backtrace_terminates 8 T Q bp w')) 0%nat Hy)]|].
  split; [split; [exact Hv | split; [exact Hneg|]]|].
  - exact (proj1 (proj2 (proj2 (backtrace_terminates 8 T Q bp v))) 0%nat Hv Hneg).
  - split; [exact Hfuel|].
    exact (proj1 (proj2 (proj2 (proj2 (backtrace_terminates 8 T Q bp w)))) 2%nat Hfuel).
Defined.

Lemma overflow_returns_minus_one_witness :
  shape_ok 8 saturating_truth saturating_target = true /\ (2 <= 8)%nat /\
  saturating_call 0
  = Returned (mkAlignment (-1) (-1)
                          (Some (list_ascii_of_string "CC" ++ repeat zero 285))
                          (Some (list_ascii_of_string "A-" ++ repeat zero 285))).
Proof.
  assert (shape_ok 8 saturating_truth saturating_target = true) as Hshape
      by (vm_compute; reflexivity).
  assert (2 <= 8)%nat as HB by lia.
  split; [exact Hshape | split; [exact HB|]].
  pose proof (overflow_returns_minus_one 8 (lane_oob 0) saturating_truth saturating_target
                (repeat 127 128) (PerPosition (repeat 127 143)) (Uniform 1) 127
                (fresh_buffer saturating_truth) (fresh_buffer saturating_truth)
                Hshape HB) as [_ Hwalk].
  rewrite (Hwalk (mkWalk 251 (-1) 126 127 2 0
                         (Some (list_ascii_of_string "CC" ++ repeat zero 285))
                         (Some (list_ascii_of_string "A-" ++ repeat zero 285)))).
  - reflexivity.
  - vm_compute. discriminate.
  - vm_compute. reflexivity.
Defined.


(** ** Instances of the further properties *)

Ltac prove_each tac := repeat (apply Forall_cons; [tac|]); apply Forall_nil.

Lemma lane_oob_in (k : nat) (v : VectorType) (n : Z) :
  (k < 8)%nat -> length v = 8%nat -> In (lane_oob k v n) v.
Proof. intros Hk Hv. unfold lane_oob, lane. apply nth_In. lia. Qed.

Lemma test3_score_returns :
  align_score 8 (lane_oob 0) test3_truth test3_target test3_qualities
              (PerPosition test3_gap_open) (Uniform 1) 4 = Returned 71.
Proof. vm_compute. reflexivity. Qed.

Lemma test3_fit :
  penalties_fit 8 test3_truth test3_target test3_qualities
                (PerPosition test3_gap_open) (Uniform 1) 4 40 90 1.
Proof.
  unfold penalties_fit. split; [reflexivity|].
  split; [unfold test3_qualities; prove_each lia|].
  split; [split; [reflexivity | unfold test3_gap_open; cbn [repeat app]; prove_each lia]|].
  split; [cbn [penalty_within]; lia|].
  split; [lia|]. split; [lia|]. vm_compute; discriminate.
Qed.

Lemma score_only_range_witness :
  shape_ok 8 test3_truth test3_target = true /\
  exists r,
    align_score 8 (lane_oob 0) test3_truth test3_target test3_qualities
                (PerPosition test3_gap_open) (Uniform 1) 4 = Returned r /\
    0 <= r <= score_ceiling.
Proof.
  assert (shape_ok 8 test3_truth test3_target = true) as Hshape by reflexivity.
  split; [exact Hshape|].
  exact (score_only_range 8 (lane_oob 0) test3_truth test3_target test3_qualities
           (PerPosition test3_gap_open) (Uniform 1) 4 Hshape).
Defined.

Lemma align_result_range_witness :
  test3_call = Returned test3_result /\
  ((score test3_result = -1 /\ first_pos test3_result = -1) \/
   (0 <= score test3_result < score_ceiling /\ 0 <= first_pos test3_result)).
Proof.
  pose proof test3_call_returns as Hc.
  split; [exact Hc|].
  exact (align_result_range _ _ _ _ _ _ _ _ _ _ _ Hc).
Defined.

Lemma range_check_never_fails_witness :
  shape_ok 8 test3_truth test3_target = true /\ (2 <= 8)%nat /\
  let st := main_loop_end 8 (lane_oob 0) test3_truth test3_target test3_qualities
                          (PerPosition test3_gap_open) (Uniform 1) 4 in
  0 <= t_minscoreidx st /\
  ptr_outside 8 test3_target st = false /\
  t_minscoreidx st < Z.of_nat (length (t_backpointers st)).
Proof.
  assert (shape_ok 8 test3_truth test3_target = true) as Hshape by reflexivity.
  assert (2 <= 8)%nat as HB by lia.
  assert (0 <= t_minscoreidx
                 (main_loop_end 8 (lane_oob 0) test3_truth test3_target test3_qualities
                                (PerPosition test3_gap_open) (Uniform 1) 4)) as Hidx
      by (vm_compute; discriminate).
  split; [exact Hshape|]. split; [exact HB|]. cbv zeta. split; [exact Hidx|].
  exact (range_check_never_fails 8 (lane_oob 0) test3_truth test3_target test3_qualities
           (PerPosition test3_gap_open) (Uniform 1) 4 Hshape HB Hidx).
Defined.

Lemma backpointer_round_trip_witness :
  Forall (fun v => length v = 2%nat) [[0; 0]; [0; 0]] /\
  (1 < length [[0; 0]; [0; 0]])%nat /\
  length [5; 2] = 2%nat /\ length [3; 1] = 2%nat /\ length [7; 0] = 2%nat /\
  (1 < 2)%nat /\
  let written := update [[0; 0]; [0; 0]] 1 (pack_backpointer 2 [5; 2] [3; 1] [7; 0]) in
  let decoded state :=
    Z.land (Z.shiftr (backpointer_at 2 written (Z.of_nat 1) (Z.of_nat 1)) (2 * state)) 3 in
  decoded match_label = Z.land (lane [5; 2] 1) 3 /\
  decoded insert_label = Z.land (lane [3; 1] 1) 3 /\
  decoded delete_label = Z.land (lane [7; 0] 1) 3.
Proof.
  assert (Forall (fun v => length v = 2%nat) [[0; 0]; [0; 0]]) as H1
      by (prove_each reflexivity).
  assert (1 < length [[0; 0]; [0; 0]])%nat as H2 by (simpl; lia).
  assert (1 < 2)%nat as H3 by lia.
  split; [exact H1|]. split; [exact H2|].
  split; [reflexivity|]. split; [reflexivity|]. split; [reflexivity|].
  split; [exact H3|].
  exact (backpointer_round_trip 2 [[0; 0]; [0; 0]] 1 [5; 2] [3; 1] [7; 0] 1
           H1 H2 eq_refl eq_refl eq_refl H3).
Defined.

Lemma reversal_in_place_witness :
  (3 <= length (list_ascii_of_string "GCA-"))%nat /\
  (3 <= length (list_ascii_of_string "G-AC"))%nat /\
  let turned := reverse_loop 3 0 (Z.of_nat 3 - 1) (list_ascii_of_string "GCA-")
                             (list_ascii_of_string "G-AC") in
  turned = (rev (firstn 3 (list_ascii_of_string "GCA-"))
              ++ skipn 3 (list_ascii_of_string "GCA-"),
            rev (firstn 3 (list_ascii_of_string "G-AC"))
              ++ skipn 3 (list_ascii_of_string "G-AC")) /\
  reverse_loop 3 0 (Z.of_nat 3 - 1) (fst turned) (snd turned)
  = (list_ascii_of_string "GCA-", list_ascii_of_string "G-AC").
Proof.
  assert (3 <= length (list_ascii_of_string "GCA-"))%nat as H1 by (simpl; lia).
  assert (3 <= length (list_ascii_of_string "G-AC"))%nat as H2 by (simpl; lia).
  split; [exact H1|]. split; [exact H2|].
  exact (reversal_in_place 3 (list_ascii_of_string "GCA-") (list_ascii_of_string "G-AC")
           H1 H2).
Defined.

Lemma align_stays_in_bounds_witness :
  shape_ok 8 test3_truth test3_target = true /\ (2 <= 8)%nat /\
  truth_len test3_truth + target_len test3_target + 1
  <= capacity (fresh_buffer test3_truth) /\
  t_minscoreidx (main_loop_end 8 (lane_oob 0) test3_truth test3_target test3_qualities
                               (PerPosition test3_gap_open) (Uniform 1) 4)
  < 2 * (target_len test3_target + B 8) /\
  exists r, test3_call = Returned r.
Proof.
  assert (shape_ok 8 test3_truth test3_target = true) as Hshape by reflexivity.
  assert (2 <= 8)%nat as HB by lia.
  assert (truth_len test3_truth + target_len test3_target + 1
          <= capacity (fresh_buffer test3_truth)) as Hcap by (vm_compute; discriminate).
  assert (t_minscoreidx
            (main_loop_end 8 (lane_oob 0) test3_truth test3_target test3_qualities
                           (PerPosition test3_gap_open) (Uniform 1) 4)
          < 2 * (target_len test3_target + B 8)) as Hidx by (vm_compute; reflexivity).
  split; [exact Hshape|]. split; [exact HB|]. split; [exact Hcap|]. split; [exact Hidx|].
  exact (align_stays_in_bounds 8 (lane_oob 0) test3_truth test3_target test3_qualities
           (PerPosition test3_gap_open) (Uniform 1) 4
           (fresh_buffer test3_truth) (fresh_buffer test3_truth)
           Hshape HB Hcap Hcap Hidx).
Defined.


Lemma zero_score_iff_occurrence_witness :
  let truth := list_ascii_of_string "ACGTACGTACGTACGAAAA" in
  let target := list_ascii_of_string "AAAA" in
  shape_ok 8 truth target = true /\
  (forall v n, length v = 8%nat -> In (lane_oob 0 v n) v) /\
  penalties_fit 8 truth target [40; 40; 40; 40] (PerPosition (repeat 10 19)) (Uniform 1)
                4 40 10 1 /\
  Forall (fun q => 0 < q) [40; 40; 40; 40] /\
  penalty_within (length truth) (PerPosition (repeat 10 19)) 1 10 /\
  0 < 1 /\
  (align_score 8 (lane_oob 0) truth target [40; 40; 40; 40] (PerPosition (repeat 10 19))
               (Uniform 1) 4 = Returned 0
   <-> exists p, 0 <= p <= 2 * B 8 - 1 /\ occurs_at truth target p).
Proof.
  cbv zeta.
  assert (shape_ok 8 (list_ascii_of_string "ACGTACGTACGTACGAAAA")
                   (list_ascii_of_string "AAAA") = true) as Hshape by reflexivity.
  assert (forall v n, length v = 8%nat -> In (lane_oob 0 v n) v) as Hoob
      by (intros v n Hv; apply lane_oob_in; [lia | exact Hv]).
  assert (penalties_fit 8 (list_ascii_of_string "ACGTACGTACGTACGAAAA")
                        (list_ascii_of_string "AAAA") [40; 40; 40; 40]
                        (PerPosition (repeat 10 19)) (Uniform 1) 4 40 10 1) as Hfit.
  { unfold penalties_fit. split; [reflexivity|].
    split; [prove_each lia|].
    split; [split; [reflexivity | cbn [repeat]; prove_each lia]|].
    split; [cbn [penalty_within]; lia|].
    split; [lia|]. split; [lia|]. vm_compute; discriminate. }
  assert (Forall (fun q => 0 < q) [40; 40; 40; 40]) as Hq by (prove_each lia).
  assert (penalty_within (length (list_ascii_of_string "ACGTACGTACGTACGAAAA"))
                         (PerPosition (repeat 10 19)) 1 10) as Ho
      by (split; [reflexivity | cbn [repeat]; prove_each lia]).
  assert (0 < 1) as Hg by lia.
  repeat (split; [assumption|]).
  exact (zero_score_iff_occurrence 8 (lane_oob 0) _ _ _ _ _ 4 40 10 1
           Hshape Hoob Hfit Hq Ho Hg).
Defined.

Lemma score_at_most_ungapped_penalty_witness :
  shape_ok 8 test3_truth test3_target = true /\
  (forall v n, length v = 8%nat -> In (lane_oob 0 v n) v) /\
  penalties_fit 8 test3_truth test3_target test3_qualities
                (PerPosition test3_gap_open) (Uniform 1) 4 40 90 1 /\
  0 <= 5 <= 2 * B 8 - 1 /\
  align_score 8 (lane_oob 0) test3_truth test3_target test3_qualities
              (PerPosition test3_gap_open) (Uniform 1) 4 = Returned 71 /\
  71 <= ungapped_penalty test3_truth test3_target test3_qualities 5 (length test3_target).
Proof.
  assert (shape_ok 8 test3_truth test3_target = true) as Hshape by reflexivity.
  assert (forall v n, length v = 8%nat -> In (lane_oob 0 v n) v) as Hoob
      by (intros v n Hv; apply lane_oob_in; [lia | exact Hv]).
  pose proof test3_fit as Hfit.
  assert (0 <= 5 <= 2 * B 8 - 1) as Hp by (unfold B; lia).
  pose proof test3_score_returns as Hr.
  repeat (split; [assumption|]).
  exact (score_at_most_ungapped_penalty 8 (lane_oob 0) test3_truth test3_target
           test3_qualities (PerPosition test3_gap_open) (Uniform 1) 4 40 90 1 5 71
           Hshape Hoob Hfit Hp Hr).
Defined.

Lemma score_same_on_all_backends_witness :
  shape_ok 8 test3_truth test3_target = true /\
  (forall v n, length v = 8%nat -> In (lane_oob 0 v n) v) /\
  (forall v n, length v = 8%nat -> In (lane_oob 7 v n) v) /\
  penalties_fit 8 test3_truth test3_target test3_qualities
                (PerPosition test3_gap_open) (Uniform 1) 4 40 90 1 /\
  align_score 8 (lane_oob 0) test3_truth test3_target test3_qualities
              (PerPosition test3_gap_open) (Uniform 1) 4
  = align_score 8 (lane_oob 7) test3_truth test3_target test3_qualities
                (PerPosition test3_gap_open) (Uniform 1) 4.
Proof.
  assert (shape_ok 8 test3_truth test3_target = true) as Hshape by reflexivity.
  assert (forall v n, length v = 8%nat -> In (lane_oob 0 v n) v) as H0
      by (intros v n Hv; apply lane_oob_in; [lia | exact Hv]).
  assert (forall v n, length v = 8%nat -> In (lane_oob 7 v n) v) as H7
      by (intros v n Hv; apply lane_oob_in; [lia | exact Hv]).
  pose proof test3_fit as Hfit.
  split; [exact Hshape|]. split; [exact H0|]. split; [exact H7|]. split; [exact Hfit|].
  exact (score_same_on_all_backends 8 (lane_oob 0) (lane_oob 7) test3_truth test3_target
           test3_qualities (PerPosition test3_gap_open) (Uniform 1) 4 40 90 1
           Hshape H0 H7 Hfit).
Defined.

Lemma windows_follow_the_sequences_witness :
  shape_ok 8 test3_truth test3_target = true /\
  Forall (fun q => -128 <= q <= 127) test3_qualities /\
  windows_at 8 test3_truth test3_target test3_qualities (Z.of_nat 3)
    (fst (score_loop 8 (lane_oob 0) test3_truth test3_target test3_qualities
                     (PerPosition test3_gap_open) (Uniform 1) 4 3 0
                     (init_band 8 test3_truth (PerPosition test3_gap_open) (Uniform 1),
                      infinity))) /\
  windows_at 8 test3_truth test3_target test3_qualities (Z.of_nat 3)
    (t_band (align_loop 8 (lane_oob 0) test3_truth test3_target test3_qualities
                        (PerPosition test3_gap_open) (Uniform 1) 4 3 0
                        (init_trace 8 test3_truth (PerPosition test3_gap_open)
                                    (Uniform 1)))).
Proof.
  assert (shape_ok 8 test3_truth test3_target = true) as Hshape by reflexivity.
  assert (Forall (fun q => -128 <= q <= 127) test3_qualities) as Hq
      by (unfold test3_qualities; prove_each lia).
  split; [exact Hshape|]. split; [exact Hq|].
  exact (windows_follow_the_sequences 8 (lane_oob 0) test3_truth test3_target
           test3_qualities (PerPosition test3_gap_open) (Uniform 1) 4 3 Hshape Hq).
Defined.

Lemma gap_windows_follow_the_truth_witness :
  shape_ok 8 test3_truth test3_target = true /\
  penalty_within (length test3_truth) (PerPosition test3_gap_open) (-128) 127 /\
  penalty_within (length test3_truth) (Uniform 1) (-128) 127 /\
  gap_windows_at 8 test3_truth (PerPosition test3_gap_open) (Uniform 1) (Z.of_nat 3)
    (fst (score_loop 8 (lane_oob 0) test3_truth test3_target test3_qualities
                     (PerPosition test3_gap_open) (Uniform 1) 4 3 0
                     (init_band 8 test3_truth (PerPosition test3_gap_open) (Uniform 1),
                      infinity))) /\
  gap_windows_at 8 test3_truth (PerPosition test3_gap_open) (Uniform 1) (Z.of_nat 3)
    (t_band (align_loop 8 (lane_oob 0) test3_truth test3_target test3_qualities
                        (PerPosition test3_gap_open) (Uniform 1) 4 3 0
                        (init_trace 8 test3_truth (PerPosition test3_gap_open)
                                    (Uniform 1)))).
Proof.
  assert (shape_ok 8 test3_truth test3_target = true) as Hshape by reflexivity.
  assert (penalty_within (length test3_truth) (PerPosition test3_gap_open) (-128) 127) as Ho
      by (split; [reflexivity
                 | unfold test3_gap_open; cbn [repeat app]; prove_each lia]).
  assert (penalty_within (length test3_truth) (Uniform 1) (-128) 127) as He
      by (cbn [penalty_within]; lia).
  split; [exact Hshape|]. split; [exact Ho|]. split; [exact He|].
  exact (gap_windows_follow_the_truth 8 (lane_oob 0) test3_truth test3_target
           test3_qualities (PerPosition test3_gap_open) (Uniform 1) 4 3 Hshape Ho He).
Defined.


Lemma empty_target_aligns_at_zero_witness :
  shape_ok 2 (list_ascii_of_string "ACG") [] = true /\
  align_score 2 (lane_oob 0) (list_ascii_of_string "ACG") [] [] (PerPosition [10; 10; 10])
              (Uniform 1) 4
  = Returned 0 /\
  align 2 (lane_oob 0) (list_ascii_of_string "ACG") [] [] (PerPosition [10; 10; 10])
        (Uniform 1) 4 (Some ["x"%char; "y"%char]) (Some ["z"%char])
  = Returned (mkAlignment 0 0 (Some [zero; "y"%char]) (Some [zero])).
Proof.
  assert (shape_ok 2 (list_ascii_of_string "ACG") [] = true) as Hshape by reflexivity.
  split; [exact Hshape|].
  exact (empty_target_aligns_at_zero 2 (lane_oob 0) (list_ascii_of_string "ACG") []
           (PerPosition [10; 10; 10]) (Uniform 1) 4 "x"%char "z"%char ["y"%char] []
           Hshape).
Defined.
